(** * STM32 serial-shell bootloader: command engine and safe update

    A shallow embedding of the command protocol engine of the bootloader,
    followed by the properties proved about it.

    Definitions:
    - [CStr]: C strings over byte buffers and the functions of the C
      library that the sources call;
    - [Legacy] ([CustomBootloader.c]): line parser, argument lookup,
      jump-address validation, the jump-to and flash-erase handlers;
    - [Shell] ([custom_bootloader.c]): command read loop, error state
      handler and the operational/error/exit state machine;
    - [UpdateNew] ([cbl_cmds_update_new.c]): staging of a new application
      and the update of the boot record.

    Properties: [CStrFacts], [LegacyFacts], [ShellFacts], [UpdateNewFacts].

    C strings live in byte buffers ([list ascii]); a [char *] into the
    command buffer is an offset into it.  Calls into the HAL and into
    translation units other than the modelled files are section variables,
    and every such call is recorded in a log, so that orderings ("before any
    unlock", "before the boot record is written") can be stated.  Debug
    output and LED signalling are left out. *)

From Stdlib Require Import ZArith List String Ascii Bool Arith Lia.
Import ListNotations.

(* ================================================================== *)
(** ** Error codes *)

(** The error enumeration [cbl_err_code_t] ([CBL_ErrCode_t] in the older file).
    Its declaration is in a header; the constructors below are the
    enumerators that the modelled files name. *)
Inductive cbl_err_code_t : Set :=
| CBL_ERR_OK
| CBL_ERR_READ_OF
| CBL_ERR_WRITE
| CBL_ERR_STATE
| CBL_ERR_HAL_TX
| CBL_ERR_HAL_RX
| CBL_ERR_RX_ABORT
| CBL_ERR_CMD_SHORT
| CBL_ERR_CMD_UNDEF
| CBL_ERR_NEED_PARAM
| CBL_ERR_JUMP_INV_ADDR
| CBL_ERR_SECTOR
| CBL_ERR_INV_SECT
| CBL_ERR_INV_SECT_COUNT
| CBL_ERR_WRITE_INV_ADDR
| CBL_ERR_WRITE_TOO_BIG
| CBL_ERR_INV_SZ
| CBL_ERR_HAL_WRITE
| CBL_ERR_ERASE_INV_TYPE
| CBL_ERR_HAL_ERASE
| CBL_ERR_HAL_UNLOCK
| CBL_ERR_INV_PARAM
| CBL_ERR_NOT_DIG
| CBL_ERR_1ST_NOT_ZERO
| CBL_ERR_CKSUM_WRONG
| CBL_ERR_TEMP_NOT_VAL1
| CBL_ERR_UNSUP_CKSUM
| CBL_ERR_CRC_LEN
| CBL_ERR_SHA256_LEN
| CBL_ERR_NEW_APP_LEN
| CBL_ERR_NOT_IMPL
| CBL_ERR_APP_TYPE
| CBL_ERR_NULL_PAR
| CBL_ERR_PAR_FORCE
| CBL_ERR_INV_SREC
| CBL_ERR_SREC_FCN
| CBL_ERR_INV_HEX
| CBL_ERR_SEGMEN
| CBL_ERR_IHEX_FCN
| CBL_ERR_INV_IHEX
| CBL_ERR_CMDCD.

Definition err_eq_dec (a b : cbl_err_code_t) : {a = b} + {a <> b}.
Proof. decide equality. Defined.

(** [eCode != CBL_ERR_OK] *)
Definition is_err (e : cbl_err_code_t) : bool :=
  match e with CBL_ERR_OK => false | _ => true end.

(* ================================================================== *)
(** ** C strings over byte buffers *)

Module CStr.

Definition NUL : ascii := Ascii.zero.
Definition CR : ascii := ascii_of_nat 13.
Definition LF : ascii := ascii_of_nat 10.

Definition chars (s : string) : list ascii := list_ascii_of_string s.

(** The C string that starts at the head of [mem]: the bytes before the
    first NUL.  The end of the modelled buffer counts as the terminator. *)
Fixpoint until_nul (mem : list ascii) : list ascii :=
  match mem with
  | [] => []
  | c :: t => if Ascii.eqb c NUL then [] else c :: until_nul t
  end.

(** The C string at pointer [buf + off]. *)
Definition cstr (buf : list ascii) (off : nat) : list ascii :=
  until_nul (skipn off buf).

Definition strlen (mem : list ascii) : nat := List.length (until_nul mem).

Definition nul_free (s : list ascii) : Prop := until_nul s = s.

(** [buf[i] = c] *)
Fixpoint store (buf : list ascii) (i : nat) (c : ascii) : list ascii :=
  match buf, i with
  | [], _ => []
  | _ :: t, O => c :: t
  | x :: t, S i' => x :: store t i' c
  end.

(** [memchr(buf + start, c, n)]: offset of the first [c] among the [n]
    bytes from [start] on. *)
Fixpoint memchr_from (mem : list ascii) (c : ascii) (n pos : nat)
  : option nat :=
  match n, mem with
  | S n', x :: t =>
      if Ascii.eqb x c then Some pos else memchr_from t c n' (S pos)
  | _, _ => None
  end.

Definition memchr (buf : list ascii) (start : nat) (c : ascii) (n : nat)
  : option nat :=
  memchr_from (skipn start buf) c n start.

Definition tolower (c : ascii) : ascii :=
  let n := nat_of_ascii c in
  if (65 <=? n) && (n <=? 90) then ascii_of_nat (n + 32) else c.

(** [strlwr(s)]: lower-cases the string in place, up to its terminator. *)
Fixpoint strlwr (s : list ascii) : list ascii :=
  match s with
  | [] => []
  | c :: t => if Ascii.eqb c NUL then s else tolower c :: strlwr t
  end.

(** [strncmp(s1, s2, n)] on the memory at the two pointers; the result is
    the difference of the first differing bytes (as unsigned char). *)
Fixpoint strncmp (s1 s2 : list ascii) (n : nat) : Z :=
  match n with
  | O => 0%Z
  | S n' =>
      let c1 := hd NUL s1 in
      let c2 := hd NUL s2 in
      if Ascii.eqb c1 c2
      then if Ascii.eqb c1 NUL then 0%Z else strncmp (tl s1) (tl s2) n'
      else (Z.of_nat (nat_of_ascii c1) - Z.of_nat (nat_of_ascii c2))%Z
  end.

(** *** [strtoul]

    The C library's [strtoul] for a target whose [unsigned long] has 32
    bits: leading white space, an optional sign, for base 16 an optional
    [0x] prefix, then the longest run of digits of the base.  A value that
    does not fit yields [ULONG_MAX]; a minus sign negates modulo [2^32]. *)

Definition ULONG_MAX : Z := (2 ^ 32 - 1)%Z.

Definition isspace (c : ascii) : bool :=
  let n := nat_of_ascii c in (n =? 32) || ((9 <=? n) && (n <=? 13)).

Definition digit_val (c : ascii) : option Z :=
  let n := nat_of_ascii c in
  if (48 <=? n) && (n <=? 57) then Some (Z.of_nat (n - 48))
  else if (97 <=? n) && (n <=? 122) then Some (Z.of_nat (n - 87))
  else if (65 <=? n) && (n <=? 90) then Some (Z.of_nat (n - 55))
  else None.

Fixpoint skip_spaces (s : list ascii) : list ascii :=
  match s with
  | c :: t => if isspace c then skip_spaces t else s
  | [] => []
  end.

Fixpoint digits_value (s : list ascii) (base acc : Z) : Z :=
  match s with
  | c :: t =>
      match digit_val c with
      | Some d => if (d <? base)%Z then digits_value t base (acc * base + d)%Z
                  else acc
      | None => acc
      end
  | [] => acc
  end.

Definition strip_sign (s : list ascii) : bool * list ascii :=
  match s with
  | c :: t => if Ascii.eqb c "-" then (true, t)
              else if Ascii.eqb c "+" then (false, t)
              else (false, s)
  | [] => (false, [])
  end.

Definition strip_0x (s : list ascii) : list ascii :=
  match s with
  | z :: x :: t =>
      if Ascii.eqb z "0" && (Ascii.eqb x "x" || Ascii.eqb x "X") then t else s
  | _ => s
  end.

Definition strtoul (s : list ascii) (base : Z) : Z :=
  let (neg, s1) := strip_sign (skip_spaces s) in
  let s2 := if (base =? 16)%Z then strip_0x s1 else s1 in
  let v := digits_value s2 base 0 in
  if (ULONG_MAX <? v)%Z then ULONG_MAX
  else if neg then ((2 ^ 32 - v) mod 2 ^ 32)%Z else v.

(** The casts [(uint8_t)] and [(uint32_t)]. *)
Definition uint8 (z : Z) : Z := (z mod 2 ^ 8)%Z.
Definition uint32 (z : Z) : Z := (z mod 2 ^ 32)%Z.

End CStr.

(* ================================================================== *)
(** ** [CustomBootloader.c] *)

Module Legacy.
Import CStr.

(** *** Parser *)

(** [CBL_Parser_t].  [cmd] points to the command buffer, which the parser
    modifies in place, so the record carries the buffer contents; the first
    [numOfArgs] rows of [args] are the list [args] of pairs (offset of the
    name, offset of the value). *)
Record CBL_Parser_t : Set := mkParser {
  cmd : list ascii;
  len : nat;
  args : list (nat * nat)
}.

Definition numOfArgs (p : CBL_Parser_t) : nat := List.length (args p).

(** The name and the value of the [i]-th recorded argument, as strings. *)
Definition arg_name (p : CBL_Parser_t) (i : nat) : option (list ascii) :=
  option_map (fun a => cstr (cmd p) (fst a)) (nth_error (args p) i).

Definition arg_val (p : CBL_Parser_t) (i : nat) : option (list ascii) :=
  option_map (fun a => cstr (cmd p) (snd a)) (nth_error (args p) i).

(** The body of the [for] loop of [cbl_ParseCmd]; [fuel] is
    [CBL_MAX_ARGS - i], [pSpa] the offset of the current space. *)
Fixpoint parse_args (fuel : nat) (buf : list ascii) (len : nat)
  (pSpa : option nat) (acc : list (nat * nat))
  : list ascii * list (nat * nat) :=
  match fuel, pSpa with
  | S fuel', Some spa =>
      let buf1 := store buf spa NUL in
      match memchr buf1 spa "=" (len - spa) with
      | None => (buf1, acc)
      | Some equ =>
          let buf2 := store buf1 equ NUL in
          parse_args fuel' buf2 len (memchr buf2 equ " " (len - equ))
            (acc ++ [(spa + 1, equ + 1)])
      end
  | _, _ => (buf, acc)
  end.

Section Parser.

(** Maximum number of arguments, a constant of the header.  The loop
    counter [i] is a [uint8_t]; the constant is taken to be below 256. *)
Variable CBL_MAX_ARGS : nat.

Definition cbl_ParseCmd (cmd : list ascii) (len : nat)
  : cbl_err_code_t * CBL_Parser_t :=
  let cmd0 := strlwr cmd in
  let pSpa := memchr cmd0 0 " " len in
  let (buf, a) := parse_args CBL_MAX_ARGS cmd0 len pSpa [] in
  (CBL_ERR_OK, mkParser buf len a).

End Parser.

(** The loop of [cbl_ParserGetArgVal] over the recorded arguments. *)
Fixpoint get_arg_from (buf : list ascii) (l : list (nat * nat))
  (name : list ascii) (lenName : nat) : option nat :=
  match l with
  | [] => None
  | (pName, pVal) :: rest =>
      let lenArgName := strlen (skipn pName buf) in
      if (lenArgName =? lenName)
         && (strncmp (skipn pName buf) name lenArgName =? 0)%Z
      then Some pVal
      else get_arg_from buf rest name lenName
  end.

(** Returns the pointer to the value ([Some] offset) or [NULL] ([None]). *)
Definition cbl_ParserGetArgVal (p : CBL_Parser_t) (name : list ascii)
  (lenName : nat) : option nat :=
  get_arg_from (cmd p) (args p) name lenName.

(** *** HAL calls and handlers *)

Inductive HAL_StatusTypeDef : Set :=
| HAL_OK
| HAL_ERROR
| HAL_BUSY
| HAL_TIMEOUT.

(** The fields of [FLASH_EraseInitTypeDef] that the handler sets.
    [VoltageRange] and [Banks] are the same constants on every path; for a
    mass erase [Sector] and [NbSectors] are left unset. *)
Inductive FLASH_EraseInitTypeDef : Set :=
| TYPEERASE_SECTORS (Sector NbSectors : Z)
| TYPEERASE_MASSERASE.

(** Calls that reach the hardware, in the order in which they are made.
    LED signalling is left out. *)
Inductive hal_call : Set :=
| UART_Transmit (buf : list ascii)
| FLASH_Unlock
| FLASHEx_Erase (settings : FLASH_EraseInitTypeDef)
| FLASH_Lock.

Definition hal_log := list hal_call.

(** How a handler ends: it returns an error code, or control is transferred
    to [target] by the call through the function pointer. *)
Inductive outcome : Set :=
| Returned (e : cbl_err_code_t) (w : hal_log)
| Jumped (target : Z) (w : hal_log).

(** An integer constant of a header together with its C type: [int] or
    [unsigned int] (a [U] suffix).  The type decides how a comparison with
    an [int] expression is carried out. *)
Inductive c_const : Set :=
| IntConst (v : Z)
| UIntConst (v : Z).

Definition c_val (c : c_const) : Z :=
  match c with IntConst v => v | UIntConst v => v end.

Definition c_unsigned (c : c_const) : bool :=
  match c with IntConst _ => false | UIntConst _ => true end.

(** [a >= c] for an expression [a] of type [int]: with an unsigned constant
    the usual arithmetic conversions turn [a] into [unsigned int] first. *)
Definition c_ge (a : Z) (c : c_const) : bool :=
  match c with
  | IntConst v => (v <=? a)%Z
  | UIntConst v => (v <=? uint32 a)%Z
  end.

(** Modelled from the spec: the texts of the argument names of the header
    [CustomBootLoader.h], which is not among the sources; the command lines of
    the spec and the help text give [addr], [type], [sector], [count] and the
    values [sector] and [mass]. *)
Definition CBL_TXTCMD_JUMP_TO_ADDR : list ascii := chars "addr".
Definition CBL_TXTCMD_FLASH_ERASE_TYPE : list ascii := chars "type".
Definition CBL_TXTCMD_FLASH_ERASE_SECT : list ascii := chars "sector".
Definition CBL_TXTCMD_FLASH_ERASE_COUNT : list ascii := chars "count".
Definition CBL_TXTCMD_FLASH_ERASE_TYPE_SECT : list ascii := chars "sector".
Definition CBL_TXTCMD_FLASH_ERASE_TYPE_MASS : list ascii := chars "mass".

Section Handlers.

(** The region tests of the device header. *)
Variables IS_FLASH_ADDRESS IS_CCMDATARAM_ADDRESS IS_SRAM1_ADDRESS
  IS_SRAM2_ADDRESS IS_BKPSRAM_ADDRESS IS_SYSMEM_ADDRESS : Z -> bool.

(** Number of flash sectors, a constant of the device header. *)
Variable FLASH_SECTOR_TOTAL : c_const.

(** The success text sent to the host. *)
Variable CBL_TXT_SUCCESS : list ascii.

(** The HAL: the status of a call may depend on the calls made so far. *)
Variable HAL_UART_Transmit : list ascii -> hal_log -> HAL_StatusTypeDef.
Variable HAL_FLASH_Unlock : hal_log -> HAL_StatusTypeDef.
Variable HAL_FLASHEx_Erase :
  FLASH_EraseInitTypeDef -> hal_log -> HAL_StatusTypeDef * Z.

Definition cbl_SendToHost (buf : list ascii) (w : hal_log)
  : cbl_err_code_t * hal_log :=
  match HAL_UART_Transmit buf w with
  | HAL_OK => (CBL_ERR_OK, w ++ [UART_Transmit buf])
  | _ => (CBL_ERR_HAL_TX, w ++ [UART_Transmit buf])
  end.

Definition cbl_VerifyJumpAddress (addr : Z) : cbl_err_code_t :=
  if IS_FLASH_ADDRESS addr
     || IS_CCMDATARAM_ADDRESS addr
     || IS_SRAM1_ADDRESS addr
     || IS_SRAM2_ADDRESS addr
     || IS_BKPSRAM_ADDRESS addr
     || IS_SYSMEM_ADDRESS addr
  then CBL_ERR_OK
  else CBL_ERR_JUMP_INV_ADDR.

(** The address that [cbl_HandleCmdJumpTo] reads from the value at
    [charAddr]: [(uint32_t)strtoul(charAddr, NULL, 16)]. *)
Definition jump_addr (p : CBL_Parser_t) (charAddr : nat) : Z :=
  uint32 (strtoul (skipn charAddr (cmd p)) 16).

Definition cbl_HandleCmdJumpTo (p : CBL_Parser_t) (w : hal_log) : outcome :=
  match cbl_ParserGetArgVal p CBL_TXTCMD_JUMP_TO_ADDR
          (strlen CBL_TXTCMD_JUMP_TO_ADDR) with
  | None => Returned CBL_ERR_NEED_PARAM w
  | Some charAddr =>
      let addr := jump_addr p charAddr in
      let eCode := cbl_VerifyJumpAddress addr in
      if is_err eCode then Returned eCode w
      else
        (* addr++ *)
        let addr := uint32 (addr + 1) in
        let (eCode, w1) := cbl_SendToHost CBL_TXT_SUCCESS w in
        if is_err eCode then Returned eCode w1
        else Jumped addr w1
  end.

(** [sect] and [count] of [cbl_HandleCmdFlashErase]:
    [(uint8_t)strtoul(charSect, NULL, 10)]. *)
Definition sector_arg (p : CBL_Parser_t) (ptr : nat) : Z :=
  uint8 (strtoul (skipn ptr (cmd p)) 10).

(** The number that the request gives for [sector] or [count]: the value
    of [strtoul(charSect, NULL, 10)], before its conversion to [uint8_t]. *)
Definition requested_number (p : CBL_Parser_t) (ptr : nat) : Z :=
  strtoul (skipn ptr (cmd p)) 10.

(** [strncmp(type, CBL_TXTCMD_FLASH_ERASE_TYPE_SECT, strlen(...)) == 0] *)
Definition is_type (p : CBL_Parser_t) (type : nat) (txt : list ascii) : bool :=
  (strncmp (skipn type (cmd p)) txt (strlen txt) =? 0)%Z.

(** First half of [cbl_HandleCmdFlashErase]: the arguments are read and
    checked and [settings] is filled, or the handler returns an error. *)
Definition erase_settings (p : CBL_Parser_t)
  : cbl_err_code_t + FLASH_EraseInitTypeDef :=
  match cbl_ParserGetArgVal p CBL_TXTCMD_FLASH_ERASE_TYPE
          (strlen CBL_TXTCMD_FLASH_ERASE_TYPE) with
  | None => inl CBL_ERR_NEED_PARAM
  | Some type =>
      if is_type p type CBL_TXTCMD_FLASH_ERASE_TYPE_SECT then
        match cbl_ParserGetArgVal p CBL_TXTCMD_FLASH_ERASE_SECT
                (strlen CBL_TXTCMD_FLASH_ERASE_SECT) with
        | None => inl CBL_ERR_NEED_PARAM
        | Some charSect =>
            let sect := sector_arg p charSect in
            if c_ge sect FLASH_SECTOR_TOTAL then inl CBL_ERR_INV_SECT
            else
              match cbl_ParserGetArgVal p CBL_TXTCMD_FLASH_ERASE_COUNT
                      (strlen CBL_TXTCMD_FLASH_ERASE_COUNT) with
              | None => inl CBL_ERR_NEED_PARAM
              | Some charCount =>
                  let count := sector_arg p charCount in
                  if c_ge (sect + count - 1) FLASH_SECTOR_TOTAL
                  then inl CBL_ERR_INV_SECT_COUNT
                  else inr (TYPEERASE_SECTORS sect count)
              end
        end
      else if is_type p type CBL_TXTCMD_FLASH_ERASE_TYPE_MASS then
        inr TYPEERASE_MASSERASE
      else inl CBL_ERR_ERASE_INV_TYPE
  end.

(** Second half: unlock, erase, lock, report. *)
Definition erase_flash (settings : FLASH_EraseInitTypeDef) (w : hal_log)
  : cbl_err_code_t * hal_log :=
  match HAL_FLASH_Unlock w with
  | HAL_OK =>
      let w1 := w ++ [FLASH_Unlock] in
      let (HALCode, sectorCode) := HAL_FLASHEx_Erase settings w1 in
      let w2 := w1 ++ [FLASHEx_Erase settings; FLASH_Lock] in
      match HALCode with
      | HAL_OK =>
          if (sectorCode =? 4294967295)%Z
          then cbl_SendToHost CBL_TXT_SUCCESS w2
          else (CBL_ERR_SECTOR, w2)
      | _ => (CBL_ERR_HAL_ERASE, w2)
      end
  | _ => (CBL_ERR_HAL_UNLOCK, w ++ [FLASH_Unlock])
  end.

Definition cbl_HandleCmdFlashErase (p : CBL_Parser_t) (w : hal_log)
  : cbl_err_code_t * hal_log :=
  match erase_settings p with
  | inl e => (e, w)
  | inr settings => erase_flash settings w
  end.

End Handlers.

(** *** Concrete surroundings used to run the handlers *)

(** The jumpable regions of the STM32F407 (flash, CCM data RAM, SRAM1,
    SRAM2, backup SRAM, system memory), as inclusive address ranges. *)
Definition in_range (lo hi addr : Z) : bool :=
  ((lo <=? addr) && (addr <=? hi))%Z.

Definition f407_flash : Z -> bool := in_range 134217728 135266303.
Definition f407_ccm : Z -> bool := in_range 268435456 268500991.
Definition f407_sram1 : Z -> bool := in_range 536870912 536985599.
Definition f407_sram2 : Z -> bool := in_range 536985600 537001983.
Definition f407_bkpsram : Z -> bool := in_range 1073889280 1073893375.
Definition f407_sysmem : Z -> bool := in_range 536805376 536836095.

Definition f407_verify : Z -> cbl_err_code_t :=
  cbl_VerifyJumpAddress f407_flash f407_ccm f407_sram1 f407_sram2
    f407_bkpsram f407_sysmem.

(** A HAL in which every call succeeds. *)
Definition uart_ok (_ : list ascii) (_ : hal_log) : HAL_StatusTypeDef := HAL_OK.
Definition unlock_ok (_ : hal_log) : HAL_StatusTypeDef := HAL_OK.
Definition erase_ok (_ : FLASH_EraseInitTypeDef) (_ : hal_log)
  : HAL_StatusTypeDef * Z := (HAL_OK, 4294967295%Z).

(** The parser state after [cbl_ParseCmd] on a command line given as text,
    with room for ten arguments (the example value of the spec for
    [CBL_MAX_ARGS]). *)
Definition parsed (line : string) : CBL_Parser_t :=
  snd (cbl_ParseCmd 10 (chars line) (List.length (chars line))).

End Legacy.


(* ================================================================== *)
(** ** [custom_bootloader.c] *)

Module Shell.
Import CStr.

(** Size of a new command buffer. *)
Definition CMD_BUF_SZ : nat := 128.

Definition CRLF : list ascii := [CR; LF].

Inductive sys_states_t : Set :=
| STATE_OPER
| STATE_ERR
| STATE_EXIT.

(** Calls on the host link, in the order in which they are made.  LED
    signalling is left out. *)
Inductive hal_call : Set :=
| SendToHost (buf : list ascii)
| RecvFromHostStart.

(** The surroundings of the shell: the bytes that the host is going to
    send, the calls made on the link so far, and the global exit request
    flag [gIsExitReq]. *)
Record world : Set := mkWorld {
  host_rx : list ascii;
  hal_log : list hal_call;
  gIsExitReq : bool
}.

(** A call returns a value, or control never comes back to the caller (the
    busy wait for a byte that the host does not send; a command that
    restarts the device or jumps away). *)
Inductive run (A : Type) : Type :=
| Ret (a : A)
| NoReturn.
Arguments Ret {A} a.
Arguments NoReturn {A}.

(** One pass of the loop of [run_shell_system] leaves the shell in a state
    with an error code, or the function returns. *)
Inductive shell_result : Set :=
| Running (state : sys_states_t) (eCode : cbl_err_code_t) (w : world)
| Finished (eCode : cbl_err_code_t) (w : world).

(** A CR immediately followed by a LF occurs in [l]. *)
Fixpoint has_crlf (l : list ascii) : bool :=
  match l with
  | c1 :: t =>
      match t with
      | c2 :: _ => (Ascii.eqb CR c1 && Ascii.eqb LF c2) || has_crlf t
      | [] => false
      end
  | [] => false
  end.

(** The same, for a list that follows a byte which was a CR iff [b]. *)
Fixpoint crlf_from (b : bool) (l : list ascii) : bool :=
  match l with
  | c :: t => (b && Ascii.eqb LF c) || crlf_from (Ascii.eqb CR c) t
  | [] => false
  end.

(** [buf[i] = c0; buf[i + 1] = c1; ...] for the bytes of [l]. *)
Fixpoint store_list (buf : list ascii) (i : nat) (l : list ascii)
  : list ascii :=
  match l with
  | c :: t => store_list (store buf i c) (S i) t
  | [] => buf
  end.

(** The prompt and the report of an overlong command. *)
Definition prompt : list ascii := CRLF ++ chars "> ".
Definition msg_too_long : list ascii :=
  CRLF ++ chars "ERROR: Command too long" ++ CRLF.

(** The case labels of the [switch] of [sys_state_error]. *)
Definition has_case (eCode : cbl_err_code_t) : bool :=
  match eCode with
  | CBL_ERR_OK | CBL_ERR_READ_OF | CBL_ERR_WRITE | CBL_ERR_STATE
  | CBL_ERR_HAL_TX | CBL_ERR_HAL_RX | CBL_ERR_RX_ABORT | CBL_ERR_CMD_SHORT
  | CBL_ERR_CMD_UNDEF | CBL_ERR_NEED_PARAM | CBL_ERR_JUMP_INV_ADDR
  | CBL_ERR_SECTOR | CBL_ERR_INV_SECT | CBL_ERR_INV_SECT_COUNT
  | CBL_ERR_WRITE_INV_ADDR | CBL_ERR_INV_SZ | CBL_ERR_HAL_WRITE
  | CBL_ERR_ERASE_INV_TYPE | CBL_ERR_HAL_ERASE | CBL_ERR_HAL_UNLOCK
  | CBL_ERR_INV_PARAM | CBL_ERR_NOT_DIG | CBL_ERR_1ST_NOT_ZERO
  | CBL_ERR_CKSUM_WRONG | CBL_ERR_TEMP_NOT_VAL1 | CBL_ERR_UNSUP_CKSUM
  | CBL_ERR_CRC_LEN | CBL_ERR_SHA256_LEN | CBL_ERR_NEW_APP_LEN
  | CBL_ERR_NOT_IMPL | CBL_ERR_APP_TYPE | CBL_ERR_NULL_PAR
  | CBL_ERR_PAR_FORCE | CBL_ERR_INV_SREC | CBL_ERR_SREC_FCN
  | CBL_ERR_INV_HEX | CBL_ERR_SEGMEN | CBL_ERR_IHEX_FCN
  | CBL_ERR_INV_IHEX => true
  | _ => false
  end.

Section Shell.

(** The link to the host: status of a transmission and of the start of a
    one-byte reception, given the calls made so far. *)
Variable hal_send_to_host_status :
  list ascii -> list hal_call -> cbl_err_code_t.
Variable hal_recv_from_host_start_status : list hal_call -> cbl_err_code_t.

(** [CBL_process_cmd]: parser and command handlers are in other files. *)
Variable CBL_process_cmd :
  list ascii -> nat -> world -> run (cbl_err_code_t * world).

Definition hal_send_to_host (buf : list ascii) (w : world)
  : cbl_err_code_t * world :=
  (hal_send_to_host_status buf (hal_log w),
   mkWorld (host_rx w) (hal_log w ++ [SendToHost buf]) (gIsExitReq w)).

(** The [while] loop of [wait_for_cmd].  Each pass starts the reception of
    one byte and waits until the receive interrupt has counted it, so
    [gRxCmdCntr] grows by one per pass; when the host sends nothing more
    the wait does not end. *)
Fixpoint wait_loop (rx : list ascii) (len gRxCmdCntr iii : nat)
  (isLastCharCR : bool) (buf : list ascii) (log : list hal_call)
  : run (cbl_err_code_t * list ascii * (list ascii * list hal_call)) :=
  if gRxCmdCntr <? len then
    let eCode := hal_recv_from_host_start_status log in
    let log1 := log ++ [RecvFromHostStart] in
    if is_err eCode then Ret (eCode, buf, (rx, log1))
    else
      match rx with
      | [] => NoReturn
      | c :: rx' =>
          let buf1 := store buf iii c in
          if isLastCharCR && Ascii.eqb LF c
          then Ret (CBL_ERR_OK, store buf1 (iii - 1) NUL, (rx', log1))
          else wait_loop rx' len (S gRxCmdCntr) (S iii) (Ascii.eqb CR c)
                 buf1 log1
      end
  else Ret (CBL_ERR_READ_OF, buf, (rx, log)).

Definition wait_for_cmd (buf : list ascii) (len : nat) (w : world)
  : run (cbl_err_code_t * list ascii * world) :=
  let (eCode, w1) := hal_send_to_host (CRLF ++ chars "> ") w in
  if is_err eCode then Ret (eCode, buf, w1)
  else
    match wait_loop (host_rx w1) len 0 0 false buf (hal_log w1) with
    | Ret (e, buf', (rx', log')) =>
        Ret (e, buf', mkWorld rx' log' (gIsExitReq w1))
    | NoReturn => NoReturn
    end.

Definition sys_state_operation (w : world) : run (cbl_err_code_t * world) :=
  let cmd := repeat NUL CMD_BUF_SZ in
  match wait_for_cmd cmd CMD_BUF_SZ w with
  | Ret (eCode, cmd', w1) =>
      if is_err eCode then Ret (eCode, w1)
      else CBL_process_cmd cmd' (strlen cmd') w1
  | NoReturn => NoReturn
  end.

(** [hal_send_to_host(msg, strlen(msg)); eCode = CBL_ERR_OK;] *)
Definition report (msg : list ascii) (w : world) : cbl_err_code_t * world :=
  (CBL_ERR_OK, snd (hal_send_to_host msg w)).

Definition sys_state_error (eCode : cbl_err_code_t) (w : world)
  : cbl_err_code_t * world :=
  match eCode with
  | CBL_ERR_OK => (CBL_ERR_OK, w)
  | CBL_ERR_READ_OF =>
      report (CRLF ++ chars "ERROR: Command too long" ++ CRLF) w
  | CBL_ERR_WRITE => (CBL_ERR_OK, w)
  | CBL_ERR_STATE => (CBL_ERR_OK, w)
  | CBL_ERR_HAL_TX => (CBL_ERR_OK, w)
  | CBL_ERR_HAL_RX => (CBL_ERR_OK, w)
  | CBL_ERR_RX_ABORT => (CBL_ERR_OK, w)
  | CBL_ERR_CMD_SHORT => (CBL_ERR_OK, w)
  | CBL_ERR_CMD_UNDEF =>
      report (CRLF ++ chars "ERROR: Invalid command" ++ CRLF) w
  | CBL_ERR_NEED_PARAM =>
      report (CRLF ++ chars "ERROR: Missing parameter(s)" ++ CRLF) w
  | CBL_ERR_JUMP_INV_ADDR =>
      report (CRLF ++ chars "ERROR: Invalid address" ++ CRLF
          ++ chars "Jumpable regions: FLASH, SRAM1, SRAM2, CCMRAM, "
          ++ chars "BKPSRAM, SYSMEM and EXTMEM (if connected)"
          ++ CRLF) w
  | CBL_ERR_SECTOR =>
      report (CRLF ++ chars "ERROR: Internal error while erasing sectors"
          ++ CRLF) w
  | CBL_ERR_INV_SECT =>
      report (CRLF ++ chars "ERROR: Wrong sector given" ++ CRLF) w
  | CBL_ERR_INV_SECT_COUNT =>
      report (CRLF ++ chars "ERROR: Wrong sector count given" ++ CRLF) w
  | CBL_ERR_WRITE_INV_ADDR =>
      report (CRLF ++ chars "ERROR: Invalid address range entered" ++ CRLF) w
  | CBL_ERR_INV_SZ =>
      report (CRLF ++ chars "ERROR: Invalid length" ++ CRLF) w
  | CBL_ERR_HAL_WRITE =>
      report (CRLF
          ++ chars "ERROR: Error while writing to flash. Retry last message."
          ++ CRLF) w
  | CBL_ERR_ERASE_INV_TYPE =>
      report (CRLF ++ chars "ERROR: Invalid erase type" ++ CRLF) w
  | CBL_ERR_HAL_ERASE =>
      report (CRLF ++ chars "ERROR: HAL error while erasing sectors " ++ CRLF) w
  | CBL_ERR_HAL_UNLOCK =>
      report (CRLF ++ chars "ERROR: Unlocking flash failed" ++ CRLF) w
  | CBL_ERR_INV_PARAM => (CBL_ERR_OK, w)
  | CBL_ERR_NOT_DIG =>
      report (CRLF ++ chars "ERROR: Number parameter contains letters"
          ++ CRLF) w
  | CBL_ERR_1ST_NOT_ZERO =>
      report (CRLF
          ++ chars "ERROR: Number parameter must have '0' at the start "
          ++ chars " when 'x' is present"
          ++ CRLF) w
  | CBL_ERR_CKSUM_WRONG =>
      report (CRLF
          ++ chars "ERROR: Data corrupted during transport"
          ++ chars " (Invalid checksum). Retry last message."
          ++ CRLF) w
  | CBL_ERR_TEMP_NOT_VAL1 =>
      report (CRLF ++ chars "ERROR: Value for parameter invalid..." ++ CRLF) w
  | CBL_ERR_UNSUP_CKSUM =>
      report (CRLF ++ chars "ERROR: Requested checksum not supported" ++ CRLF) w
  | CBL_ERR_CRC_LEN =>
      report (CRLF ++ chars "ERROR: Length for CRC32 must be divisible by 4 "
          ++ CRLF) w
  | CBL_ERR_SHA256_LEN =>
      report (CRLF ++ chars "ERROR: Invalid length for sha256" ++ CRLF) w
  | CBL_ERR_NEW_APP_LEN =>
      report (CRLF ++ chars "ERROR: New app is too long. Aborting" ++ CRLF) w
  | CBL_ERR_NOT_IMPL =>
      report (CRLF ++ chars "ERROR: Requested action is not implemented"
          ++ CRLF) w
  | CBL_ERR_APP_TYPE =>
      report (CRLF ++ chars "ERROR: Invalid user application type" ++ CRLF) w
  | CBL_ERR_NULL_PAR =>
      report (CRLF ++ chars "ERROR: NULL sent as a parameter of a function"
          ++ CRLF) w
  | CBL_ERR_PAR_FORCE =>
      report (CRLF ++ chars "ERROR: Invalid force parameter" ++ CRLF) w
  | CBL_ERR_INV_SREC =>
      report (CRLF ++ chars "ERROR: Invalid S-record file" ++ CRLF) w
  | CBL_ERR_SREC_FCN =>
      report (CRLF ++ chars "ERROR: Invalid S-record function" ++ CRLF) w
  | CBL_ERR_INV_HEX =>
      report (CRLF ++ chars "ERROR: Invalid hex value character" ++ CRLF) w
  | CBL_ERR_SEGMEN =>
      report (CRLF ++ chars "ERROR: Segmentation" ++ CRLF) w
  | CBL_ERR_IHEX_FCN =>
      report (CRLF ++ chars "ERROR: Unsupported Intel hex function" ++ CRLF) w
  | CBL_ERR_INV_IHEX =>
      report (CRLF ++ chars "ERROR: Invalid contents of intel hex" ++ CRLF) w
  | _ => (eCode, w)
  end.

(** One pass of the loop of [run_shell_system].  [nextState] equals
    [state] at the head of every pass. *)
Definition shell_step (state : sys_states_t) (eCode : cbl_err_code_t)
  (w : world) : run shell_result :=
  match state with
  | STATE_OPER =>
      match sys_state_operation w with
      | Ret (eCode', w') =>
          if is_err eCode' then Ret (Running STATE_ERR eCode' w')
          else if gIsExitReq w' then Ret (Running STATE_EXIT eCode' w')
          else Ret (Running STATE_OPER eCode' w')
      | NoReturn => NoReturn
      end
  | STATE_ERR =>
      let (eCode', w') := sys_state_error eCode w in
      if is_err eCode' then Ret (Running STATE_EXIT eCode' w')
      else Ret (Running STATE_OPER eCode' w')
  | STATE_EXIT =>
      let (eCode', w') :=
        hal_send_to_host (chars "Exiting" ++ CRLF ++ CRLF) w in
      Ret (Finished eCode' w')
  end.

(** [n] passes of the loop. *)
Fixpoint shell_iter (n : nat) (r : shell_result) : run shell_result :=
  match n, r with
  | S n', Running state eCode w =>
      match shell_step state eCode w with
      | Ret r' => shell_iter n' r'
      | NoReturn => NoReturn
      end
  | _, _ => Ret r
  end.

(** [run_shell_system] after [shell_init] and the optional processing of
    the update-active command, which leave the error code [eCode]: the loop
    starts in the error state ([state = STATE_ERR]); [n] bounds the number
    of passes. *)
Definition run_shell_system (n : nat) (eCode : cbl_err_code_t) (w : world)
  : run shell_result :=
  shell_iter n (Running STATE_ERR eCode w).

End Shell.

(** *** Concrete surroundings used to run the shell *)

(** A link on which every call succeeds. *)
Definition send_ok (_ : list ascii) (_ : list hal_call) : cbl_err_code_t :=
  CBL_ERR_OK.
Definition recv_ok (_ : list hal_call) : cbl_err_code_t := CBL_ERR_OK.

(** A command processing that knows the command [jump-to] only and runs
    the jump handler of [CustomBootloader.c] on the memory map of the
    STM32F407. *)
Definition jump_only (cmd : list ascii) (len : nat) (w : world)
  : run (cbl_err_code_t * world) :=
  let p := snd (Legacy.cbl_ParseCmd 10 cmd len) in
  if (strlen (Legacy.cmd p) =? 7)
     && (strncmp (Legacy.cmd p) (chars "jump-to") 7 =? 0)%Z
  then
    match Legacy.cbl_HandleCmdJumpTo Legacy.f407_flash Legacy.f407_ccm
            Legacy.f407_sram1 Legacy.f407_sram2 Legacy.f407_bkpsram
            Legacy.f407_sysmem (chars "OK") Legacy.uart_ok p [] with
    | Legacy.Returned e _ => Ret (e, w)
    | Legacy.Jumped _ _ => NoReturn
    end
  else Ret (CBL_ERR_CMD_UNDEF, w).

(** A host that sends [line] followed by CR LF. *)
Definition host_sends (line : string) : world :=
  mkWorld (chars line ++ CRLF) [] false.

(** A host that sends [CMD_BUF_SZ] letters without a line end and then the
    line [help]. *)
Definition overlong : world :=
  mkWorld (repeat "x"%char CMD_BUF_SZ ++ chars "help" ++ CRLF) [] false.

End Shell.

(* ================================================================== *)
(** ** [cbl_cmds_update_new.c] *)

Module UpdateNew.
Import CStr.

(** A call either yields a value or reads through a null pointer, which C
    leaves undefined. *)
Inductive exec (A : Type) : Type :=
| Ok (a : A)
| NullDeref.
Arguments Ok {A} a.
Arguments NullDeref {A}.

(** [strlen(s)] for a pointer [s] that may be [NULL]. *)
Definition strlen_ptr (s : option (list ascii)) : exec nat :=
  match s with
  | Some str => Ok (strlen str)
  | None => NullDeref
  end.

Section UpdateNew.

(** The enumerations of checksum kinds and application types, and the type
    of the parser handle, are declared in headers. *)
Variables cksum_t app_type_t parser_t : Set.

(** Modelled from the spec: [boot_record_t], whose declaration is in a
    header.  The handler writes [new_app.app_type], [new_app.cksum_used],
    [new_app.len] and [is_new_app_ready]; the entry of the active
    application is the one of the spec's data model. *)
Record app_meta_t : Set := mkMeta {
  cksum_used : cksum_t;
  app_type : app_type_t;
  len : Z
}.

Record boot_record_t : Set := mkRecord {
  is_new_app_ready : bool;
  new_app : app_meta_t;
  act_app : app_meta_t
}.

(** Calls into the other translation units, in the order in which they
    are made. *)
Inductive call : Set :=
| FlashEraseSector (sector count : Z)
| FlashWrite (start length : Z) (cksum : cksum_t)
| BootRecordGet
| BootRecordSet (r : boot_record_t)
| SendToHost (buf : list ascii)
| SystemRestart.

(** The persisted boot record and the calls made so far. *)
Record world : Set := mkWorld {
  boot_record : boot_record_t;
  calls : list call
}.

(** How the handler ends. *)
Inductive outcome : Set :=
| Returned (e : cbl_err_code_t) (w : world)
| Restarted (w : world)
| Undefined.

(** Constants of the headers. *)
Variables TXT_PAR_UP_NEW_COUNT TXT_PAR_CKSUM TXT_PAR_APP_TYPE TXT_SUCCESS
  : list ascii.
Variables BOOT_NEW_APP_MAX_LEN BOOT_NEW_APP_START BOOT_NEW_APP_START_SECTOR
  BOOT_NEW_APP_MAX_SECTORS : Z.

(** Functions of the other translation units.  A returned [char *] is the
    string it points to, [None] for [NULL]; an output parameter is returned
    next to the error code. *)
Variable parser_get_val : parser_t -> list ascii -> nat -> option (list ascii).
Variable str2ui32 : list ascii -> nat -> Z -> cbl_err_code_t * Z.
Variable enum_checksum :
  option (list ascii) -> nat -> cbl_err_code_t * cksum_t.
Variable enum_app_type : list ascii -> nat -> cbl_err_code_t * app_type_t.

(** Status of the collaborators, given the world in which they are called;
    [boot_record_set] also decides which record is stored afterwards. *)
Variable hal_flash_erase_sector_status : Z -> Z -> world -> cbl_err_code_t.
Variable flash_write_status : Z -> Z -> cksum_t -> world -> cbl_err_code_t.
Variable boot_record_set_result :
  boot_record_t -> world -> cbl_err_code_t * boot_record_t.
Variable hal_send_to_host_status : list ascii -> world -> cbl_err_code_t.

Definition log (c : call) (w : world) : world :=
  mkWorld (boot_record w) (calls w ++ [c]).

Definition hal_flash_erase_sector (sector count : Z) (w : world)
  : cbl_err_code_t * world :=
  (hal_flash_erase_sector_status sector count w,
   log (FlashEraseSector sector count) w).

Definition flash_write (start length : Z) (cksum : cksum_t) (w : world)
  : cbl_err_code_t * world :=
  (flash_write_status start length cksum w,
   log (FlashWrite start length cksum) w).

Definition boot_record_get (w : world) : boot_record_t * world :=
  (boot_record w, log BootRecordGet w).

Definition boot_record_set (r : boot_record_t) (w : world)
  : cbl_err_code_t * world :=
  let (e, stored) := boot_record_set_result r w in
  (e, mkWorld stored (calls w ++ [BootRecordSet r])).

Definition hal_send_to_host (buf : list ascii) (w : world)
  : cbl_err_code_t * world :=
  (hal_send_to_host_status buf w, log (SendToHost buf) w).

(** Returns the error code, or on success the three output parameters
    [*p_len], [*p_cksum] and [*p_app_type]. *)
Definition update_new_get_params (ph_prsr : parser_t)
  : exec (cbl_err_code_t + Z * cksum_t * app_type_t) :=
  match parser_get_val ph_prsr TXT_PAR_UP_NEW_COUNT
          (strlen TXT_PAR_UP_NEW_COUNT) with
  | None => Ok (inl CBL_ERR_NEED_PARAM)
  | Some char_len =>
      let (eCode, p_len) := str2ui32 char_len (strlen char_len) 10 in
      if is_err eCode then Ok (inl eCode)
      else if (BOOT_NEW_APP_MAX_LEN <? p_len)%Z
      then Ok (inl CBL_ERR_NEW_APP_LEN)
      else
        let char_cksum :=
          parser_get_val ph_prsr TXT_PAR_CKSUM (strlen TXT_PAR_CKSUM) in
        match strlen_ptr char_cksum with
        | NullDeref => NullDeref
        | Ok cksum_len =>
            let (eCode, p_cksum) := enum_checksum char_cksum cksum_len in
            if is_err eCode then Ok (inl eCode)
            else
              match parser_get_val ph_prsr TXT_PAR_APP_TYPE
                      (strlen TXT_PAR_APP_TYPE) with
              | None => Ok (inl CBL_ERR_NEED_PARAM)
              | Some char_app_type =>
                  let (eCode, p_app_type) :=
                    enum_app_type char_app_type (strlen char_app_type) in
                  if is_err eCode then Ok (inl eCode)
                  else Ok (inr (p_len, p_cksum, p_app_type))
              end
        end
  end.

Definition restart_msg : list ascii := chars "Restarting..." ++ [CR; LF].

Definition cmd_update_new (phPrsr : parser_t) (w : world) : outcome :=
  match update_new_get_params phPrsr with
  | NullDeref => Undefined
  | Ok (inl eCode) => Returned eCode w
  | Ok (inr (len, cksum, app_type)) =>
      let (eCode, w1) :=
        hal_flash_erase_sector BOOT_NEW_APP_START_SECTOR
          BOOT_NEW_APP_MAX_SECTORS w in
      if is_err eCode then Returned eCode w1
      else
        let (eCode, w2) := flash_write BOOT_NEW_APP_START len cksum w1 in
        if is_err eCode then Returned eCode w2
        else
          let (p_boot_record, w3) := boot_record_get w2 in
          let p_boot_record :=
            mkRecord true (mkMeta cksum app_type len)
              (act_app p_boot_record) in
          let (eCode, w4) := boot_record_set p_boot_record w3 in
          if is_err eCode then Returned eCode w4
          else
            let (eCode, w5) := hal_send_to_host TXT_SUCCESS w4 in
            if is_err eCode then Returned eCode w5
            else
              let (eCode, w6) := hal_send_to_host restart_msg w5 in
              if is_err eCode then Returned eCode w6
              else Restarted (log SystemRestart w6)
  end.

End UpdateNew.

Arguments mkMeta {cksum_t app_type_t}.
Arguments mkRecord {cksum_t app_type_t}.
Arguments mkWorld {cksum_t app_type_t}.
Arguments boot_record {cksum_t app_type_t}.
Arguments calls {cksum_t app_type_t}.
Arguments is_new_app_ready {cksum_t app_type_t}.
Arguments new_app {cksum_t app_type_t}.
Arguments act_app {cksum_t app_type_t}.
Arguments FlashEraseSector {cksum_t app_type_t}.
Arguments FlashWrite {cksum_t app_type_t}.
Arguments BootRecordGet {cksum_t app_type_t}.
Arguments BootRecordSet {cksum_t app_type_t}.
Arguments SendToHost {cksum_t app_type_t}.
Arguments SystemRestart {cksum_t app_type_t}.
Arguments Returned {cksum_t app_type_t}.
Arguments Restarted {cksum_t app_type_t}.
Arguments Undefined {cksum_t app_type_t}.
Arguments log {cksum_t app_type_t}.

(** *** Concrete surroundings used to run the handler *)

(** A parser handle that is the list of the (key, value) pairs of the line;
    the lookup returns the value of the first pair with the key. *)
Definition pairs_t : Set := list (list ascii * list ascii).

Fixpoint pairs_get_val (p : pairs_t) (name : list ascii) (lenName : nat)
  : option (list ascii) :=
  match p with
  | [] => None
  | (k, v) :: rest =>
      if (strlen k =? lenName) && (strncmp k name (strlen k) =? 0)%Z
      then Some v
      else pairs_get_val rest name lenName
  end.

(** Conversions that accept every text: the number is read by [strtoul],
    checksum kind and application type are numbered 0. *)
Definition any_ui32 (s : list ascii) (_ : nat) (base : Z)
  : cbl_err_code_t * Z :=
  (CBL_ERR_OK, strtoul s base).
Definition any_cksum (_ : option (list ascii)) (_ : nat)
  : cbl_err_code_t * nat :=
  (CBL_ERR_OK, 0).
Definition any_app_type (_ : list ascii) (_ : nat) : cbl_err_code_t * nat :=
  (CBL_ERR_OK, 0).

(** The handler with at most 1024 bytes for the new application, in
    surroundings where the erase, the write, the store of the boot record
    and the transmissions return the given codes; a store that succeeds
    stores the record it is given, one that fails keeps the old record. *)
Definition run_update_new (eErase eWrite eSet eSend : cbl_err_code_t)
  : pairs_t -> world nat nat -> outcome nat nat :=
  cmd_update_new nat nat pairs_t (chars "count") (chars "cksum")
    (chars "type") (chars "OK") 1024 134479872 5 3
    pairs_get_val any_ui32 any_cksum any_app_type
    (fun _ _ _ => eErase) (fun _ _ _ _ => eWrite)
    (fun r w => (eSet, if is_err eSet then boot_record w else r))
    (fun _ _ => eSend).

(** A boot record without a staged application. *)
Definition idle_record : boot_record_t nat nat :=
  mkRecord false (mkMeta 0 0 0%Z) (mkMeta 0 0 4096%Z).

(** The requests [update-new count=16 cksum=no type=bin],
    [update-new count=2048 type=bin] and [update-new count=16 type=bin]. *)
Definition request_16 : pairs_t :=
  [(chars "count", chars "16"); (chars "cksum", chars "no");
   (chars "type", chars "bin")].
Definition request_2048 : pairs_t :=
  [(chars "count", chars "2048"); (chars "type", chars "bin")].
Definition request_no_cksum : pairs_t :=
  [(chars "count", chars "16"); (chars "type", chars "bin")].

End UpdateNew.

(* ================================================================== *)
(** ** Well-formed command lines *)

Module CmdLine.
Import CStr.

(** [s] holds none of the bytes of [forbidden]. *)
Definition free_of (forbidden s : list ascii) : bool :=
  forallb (fun x => negb (existsb (Ascii.eqb x) forbidden)) s.

(** A command name and a value hold neither a terminator nor a space, an
    argument name holds no [=] either. *)
Definition name_ok : list ascii -> bool := free_of [NUL; " "%char].
Definition key_ok : list ascii -> bool := free_of [NUL; " "%char; "="%char].
Definition val_ok : list ascii -> bool := free_of [NUL; " "%char].

Definition pair_ok (kv : list ascii * list ascii) : bool :=
  key_ok (fst kv) && val_ok (snd kv).

Definition lower (s : list ascii) : list ascii := map tolower s.

(** The text [ k1=v1 k2=v2 ...] that follows the command name. *)
Fixpoint tokens (ps : list (list ascii * list ascii)) : list ascii :=
  match ps with
  | [] => []
  | (k, v) :: t => (" "%char :: k) ++ ("="%char :: v) ++ tokens t
  end.

(** The same text after parsing: each space and each first [=] replaced by
    the terminator. *)
Fixpoint tokens0 (ps : list (list ascii * list ascii)) : list ascii :=
  match ps with
  | [] => []
  | (k, v) :: t => (NUL :: k) ++ (NUL :: v) ++ tokens0 t
  end.

(** The offsets of the names and values of [tokens ps] placed at [base]. *)
Fixpoint offsets (base : nat) (ps : list (list ascii * list ascii))
  : list (nat * nat) :=
  match ps with
  | [] => []
  | (k, v) :: t =>
      (base + 1, base + S (List.length k) + 1)
      :: offsets (base + S (List.length k) + S (List.length v)) t
  end.

Definition lower_pair (kv : list ascii * list ascii)
  : list ascii * list ascii :=
  (lower (fst kv), lower (snd kv)).

(** The line [name k1=v1 k2=v2 ...]. *)
Definition line (name : list ascii) (ps : list (list ascii * list ascii))
  : list ascii :=
  name ++ tokens ps.

(** The bytes of [l] before the first space. *)
Fixpoint first_word (l : list ascii) : list ascii :=
  match l with
  | [] => []
  | c :: t => if Ascii.eqb c " " then [] else c :: first_word t
  end.

(** The recorded pointers [l] lie above [lo] and at most at [hi], each name
    before its value and each value before the next name. *)
Fixpoint chain (lo : nat) (l : list (nat * nat)) (hi : nat) : Prop :=
  match l with
  | [] => True
  | (nm, v) :: t => lo < nm /\ nm < v /\ v <= hi /\ chain v t hi
  end.

(** *** A concrete line *)

(** The line [Flash-Erase type=sector SECTOR=2 count=3 Type=mass]. *)
Definition demo_name : list ascii := chars "Flash-Erase".
Definition demo_pairs : list (list ascii * list ascii) :=
  [(chars "type", chars "sector"); (chars "SECTOR", chars "2");
   (chars "count", chars "3"); (chars "Type", chars "mass")].

End CmdLine.

(** *** Further surroundings for the handlers of [CustomBootloader.c] *)

Module LegacyEnv.
Import CStr Legacy.

(** A link on which every transmission times out. *)
Definition uart_down (_ : list ascii) (_ : hal_log) : HAL_StatusTypeDef :=
  HAL_TIMEOUT.

End LegacyEnv.

(** *** The world in which the update-new handler ends *)

Module UpdateNewEnv.
Import UpdateNew.

(** The world that an outcome of [cmd_update_new] leaves behind; none after
    the read through a null pointer. *)
Definition outcome_world {cksum_t app_type_t : Set}
  (o : outcome cksum_t app_type_t) : option (world cksum_t app_type_t) :=
  match o with
  | Returned _ w => Some w
  | Restarted w => Some w
  | Undefined => None
  end.

End UpdateNewEnv.

(* ================================================================== *)
(** ** [CustomBootloader.c]: the remaining handlers, the dispatcher and
       the shell *)

(** *** Further functions of the C library *)

Module CLib.
Import CStr.

(** [char a[n] = "s";]: the bytes of the literal, then zeros up to [n]
    bytes.  A literal of exactly [n] bytes leaves no terminator. *)
Definition array_init (n : nat) (s : list ascii) : list ascii :=
  firstn n (s ++ repeat NUL n).

(** [strcpy(dst, src)] for a string [src] that fits. *)
Definition strcpy (dst src : list ascii) : list ascii :=
  Shell.store_list dst 0 (until_nul src ++ [NUL]).

(** [strlcat(dst, src, size)]: when the first [size] bytes of [dst] hold no
    terminator nothing is appended; otherwise as many bytes of [src] as
    leave room for the terminator within [size] bytes. *)
Definition strlcat (dst src : list ascii) (size : nat) : list ascii :=
  let dlen := strlen (firstn size dst) in
  if dlen =? size then dst
  else Shell.store_list dst dlen
         (firstn (size - dlen - 1) (until_nul src) ++ [NUL]).

End CLib.

Module LegacySys.
Import CStr CLib Legacy.

(** [CBL_CMD_t], as far as the code names its values. *)
Inductive CBL_CMD_t : Set :=
| CBL_CMD_UNDEF
| CBL_CMD_VERSION
| CBL_CMD_HELP
| CBL_CMD_CID
| CBL_CMD_GET_RDP_LVL
| CBL_CMD_JUMP_TO
| CBL_CMD_FLASH_ERASE
| CBL_CMD_EN_WRITE_PROT
| CBL_CMD_DIS_WRITE_PROT
| CBL_CMD_MEM_READ
| CBL_CMD_READ_SECT_PROT_STAT
| CBL_CMD_GET_OTP_BYTES
| CBL_CMD_FLASH_WRITE
| CBL_CMD_EXIT.

Inductive CBL_sysStates_t : Set :=
| CBL_STAT_OPER
| CBL_STAT_ERR
| CBL_STAT_EXIT.

(** Calls that reach the hardware, in the order in which they are made:
    those of the jump and erase handlers ([hal_call]) and the further ones
    of this part of the file.  LED signalling is left out. *)
Inductive event : Set :=
| Hal (c : hal_call)
| UART_Receive_DMA (len : Z)
| FLASH_OB_Unlock
| FLASH_WaitForLastOperation (timeout : Z)
| FLASHEx_OBGetConfig
| FLASHEx_OBProgram (WRPSector WRPState : Z)
| FLASH_OB_Lock.

(** The surroundings: the bytes that the host is going to send, the calls
    made so far and the file's flag [isExitReq]. *)
Record world : Set := mkWorld {
  host_rx : list ascii;
  log : list event;
  isExitReq : bool
}.

(** How a handler or a pass of the shell ends: it returns, control is
    transferred to [target], or a busy wait for the host never ends. *)
Inductive outcome : Set :=
| Returned (e : cbl_err_code_t) (w : world)
| Jumped (target : Z) (w : world)
| Blocked.

(** The fields of [FLASH_OBProgramInitTypeDef] that the code reads. *)
Record OBConfig : Set := mkOB {
  WRPSector : Z;
  RDPLevel : Z
}.

(** The loop of [cbl_ui16tobina]: [i] is decremented, then bit [i] of [num]
    is written as a digit, until [i] is 0. *)
Fixpoint ui16_digits (i : nat) (num : Z) : list ascii :=
  match i with
  | O => []
  | S i' =>
      let bit := negb (Z.land (Z.shiftr num (Z.of_nat i')) 1 =? 0)%Z in
      ascii_of_nat ((if bit then 1 else 0) + 48) :: ui16_digits i' num
  end.

(** [cbl_ui16tobina(num, str)]: the contents of [str] afterwards. *)
Definition cbl_ui16tobina (num : Z) (str : list ascii) : list ascii :=
  Shell.store_list str 0
    ("0"%char :: "b"%char :: ui16_digits 16 num ++ [NUL]).

(** The case labels of the [switch] of [cbl_StateError]. *)
Definition has_case (eCode : cbl_err_code_t) : bool :=
  match eCode with
  | CBL_ERR_OK | CBL_ERR_READ_OF | CBL_ERR_WRITE | CBL_ERR_STATE
  | CBL_ERR_HAL_TX | CBL_ERR_HAL_RX | CBL_ERR_RX_ABORT | CBL_ERR_CMD_SHORT
  | CBL_ERR_CMD_UNDEF | CBL_ERR_NEED_PARAM | CBL_ERR_JUMP_INV_ADDR
  | CBL_ERR_SECTOR | CBL_ERR_INV_SECT | CBL_ERR_INV_SECT_COUNT
  | CBL_ERR_WRITE_INV_ADDR | CBL_ERR_WRITE_TOO_BIG | CBL_ERR_HAL_WRITE
  | CBL_ERR_ERASE_INV_TYPE | CBL_ERR_HAL_ERASE | CBL_ERR_HAL_UNLOCK
  | CBL_ERR_INV_PARAM => true
  | _ => false
  end.

(** One pass of the loop of [cbl_RunShellSystem] leaves the shell in a
    state with an error code, or the function returns, or control has left
    the shell for good. *)
Inductive shell_result : Set :=
| Running (state : CBL_sysStates_t) (eCode : cbl_err_code_t) (w : world)
| Finished (eCode : cbl_err_code_t) (w : world)
| Left (target : Z) (w : world)
| Stuck.

(** Constants of the header [CustomBootLoader.h] and of the device
    headers, which are not among the sources, with the register
    [DBGMCU->IDCODE] and with [itoa], which is not a function of the C
    standard: the text it produces for a value and a base. *)
Module Cfg.
Record t : Type := mk {
  CBL_CMD_BUF_SZ : nat;
  CBL_MAX_ARGS : nat;
  CBL_TXTCMD_VERSION : list ascii;
  CBL_TXTCMD_HELP : list ascii;
  CBL_TXTCMD_CID : list ascii;
  CBL_TXTCMD_GET_RDP_LVL : list ascii;
  CBL_TXTCMD_JUMP_TO : list ascii;
  CBL_TXTCMD_FLASH_ERASE : list ascii;
  CBL_TXTCMD_EN_WRITE_PROT : list ascii;
  CBL_TXTCMD_DIS_WRITE_PROT : list ascii;
  CBL_TXTCMD_MEM_READ : list ascii;
  CBL_TXTCMD_READ_SECT_PROT_STAT : list ascii;
  CBL_TXTCMD_GET_OTP_BYTES : list ascii;
  CBL_TXTCMD_FLASH_WRITE : list ascii;
  CBL_TXTCMD_EXIT : list ascii;
  CBL_TXTCMD_EN_WRITE_PROT_MASK : list ascii;
  CBL_TXTCMD_FLASH_WRITE_START : list ascii;
  CBL_TXTCMD_FLASH_WRITE_COUNT : list ascii;
  CBL_TXTRESP_FLASH_WRITE_READY : list ascii;
  CBL_TXT_SUCCESS : list ascii;
  CBL_VERSION : list ascii;
  cbl_supported_cmds : list ascii;
  CBL_FLASH_WRITE_SZ : Z;
  OB_WRPSTATE_ENABLE : Z;
  OB_WRPSTATE_DISABLE : Z;
  OB_RDP_LEVEL_0 : Z;
  OB_RDP_LEVEL_2 : Z;
  FLASH_OPTCR_nWRP_Msk : Z;
  FLASH_OPTCR_nWRP_Pos : Z;
  FLASH_SECTOR_TOTAL : c_const;
  IS_FLASH_ADDRESS : Z -> bool;
  IS_CCMDATARAM_ADDRESS : Z -> bool;
  IS_SRAM1_ADDRESS : Z -> bool;
  IS_SRAM2_ADDRESS : Z -> bool;
  IS_BKPSRAM_ADDRESS : Z -> bool;
  IS_SYSMEM_ADDRESS : Z -> bool;
  DBGMCU_IDCODE : Z;
  itoa : Z -> Z -> list ascii
}.
End Cfg.

(** The HAL: the result of a call may depend on the calls made so far. *)
Module Hw.
Record t : Type := mk {
  HAL_UART_Transmit : list ascii -> list event -> HAL_StatusTypeDef;
  HAL_UART_Receive_DMA : Z -> list event -> HAL_StatusTypeDef;
  HAL_FLASH_Unlock : list event -> HAL_StatusTypeDef;
  HAL_FLASHEx_Erase :
    FLASH_EraseInitTypeDef -> list event -> HAL_StatusTypeDef * Z;
  HAL_FLASH_OB_Unlock : list event -> HAL_StatusTypeDef;
  HAL_FLASHEx_OBGetConfig : list event -> OBConfig
}.
End Hw.

(** What holds of the shell after any number of passes. *)
Definition shell_inv (r : shell_result) : Prop :=
  match r with
  | Running CBL_STAT_OPER _ _ => True
  | Running CBL_STAT_ERR e _ => has_case e = true
  | Running CBL_STAT_EXIT e w => e = CBL_ERR_OK /\ isExitReq w = true
  | Finished e w => e = CBL_ERR_OK /\ isExitReq w = true
  | Left _ _ => True
  | Stuck => True
  end.

Section LegacySys.

Variable cfg : Cfg.t.
Variable hal : Hw.t.

Local Abbreviation CBL_CMD_BUF_SZ := (Cfg.CBL_CMD_BUF_SZ cfg).
Local Abbreviation CBL_MAX_ARGS := (Cfg.CBL_MAX_ARGS cfg).
Local Abbreviation CBL_TXTCMD_VERSION := (Cfg.CBL_TXTCMD_VERSION cfg).
Local Abbreviation CBL_TXTCMD_HELP := (Cfg.CBL_TXTCMD_HELP cfg).
Local Abbreviation CBL_TXTCMD_CID := (Cfg.CBL_TXTCMD_CID cfg).
Local Abbreviation CBL_TXTCMD_GET_RDP_LVL := (Cfg.CBL_TXTCMD_GET_RDP_LVL cfg).
Local Abbreviation CBL_TXTCMD_JUMP_TO := (Cfg.CBL_TXTCMD_JUMP_TO cfg).
Local Abbreviation CBL_TXTCMD_FLASH_ERASE := (Cfg.CBL_TXTCMD_FLASH_ERASE cfg).
Local Abbreviation CBL_TXTCMD_EN_WRITE_PROT := (Cfg.CBL_TXTCMD_EN_WRITE_PROT cfg).
Local Abbreviation CBL_TXTCMD_DIS_WRITE_PROT := (Cfg.CBL_TXTCMD_DIS_WRITE_PROT cfg).
Local Abbreviation CBL_TXTCMD_MEM_READ := (Cfg.CBL_TXTCMD_MEM_READ cfg).
Local Abbreviation CBL_TXTCMD_READ_SECT_PROT_STAT := (Cfg.CBL_TXTCMD_READ_SECT_PROT_STAT cfg).
Local Abbreviation CBL_TXTCMD_GET_OTP_BYTES := (Cfg.CBL_TXTCMD_GET_OTP_BYTES cfg).
Local Abbreviation CBL_TXTCMD_FLASH_WRITE := (Cfg.CBL_TXTCMD_FLASH_WRITE cfg).
Local Abbreviation CBL_TXTCMD_EXIT := (Cfg.CBL_TXTCMD_EXIT cfg).
Local Abbreviation CBL_TXTCMD_EN_WRITE_PROT_MASK := (Cfg.CBL_TXTCMD_EN_WRITE_PROT_MASK cfg).
Local Abbreviation CBL_TXTCMD_FLASH_WRITE_START := (Cfg.CBL_TXTCMD_FLASH_WRITE_START cfg).
Local Abbreviation CBL_TXTCMD_FLASH_WRITE_COUNT := (Cfg.CBL_TXTCMD_FLASH_WRITE_COUNT cfg).
Local Abbreviation CBL_TXTRESP_FLASH_WRITE_READY := (Cfg.CBL_TXTRESP_FLASH_WRITE_READY cfg).
Local Abbreviation CBL_TXT_SUCCESS := (Cfg.CBL_TXT_SUCCESS cfg).
Local Abbreviation CBL_VERSION := (Cfg.CBL_VERSION cfg).
Local Abbreviation cbl_supported_cmds := (Cfg.cbl_supported_cmds cfg).
Local Abbreviation CBL_FLASH_WRITE_SZ := (Cfg.CBL_FLASH_WRITE_SZ cfg).
Local Abbreviation OB_WRPSTATE_ENABLE := (Cfg.OB_WRPSTATE_ENABLE cfg).
Local Abbreviation OB_WRPSTATE_DISABLE := (Cfg.OB_WRPSTATE_DISABLE cfg).
Local Abbreviation OB_RDP_LEVEL_0 := (Cfg.OB_RDP_LEVEL_0 cfg).
Local Abbreviation OB_RDP_LEVEL_2 := (Cfg.OB_RDP_LEVEL_2 cfg).
Local Abbreviation FLASH_OPTCR_nWRP_Msk := (Cfg.FLASH_OPTCR_nWRP_Msk cfg).
Local Abbreviation FLASH_OPTCR_nWRP_Pos := (Cfg.FLASH_OPTCR_nWRP_Pos cfg).
Local Abbreviation FLASH_SECTOR_TOTAL := (Cfg.FLASH_SECTOR_TOTAL cfg).
Local Abbreviation IS_FLASH_ADDRESS := (Cfg.IS_FLASH_ADDRESS cfg).
Local Abbreviation IS_CCMDATARAM_ADDRESS := (Cfg.IS_CCMDATARAM_ADDRESS cfg).
Local Abbreviation IS_SRAM1_ADDRESS := (Cfg.IS_SRAM1_ADDRESS cfg).
Local Abbreviation IS_SRAM2_ADDRESS := (Cfg.IS_SRAM2_ADDRESS cfg).
Local Abbreviation IS_BKPSRAM_ADDRESS := (Cfg.IS_BKPSRAM_ADDRESS cfg).
Local Abbreviation IS_SYSMEM_ADDRESS := (Cfg.IS_SYSMEM_ADDRESS cfg).
Local Abbreviation DBGMCU_IDCODE := (Cfg.DBGMCU_IDCODE cfg).
Local Abbreviation itoa := (Cfg.itoa cfg).
Local Abbreviation HAL_UART_Transmit := (Hw.HAL_UART_Transmit hal).
Local Abbreviation HAL_UART_Receive_DMA := (Hw.HAL_UART_Receive_DMA hal).
Local Abbreviation HAL_FLASH_Unlock := (Hw.HAL_FLASH_Unlock hal).
Local Abbreviation HAL_FLASHEx_Erase := (Hw.HAL_FLASHEx_Erase hal).
Local Abbreviation HAL_FLASH_OB_Unlock := (Hw.HAL_FLASH_OB_Unlock hal).
Local Abbreviation HAL_FLASHEx_OBGetConfig := (Hw.HAL_FLASHEx_OBGetConfig hal).

(** The handlers of the first part run on their own list of calls; here
    that list is the continuation of the calls made so far. *)
Definition after (w : world) (l : hal_log) : world :=
  mkWorld (host_rx w) (log w ++ map Hal l) (isExitReq w).

Definition uart_after (w : world) (buf : list ascii) (l : hal_log)
  : HAL_StatusTypeDef :=
  HAL_UART_Transmit buf (log w ++ map Hal l).

Definition record (e : event) (w : world) : world :=
  mkWorld (host_rx w) (log w ++ [e]) (isExitReq w).

Definition cbl_SendToHost (buf : list ascii) (w : world)
  : cbl_err_code_t * world :=
  let (e, l) := Legacy.cbl_SendToHost (uart_after w) buf [] in
  (e, after w l).

Definition cbl_RecvFromHost (len : Z) (w : world) : cbl_err_code_t * world :=
  match HAL_UART_Receive_DMA len (log w) with
  | HAL_OK => (CBL_ERR_OK, record (UART_Receive_DMA len) w)
  | _ => (CBL_ERR_HAL_RX, record (UART_Receive_DMA len) w)
  end.

(** **** Handlers *)

Definition cbl_HandleCmdVersion (p : CBL_Parser_t) (w : world) : outcome :=
  let verbuf := array_init 12 CBL_VERSION in
  let verbuf := strlcat verbuf Shell.CRLF 12 in
  let (eCode, w1) := cbl_SendToHost (cstr verbuf 0) w in
  Returned eCode w1.

Definition cbl_HandleCmdHelp (p : CBL_Parser_t) (w : world) : outcome :=
  let (eCode, w1) := cbl_SendToHost cbl_supported_cmds w in
  Returned eCode w1.

Definition cbl_HandleCmdCid (p : CBL_Parser_t) (w : world) : outcome :=
  let cid := array_init 14 (chars "0x") in
  let cidhelp := itoa (Z.land DBGMCU_IDCODE 4095) 16 in
  let cid := strlcat cid cidhelp 12 in
  let cid := strlcat cid Shell.CRLF 12 in
  let (eCode, w1) := cbl_SendToHost (cstr cid 0) w in
  Returned eCode w1.

Definition cbl_HandleCmdGetRDPLvl (p : CBL_Parser_t) (w : world) : outcome :=
  let buf := array_init 32 [] in
  let optBytes := HAL_FLASHEx_OBGetConfig (log w) in
  let w1 := record FLASHEx_OBGetConfig w in
  let buf :=
    if (RDPLevel optBytes =? OB_RDP_LEVEL_0)%Z
    then strcpy buf (chars "level 0")
    else if (RDPLevel optBytes =? OB_RDP_LEVEL_2)%Z
    then strcpy buf (chars "level 2")
    else strcpy buf (chars "level 1") in
  let buf := strlcat buf Shell.CRLF 32 in
  let (eCode, w2) := cbl_SendToHost (cstr buf 0) w1 in
  Returned eCode w2.

Definition cbl_HandleCmdJumpTo (p : CBL_Parser_t) (w : world) : outcome :=
  match Legacy.cbl_HandleCmdJumpTo IS_FLASH_ADDRESS IS_CCMDATARAM_ADDRESS
          IS_SRAM1_ADDRESS IS_SRAM2_ADDRESS IS_BKPSRAM_ADDRESS
          IS_SYSMEM_ADDRESS CBL_TXT_SUCCESS (uart_after w) p [] with
  | Legacy.Returned e l => Returned e (after w l)
  | Legacy.Jumped target l => Jumped target (after w l)
  end.

Definition cbl_HandleCmdFlashErase (p : CBL_Parser_t) (w : world)
  : outcome :=
  let (e, l) :=
    Legacy.cbl_HandleCmdFlashErase FLASH_SECTOR_TOTAL CBL_TXT_SUCCESS
      (uart_after w)
      (fun l => HAL_FLASH_Unlock (log w ++ map Hal l))
      (fun s l => HAL_FLASHEx_Erase s (log w ++ map Hal l)) p [] in
  Returned e (after w l).

(** [mask] of [cbl_HandleCmdChangeWriteProt] as read from the text at
    [charMask], and as programmed: inverted, and cut to the nWRP bits. *)
Definition mask_arg (p : CBL_Parser_t) (charMask : nat) : Z :=
  uint32 (strtoul (skipn charMask (cmd p)) 16).

Definition wrp_mask (p : CBL_Parser_t) (charMask : nat) : Z :=
  let mask := mask_arg p charMask in
  let mask := uint32 (Z.lnot mask) in
  uint32 (Z.land mask (Z.shiftr FLASH_OPTCR_nWRP_Msk FLASH_OPTCR_nWRP_Pos)).

Definition cbl_HandleCmdChangeWriteProt (p : CBL_Parser_t) (EnDis : Z)
  (w : world) : outcome :=
  if negb (EnDis =? OB_WRPSTATE_ENABLE)%Z
     && negb (EnDis =? OB_WRPSTATE_DISABLE)%Z
  then Returned CBL_ERR_INV_PARAM w
  else
    match cbl_ParserGetArgVal p CBL_TXTCMD_EN_WRITE_PROT_MASK
            (strlen CBL_TXTCMD_EN_WRITE_PROT_MASK) with
    | None => Returned CBL_ERR_NEED_PARAM w
    | Some charMask =>
        let mask := wrp_mask p charMask in
        match HAL_FLASH_OB_Unlock (log w) with
        | HAL_OK =>
            let w1 := record FLASH_OB_Unlock w in
            let w2 := record (FLASH_WaitForLastOperation 50000) w1 in
            let w3 := record FLASHEx_OBGetConfig w2 in
            let w4 := record (FLASHEx_OBProgram mask EnDis) w3 in
            let w5 := record FLASH_OB_Lock w4 in
            let (eCode, w6) := cbl_SendToHost CBL_TXT_SUCCESS w5 in
            Returned eCode w6
        | _ => Returned CBL_ERR_HAL_UNLOCK (record FLASH_OB_Unlock w)
        end
    end.

(** [invWRPSector] of [cbl_HandleCmdReadSectProtStat]. *)
Definition inv_wrp (ob : OBConfig) : Z :=
  (Z.land ((uint32 (Z.lnot (WRPSector ob))) mod 2 ^ 16)
     (Z.shiftr FLASH_OPTCR_nWRP_Msk FLASH_OPTCR_nWRP_Pos)) mod 2 ^ 16.

Definition cbl_HandleCmdReadSectProtStat (p : CBL_Parser_t) (w : world)
  : outcome :=
  let buf := repeat NUL 19 in
  match HAL_FLASH_OB_Unlock (log w) with
  | HAL_OK =>
      let w1 := record FLASH_OB_Unlock w in
      let OBInit := HAL_FLASHEx_OBGetConfig (log w1) in
      let w2 := record FLASHEx_OBGetConfig w1 in
      let w3 := record FLASH_OB_Lock w2 in
      let invWRPSector := inv_wrp OBInit in
      let buf := cbl_ui16tobina invWRPSector buf in
      let (eCode, w4) := cbl_SendToHost (cstr buf 0) w3 in
      Returned eCode w4
  | _ => Returned CBL_ERR_HAL_UNLOCK (record FLASH_OB_Unlock w)
  end.

Definition cbl_HandleCmdMemRead (p : CBL_Parser_t) (w : world) : outcome :=
  let (eCode, w1) := cbl_SendToHost CBL_TXT_SUCCESS w in
  Returned eCode w1.

Definition cbl_HandleCmdGetOTPBytes (p : CBL_Parser_t) (w : world)
  : outcome :=
  let (eCode, w1) := cbl_SendToHost CBL_TXT_SUCCESS w in
  Returned eCode w1.

(** [start] and [len] of [cbl_HandleCmdFlashWrite]. *)
Definition write_start (p : CBL_Parser_t) (charStart : nat) : Z :=
  uint32 (strtoul (skipn charStart (cmd p)) 16).
Definition write_len (p : CBL_Parser_t) (charLen : nat) : Z :=
  uint32 (strtoul (skipn charLen (cmd p)) 10).

(** The handler ends with [return CBL_ERR_HAL_WRITE;]: the statements that
    program the flash are commented out, those after the [return] are never
    reached.  The wait for the bytes ends when the host has sent [len] of
    them. *)
Definition cbl_HandleCmdFlashWrite (p : CBL_Parser_t) (w : world)
  : outcome :=
  match cbl_ParserGetArgVal p CBL_TXTCMD_FLASH_WRITE_START
          (strlen CBL_TXTCMD_FLASH_WRITE_START) with
  | None => Returned CBL_ERR_NEED_PARAM w
  | Some charStart =>
      match cbl_ParserGetArgVal p CBL_TXTCMD_FLASH_WRITE_COUNT
              (strlen CBL_TXTCMD_FLASH_WRITE_COUNT) with
      | None => Returned CBL_ERR_NEED_PARAM w
      | Some charLen =>
          let start := write_start p charStart in
          let len := write_len p charLen in
          if negb (IS_FLASH_ADDRESS start)
             || negb (IS_FLASH_ADDRESS (uint32 (start + len)))
          then Returned CBL_ERR_WRITE_INV_ADDR w
          else if (CBL_FLASH_WRITE_SZ <? len)%Z
          then Returned CBL_ERR_WRITE_TOO_BIG w
          else
            let w1 := snd (cbl_SendToHost CBL_TXTRESP_FLASH_WRITE_READY w) in
            let (eCode, w2) := cbl_RecvFromHost len w1 in
            if is_err eCode then Returned eCode w2
            else if Z.to_nat len <=? List.length (host_rx w2)
            then Returned CBL_ERR_HAL_WRITE
                   (mkWorld (skipn (Z.to_nat len) (host_rx w2)) (log w2)
                      (isExitReq w2))
            else Blocked
      end
  end.

Definition cbl_HandleCmdExit (p : CBL_Parser_t) (w : world) : outcome :=
  let w1 := mkWorld (host_rx w) (log w) true in
  let (eCode, w2) := cbl_SendToHost CBL_TXT_SUCCESS w1 in
  Returned eCode w2.

(** **** Dispatcher *)

(** The texts and the codes of the chain of [cbl_EnumCmd], in its order. *)
Definition cmd_table : list (list ascii * CBL_CMD_t) :=
  [(CBL_TXTCMD_VERSION, CBL_CMD_VERSION);
   (CBL_TXTCMD_HELP, CBL_CMD_HELP);
   (CBL_TXTCMD_CID, CBL_CMD_CID);
   (CBL_TXTCMD_GET_RDP_LVL, CBL_CMD_GET_RDP_LVL);
   (CBL_TXTCMD_JUMP_TO, CBL_CMD_JUMP_TO);
   (CBL_TXTCMD_FLASH_ERASE, CBL_CMD_FLASH_ERASE);
   (CBL_TXTCMD_EN_WRITE_PROT, CBL_CMD_EN_WRITE_PROT);
   (CBL_TXTCMD_DIS_WRITE_PROT, CBL_CMD_DIS_WRITE_PROT);
   (CBL_TXTCMD_MEM_READ, CBL_CMD_MEM_READ);
   (CBL_TXTCMD_READ_SECT_PROT_STAT, CBL_CMD_READ_SECT_PROT_STAT);
   (CBL_TXTCMD_GET_OTP_BYTES, CBL_CMD_GET_OTP_BYTES);
   (CBL_TXTCMD_FLASH_WRITE, CBL_CMD_FLASH_WRITE);
   (CBL_TXTCMD_EXIT, CBL_CMD_EXIT)].

(** The texts of the commands are string literals, and no two of them are
    equal. *)
Definition texts_ok : Prop :=
  (forall txt c, In (txt, c) cmd_table -> nul_free txt)
  /\ NoDup (map fst cmd_table).

(** [len == strlen(TXT) && strncmp(buf, TXT, strlen(TXT)) == 0] *)
Definition is_cmd (buf : list ascii) (len : nat) (txt : list ascii) : bool :=
  (len =? strlen txt) && (strncmp buf txt (strlen txt) =? 0)%Z.

(** [cbl_EnumCmd(buf, len, &cmdCode)]: the error code and the contents of
    [cmdCode] afterwards; [cmdCode0] is what the caller left in it.  The
    chain has no final [else]. *)
Definition cbl_EnumCmd (buf : list ascii) (len : nat) (cmdCode0 : CBL_CMD_t)
  : cbl_err_code_t * CBL_CMD_t :=
  let (eCode, cmdCode) :=
    if len =? 0 then (CBL_ERR_CMD_SHORT, cmdCode0)
    else if is_cmd buf len CBL_TXTCMD_VERSION
    then (CBL_ERR_OK, CBL_CMD_VERSION)
    else if is_cmd buf len CBL_TXTCMD_HELP
    then (CBL_ERR_OK, CBL_CMD_HELP)
    else if is_cmd buf len CBL_TXTCMD_CID
    then (CBL_ERR_OK, CBL_CMD_CID)
    else if is_cmd buf len CBL_TXTCMD_GET_RDP_LVL
    then (CBL_ERR_OK, CBL_CMD_GET_RDP_LVL)
    else if is_cmd buf len CBL_TXTCMD_JUMP_TO
    then (CBL_ERR_OK, CBL_CMD_JUMP_TO)
    else if is_cmd buf len CBL_TXTCMD_FLASH_ERASE
    then (CBL_ERR_OK, CBL_CMD_FLASH_ERASE)
    else if is_cmd buf len CBL_TXTCMD_EN_WRITE_PROT
    then (CBL_ERR_OK, CBL_CMD_EN_WRITE_PROT)
    else if is_cmd buf len CBL_TXTCMD_DIS_WRITE_PROT
    then (CBL_ERR_OK, CBL_CMD_DIS_WRITE_PROT)
    else if is_cmd buf len CBL_TXTCMD_MEM_READ
    then (CBL_ERR_OK, CBL_CMD_MEM_READ)
    else if is_cmd buf len CBL_TXTCMD_READ_SECT_PROT_STAT
    then (CBL_ERR_OK, CBL_CMD_READ_SECT_PROT_STAT)
    else if is_cmd buf len CBL_TXTCMD_GET_OTP_BYTES
    then (CBL_ERR_OK, CBL_CMD_GET_OTP_BYTES)
    else if is_cmd buf len CBL_TXTCMD_FLASH_WRITE
    then (CBL_ERR_OK, CBL_CMD_FLASH_WRITE)
    else if is_cmd buf len CBL_TXTCMD_EXIT
    then (CBL_ERR_OK, CBL_CMD_EXIT)
    else (CBL_ERR_OK, cmdCode0) in
  match eCode, cmdCode with
  | CBL_ERR_OK, CBL_CMD_UNDEF => (CBL_ERR_CMD_UNDEF, cmdCode)
  | _, _ => (eCode, cmdCode)
  end.

Definition cbl_HandleCmd (cmdCode : CBL_CMD_t) (p : CBL_Parser_t)
  (w : world) : outcome :=
  match cmdCode with
  | CBL_CMD_VERSION => cbl_HandleCmdVersion p w
  | CBL_CMD_HELP => cbl_HandleCmdHelp p w
  | CBL_CMD_CID => cbl_HandleCmdCid p w
  | CBL_CMD_GET_RDP_LVL => cbl_HandleCmdGetRDPLvl p w
  | CBL_CMD_JUMP_TO => cbl_HandleCmdJumpTo p w
  | CBL_CMD_FLASH_ERASE => cbl_HandleCmdFlashErase p w
  | CBL_CMD_EN_WRITE_PROT =>
      cbl_HandleCmdChangeWriteProt p OB_WRPSTATE_ENABLE w
  | CBL_CMD_DIS_WRITE_PROT =>
      cbl_HandleCmdChangeWriteProt p OB_WRPSTATE_DISABLE w
  | CBL_CMD_MEM_READ => cbl_HandleCmdMemRead p w
  | CBL_CMD_READ_SECT_PROT_STAT => cbl_HandleCmdReadSectProtStat p w
  | CBL_CMD_GET_OTP_BYTES => cbl_HandleCmdGetOTPBytes p w
  | CBL_CMD_FLASH_WRITE => cbl_HandleCmdFlashWrite p w
  | CBL_CMD_EXIT => cbl_HandleCmdExit p w
  | CBL_CMD_UNDEF => Returned CBL_ERR_CMDCD w
  end.

(** **** Command read *)

(** The [while] loop of [cbl_WaitForCmd].  Each pass starts the reception
    of one byte and waits until the receive interrupt has counted it, so
    [cntrRecvChar] grows by one per pass; when the host sends nothing more
    the wait does not end. *)
Fixpoint wait_loop (rx : list ascii) (len cntrRecvChar i : nat)
  (isLastCharCR : bool) (buf : list ascii) (w : world)
  : Shell.run (cbl_err_code_t * list ascii * world) :=
  if cntrRecvChar <? len then
    let (eCode, w1) := cbl_RecvFromHost 1 w in
    if is_err eCode then Shell.Ret (eCode, buf, w1)
    else
      match rx with
      | [] => Shell.NoReturn
      | c :: rx' =>
          let buf1 := store buf i c in
          let w2 := mkWorld rx' (log w1) (isExitReq w1) in
          if isLastCharCR && Ascii.eqb c LF
          then Shell.Ret (CBL_ERR_OK, store buf1 (i - 1) NUL, w2)
          else wait_loop rx' len (S cntrRecvChar) (S i) (Ascii.eqb c CR)
                 buf1 w2
      end
  else Shell.Ret (CBL_ERR_READ_OF, buf, w).

Definition cbl_WaitForCmd (buf : list ascii) (len : nat) (w : world)
  : Shell.run (cbl_err_code_t * list ascii * world) :=
  let (eCode, w1) := cbl_SendToHost (Shell.CRLF ++ chars "> ") w in
  if is_err eCode then Shell.Ret (eCode, buf, w1)
  else wait_loop (host_rx w1) len 0 0 false buf w1.

(** The world after the prompt and the reception of [n] bytes, of which
    [rest] is what the host has still to send. *)
Definition after_read (w : world) (n : nat) (rest : list ascii) : world :=
  mkWorld rest
    (log w ++ Hal (UART_Transmit (Shell.CRLF ++ chars "> "))
           :: repeat (UART_Receive_DMA 1) n)
    (isExitReq w).

(** The parser state [p] of a line, seen in the command buffer: after the
    line come the terminator that replaced the CR, the LF and the zeros of
    the rest of the buffer. *)
Definition in_cmd_buf (p : CBL_Parser_t) : CBL_Parser_t :=
  mkParser
    (cmd p ++ NUL :: LF
           :: repeat NUL (CBL_CMD_BUF_SZ - List.length (cmd p) - 2))
    (len p) (args p).

(** **** State machine *)

Definition cbl_StateOperation (w : world) : outcome :=
  let cmd := repeat NUL CBL_CMD_BUF_SZ in
  match cbl_WaitForCmd cmd CBL_CMD_BUF_SZ w with
  | Shell.NoReturn => Blocked
  | Shell.Ret (eCode, cmd, w1) =>
      if is_err eCode then Returned eCode w1
      else
        let (eCode, parser) := cbl_ParseCmd CBL_MAX_ARGS cmd (strlen cmd) in
        if is_err eCode then Returned eCode w1
        else
          let (eCode, cmdCode) :=
            cbl_EnumCmd (Legacy.cmd parser) (strlen (Legacy.cmd parser))
              CBL_CMD_UNDEF in
          if is_err eCode then Returned eCode w1
          else cbl_HandleCmd cmdCode parser w1
  end.

(** [cbl_SendToHost(msg, strlen(msg)); eCode = CBL_ERR_OK;] *)
Definition report (msg : list ascii) (w : world) : cbl_err_code_t * world :=
  (CBL_ERR_OK, snd (cbl_SendToHost msg w)).

Definition cbl_StateError (eCode : cbl_err_code_t) (w : world)
  : cbl_err_code_t * world :=
  match eCode with
  | CBL_ERR_OK => (CBL_ERR_OK, w)
  | CBL_ERR_READ_OF =>
      report (Shell.CRLF ++ chars "ERROR: Command too long" ++ Shell.CRLF) w
  | CBL_ERR_WRITE => (CBL_ERR_OK, w)
  | CBL_ERR_STATE => (CBL_ERR_OK, w)
  | CBL_ERR_HAL_TX => (CBL_ERR_OK, w)
  | CBL_ERR_HAL_RX => (CBL_ERR_OK, w)
  | CBL_ERR_RX_ABORT => (CBL_ERR_OK, w)
  | CBL_ERR_CMD_SHORT => (CBL_ERR_OK, w)
  | CBL_ERR_CMD_UNDEF =>
      report (Shell.CRLF ++ chars "ERROR: Invalid command" ++ Shell.CRLF) w
  | CBL_ERR_NEED_PARAM =>
      report (Shell.CRLF ++ chars "ERROR: Missing parameter(s)"
              ++ Shell.CRLF) w
  | CBL_ERR_JUMP_INV_ADDR =>
      report (Shell.CRLF ++ chars "ERROR: Invalid address" ++ Shell.CRLF
              ++ chars "Jumpable regions: FLASH, SRAM1, SRAM2, CCMRAM, "
              ++ chars "BKPSRAM, SYSMEM and EXTMEM (if connected)"
              ++ Shell.CRLF) w
  | CBL_ERR_SECTOR =>
      report (Shell.CRLF
              ++ chars "ERROR: Internal error while erasing sectors"
              ++ Shell.CRLF) w
  | CBL_ERR_INV_SECT =>
      report (Shell.CRLF ++ chars "ERROR: Wrong sector given"
              ++ Shell.CRLF) w
  | CBL_ERR_INV_SECT_COUNT =>
      report (Shell.CRLF ++ chars "ERROR: Wrong sector count given"
              ++ Shell.CRLF) w
  | CBL_ERR_WRITE_INV_ADDR =>
      report (Shell.CRLF ++ chars "ERROR: Invalid address range entered"
              ++ Shell.CRLF) w
  | CBL_ERR_WRITE_TOO_BIG =>
      report (Shell.CRLF ++ chars "ERROR: Inputed too big value"
              ++ Shell.CRLF) w
  | CBL_ERR_HAL_WRITE =>
      report (Shell.CRLF ++ chars "ERROR: Error while writing to flash"
              ++ Shell.CRLF) w
  | CBL_ERR_ERASE_INV_TYPE =>
      report (Shell.CRLF ++ chars "ERROR: Invalid erase type"
              ++ Shell.CRLF) w
  | CBL_ERR_HAL_ERASE =>
      report (Shell.CRLF ++ chars "ERROR: HAL error while erasing sectors "
              ++ Shell.CRLF) w
  | CBL_ERR_HAL_UNLOCK =>
      report (Shell.CRLF ++ chars "ERROR: Unlocking flash failed"
              ++ Shell.CRLF) w
  | CBL_ERR_INV_PARAM => (CBL_ERR_OK, w)
  | _ => (eCode, w)
  end.

(** One pass of the loop of [cbl_RunShellSystem].  [nextState] equals
    [state] at the head of every pass.  In the exit state the result of the
    transmission is dropped and [eCode] keeps its value. *)
Definition shell_step (state : CBL_sysStates_t) (eCode : cbl_err_code_t)
  (w : world) : shell_result :=
  match state with
  | CBL_STAT_OPER =>
      match cbl_StateOperation w with
      | Returned eCode' w' =>
          if is_err eCode' then Running CBL_STAT_ERR eCode' w'
          else if isExitReq w' then Running CBL_STAT_EXIT eCode' w'
          else Running CBL_STAT_OPER eCode' w'
      | Jumped target w' => Left target w'
      | Blocked => Stuck
      end
  | CBL_STAT_ERR =>
      let (eCode', w') := cbl_StateError eCode w in
      if is_err eCode' then Running CBL_STAT_EXIT eCode' w'
      else Running CBL_STAT_OPER eCode' w'
  | CBL_STAT_EXIT =>
      let w' :=
        snd (cbl_SendToHost
               (chars "Exiting shell :(" ++ Shell.CRLF ++ Shell.CRLF) w) in
      Finished eCode w'
  end.

(** [n] passes of the loop. *)
Fixpoint shell_iter (n : nat) (r : shell_result) : shell_result :=
  match n, r with
  | S n', Running state eCode w => shell_iter n' (shell_step state eCode w)
  | _, _ => r
  end.

(** [cbl_ShellInit]: the welcome text is sent, its status is dropped.  The
    initialisation of DMA and UART is left out. *)
Definition bufWelcome : list ascii :=
  Shell.CRLF
  ++ chars "*********************************************" ++ Shell.CRLF
  ++ chars "Custom bootloader for STM32F4 Discovery board" ++ Shell.CRLF
  ++ chars "*********************************************" ++ Shell.CRLF
  ++ chars "*********************************************" ++ Shell.CRLF
  ++ chars "                     " ++ CBL_VERSION
  ++ chars "                     " ++ Shell.CRLF
  ++ chars "*********************************************" ++ Shell.CRLF
  ++ chars "               Master's thesis               " ++ Shell.CRLF
  ++ chars "                  Dino Saric                 " ++ Shell.CRLF
  ++ chars "            University of Zagreb             " ++ Shell.CRLF
  ++ chars "                     2020                    " ++ Shell.CRLF
  ++ chars "*********************************************" ++ Shell.CRLF
  ++ chars "          If confused type " ++ [ascii_of_nat 34]
  ++ chars "help" ++ [ascii_of_nat 34] ++ chars "          " ++ Shell.CRLF
  ++ chars "*********************************************" ++ Shell.CRLF.

Definition cbl_ShellInit (w : world) : world :=
  snd (cbl_SendToHost bufWelcome w).

(** [cbl_RunShellSystem]: the loop starts in the error state with
    [CBL_ERR_OK]; [n] bounds the number of passes. *)
Definition cbl_RunShellSystem (n : nat) (w : world) : shell_result :=
  shell_iter n (Running CBL_STAT_ERR CBL_ERR_OK (cbl_ShellInit w)).

End LegacySys.

(** *** A concrete configuration *)

(** Modelled from the spec: the texts of the commands, which the header
    defines, are taken from the command names that the spec lists; the
    device constants are those of the STM32F407 (write protection state
    1/0, read protection levels [0xAA] and [0xCC], twelve nWRP bits from
    bit 16, twelve sectors, device identifier [0x413]). *)
Definition demo_cfg : Cfg.t :=
  Cfg.mk 128 10
    (chars "version") (chars "help") (chars "cid") (chars "get-rdp-level")
    (chars "jump-to") (chars "flash-erase") (chars "en-write-prot")
    (chars "dis-write-prot") (chars "mem-read") (chars "get-write-prot")
    (chars "get-otp-bytes") (chars "flash-write") (chars "exit")
    (chars "mask") (chars "start") (chars "count") (chars "ready")
    (chars "OK") (chars "v0.2") (chars "help text")
    1024 1 0 170 204 268369920 16 (IntConst 12)
    f407_flash f407_ccm f407_sram1 f407_sram2 f407_bkpsram f407_sysmem
    268461075 (fun _ _ => chars "413").

(** A HAL in which every call succeeds; the option bytes protect sector 0
    only ([WRPSector = 0xFFE]) at read protection level 0. *)
Definition demo_hal : Hw.t :=
  Hw.mk (fun _ _ => HAL_OK) (fun _ _ => HAL_OK) (fun _ => HAL_OK)
    (fun _ _ => (HAL_OK, 4294967295%Z)) (fun _ => HAL_OK)
    (fun _ => mkOB 4094 170).

(** A host that sends [text] and then stops. *)
Definition host (text : list ascii) : world := mkWorld text [] false.

End LegacySys.

(* ================================================================== *)
(** ** [custom_bootloader.c]: command processing *)

Module Dispatch.
Import CStr CLib Shell.

(** [cmd_t] *)
Inductive cmd_t : Set :=
| CMD_UNDEF
| CMD_VERSION
| CMD_HELP
| CMD_CID
| CMD_GET_RDP_LVL
| CMD_JUMP_TO
| CMD_FLASH_ERASE
| CMD_EN_WRITE_PROT
| CMD_DIS_WRITE_PROT
| CMD_READ_SECT_PROT_STAT
| CMD_MEM_READ
| CMD_FLASH_WRITE
| CMD_EXIT
| CMD_TEMPLATE
| CMD_RESET
| CMD_UPDATE_NEW
| CMD_UPDATE_ACT.

(** The texts that the file itself defines, and those of
    [cbl_cmds_memory.h]. *)
Definition TXT_CMD_VERSION : list ascii := chars "version".
Definition TXT_CMD_HELP : list ascii := chars "help".
Definition TXT_CMD_RESET : list ascii := chars "reset".
Definition TXT_CMD_JUMP_TO : list ascii := chars "jump-to".
Definition TXT_CMD_FLASH_ERASE : list ascii := chars "flash-erase".
Definition TXT_CMD_FLASH_WRITE : list ascii := chars "flash-write".
Definition TXT_CMD_MEM_READ : list ascii := chars "mem-read".

(** How the file is built: which command headers are included (each
    defines its guard macro), and the texts of the headers that are not
    among the sources.  [helpPrintout] is the help text, which is put
    together from these macros. *)
Module Build.
Record t : Type := mk {
  CBL_CMDS_ETC_H : bool;
  CBL_CMDS_OPT_BYTES_H : bool;
  CBL_CMDS_MEMORY_H : bool;
  CBL_CMDS_UPDATE_NEW_H : bool;
  CBL_CMDS_UPDATE_ACT_H : bool;
  CBL_CMDS_TEMPLATE_H : bool;
  TXT_CMD_CID : list ascii;
  TXT_CMD_EXIT : list ascii;
  TXT_CMD_GET_RDP_LVL : list ascii;
  TXT_CMD_EN_WRITE_PROT : list ascii;
  TXT_CMD_DIS_WRITE_PROT : list ascii;
  TXT_CMD_READ_SECT_PROT_STAT : list ascii;
  TXT_CMD_UPDATE_NEW : list ascii;
  TXT_CMD_UPDATE_ACT : list ascii;
  TXT_CMD_TEMPLATE : list ascii;
  TXT_SUCCESS : list ascii;
  CBL_VERSION : list ascii;
  helpPrintout : list ascii
}.
End Build.

(** The functions of the other translation units: the parser, with the
    string at [parser.cmd], and the handlers of the command headers. *)
Module Ext.
Record t (parser_t : Type) : Type := mk {
  parser_run : list ascii -> nat -> cbl_err_code_t * parser_t;
  parser_cmd : parser_t -> list ascii;
  cmd_cid : parser_t -> world -> run (cbl_err_code_t * world);
  cmd_exit : parser_t -> world -> run (cbl_err_code_t * world);
  cmd_get_rdp_lvl : parser_t -> world -> run (cbl_err_code_t * world);
  cmd_change_write_prot :
    parser_t -> bool -> world -> run (cbl_err_code_t * world);
  cmd_get_write_prot : parser_t -> world -> run (cbl_err_code_t * world);
  cmd_jump_to : parser_t -> world -> run (cbl_err_code_t * world);
  cmd_flash_erase : parser_t -> world -> run (cbl_err_code_t * world);
  cmd_mem_read : parser_t -> world -> run (cbl_err_code_t * world);
  cmd_flash_write : parser_t -> world -> run (cbl_err_code_t * world);
  cmd_update_new : parser_t -> world -> run (cbl_err_code_t * world);
  cmd_update_act : parser_t -> world -> run (cbl_err_code_t * world);
  cmd_template : parser_t -> world -> run (cbl_err_code_t * world)
}.
Arguments parser_run {parser_t}.
Arguments parser_cmd {parser_t}.
Arguments cmd_cid {parser_t}.
Arguments cmd_exit {parser_t}.
Arguments cmd_get_rdp_lvl {parser_t}.
Arguments cmd_change_write_prot {parser_t}.
Arguments cmd_get_write_prot {parser_t}.
Arguments cmd_jump_to {parser_t}.
Arguments cmd_flash_erase {parser_t}.
Arguments cmd_mem_read {parser_t}.
Arguments cmd_flash_write {parser_t}.
Arguments cmd_update_new {parser_t}.
Arguments cmd_update_act {parser_t}.
Arguments cmd_template {parser_t}.
End Ext.

Section Dispatch.

Variable b : Build.t.
Variable parser_t : Type.
Variable ext : Ext.t parser_t.
Variable hal_send_to_host_status :
  list ascii -> list hal_call -> cbl_err_code_t.

Local Abbreviation hal_send_to_host :=
  (Shell.hal_send_to_host hal_send_to_host_status).

(** **** The handlers of the file *)

Definition cmd_version (phPrsr : parser_t) (w : world)
  : run (cbl_err_code_t * world) :=
  let verbuf := array_init 12 (Build.CBL_VERSION b) in
  let verbuf := strlcat verbuf CRLF 12 in
  Ret (hal_send_to_host (cstr verbuf 0) w).

Definition cmd_help (phPrsr : parser_t) (w : world)
  : run (cbl_err_code_t * world) :=
  Ret (hal_send_to_host (Build.helpPrintout b) w).

(** The success text is sent, then [hal_system_restart] is called, which
    does not return. *)
Definition cmd_reset (phPrsr : parser_t) (w : world)
  : run (cbl_err_code_t * world) :=
  let w1 := snd (hal_send_to_host (Build.TXT_SUCCESS b) w) in
  NoReturn.

(** **** [enum_cmd] *)

(** [len == strlen(TXT) && strncmp(buf, TXT, strlen(TXT)) == 0] *)
Definition is_cmd (buf : list ascii) (len : nat) (txt : list ascii) : bool :=
  (len =? strlen txt) && (strncmp buf txt (strlen txt) =? 0)%Z.

(** The links of the chain of [enum_cmd], in its order: whether the link is
    compiled in, its text and its code. *)
Definition cmd_chain : list (bool * list ascii * cmd_t) :=
  [(true, TXT_CMD_VERSION, CMD_VERSION);
   (true, TXT_CMD_HELP, CMD_HELP);
   (true, TXT_CMD_RESET, CMD_RESET);
   (Build.CBL_CMDS_ETC_H b, Build.TXT_CMD_CID b, CMD_CID);
   (Build.CBL_CMDS_ETC_H b, Build.TXT_CMD_EXIT b, CMD_EXIT);
   (Build.CBL_CMDS_OPT_BYTES_H b, Build.TXT_CMD_GET_RDP_LVL b,
    CMD_GET_RDP_LVL);
   (Build.CBL_CMDS_OPT_BYTES_H b, Build.TXT_CMD_EN_WRITE_PROT b,
    CMD_EN_WRITE_PROT);
   (Build.CBL_CMDS_OPT_BYTES_H b, Build.TXT_CMD_DIS_WRITE_PROT b,
    CMD_DIS_WRITE_PROT);
   (Build.CBL_CMDS_OPT_BYTES_H b, Build.TXT_CMD_READ_SECT_PROT_STAT b,
    CMD_READ_SECT_PROT_STAT);
   (Build.CBL_CMDS_MEMORY_H b, TXT_CMD_JUMP_TO, CMD_JUMP_TO);
   (Build.CBL_CMDS_MEMORY_H b, TXT_CMD_FLASH_ERASE, CMD_FLASH_ERASE);
   (Build.CBL_CMDS_MEMORY_H b, TXT_CMD_MEM_READ, CMD_MEM_READ);
   (Build.CBL_CMDS_MEMORY_H b, TXT_CMD_FLASH_WRITE, CMD_FLASH_WRITE);
   (Build.CBL_CMDS_UPDATE_NEW_H b, Build.TXT_CMD_UPDATE_NEW b,
    CMD_UPDATE_NEW);
   (Build.CBL_CMDS_UPDATE_ACT_H b, Build.TXT_CMD_UPDATE_ACT b,
    CMD_UPDATE_ACT);
   (Build.CBL_CMDS_TEMPLATE_H b, Build.TXT_CMD_TEMPLATE b, CMD_TEMPLATE)].

(** The texts of the links that are compiled in are string literals, and
    no two of them are equal. *)
Definition chain_ok : Prop :=
  (forall g txt c, In (g, txt, c) cmd_chain -> nul_free txt)
  /\ NoDup (map (fun l => snd (fst l))
              (filter (fun l => fst (fst l)) cmd_chain)).

(** [enum_cmd(buf, len, &cmdCode)]: the error code and the contents of
    [cmdCode] afterwards; [cmdCode0] is what the caller left in it, which
    stays there only when [len] is 0. *)
Definition enum_cmd (buf : list ascii) (len : nat) (cmdCode0 : cmd_t)
  : cbl_err_code_t * cmd_t :=
  let (eCode, cmdCode) :=
    if len =? 0 then (CBL_ERR_CMD_SHORT, cmdCode0)
    else if is_cmd buf len TXT_CMD_VERSION then (CBL_ERR_OK, CMD_VERSION)
    else if is_cmd buf len TXT_CMD_HELP then (CBL_ERR_OK, CMD_HELP)
    else if is_cmd buf len TXT_CMD_RESET then (CBL_ERR_OK, CMD_RESET)
    else if Build.CBL_CMDS_ETC_H b && is_cmd buf len (Build.TXT_CMD_CID b)
    then (CBL_ERR_OK, CMD_CID)
    else if Build.CBL_CMDS_ETC_H b && is_cmd buf len (Build.TXT_CMD_EXIT b)
    then (CBL_ERR_OK, CMD_EXIT)
    else if Build.CBL_CMDS_OPT_BYTES_H b
            && is_cmd buf len (Build.TXT_CMD_GET_RDP_LVL b)
    then (CBL_ERR_OK, CMD_GET_RDP_LVL)
    else if Build.CBL_CMDS_OPT_BYTES_H b
            && is_cmd buf len (Build.TXT_CMD_EN_WRITE_PROT b)
    then (CBL_ERR_OK, CMD_EN_WRITE_PROT)
    else if Build.CBL_CMDS_OPT_BYTES_H b
            && is_cmd buf len (Build.TXT_CMD_DIS_WRITE_PROT b)
    then (CBL_ERR_OK, CMD_DIS_WRITE_PROT)
    else if Build.CBL_CMDS_OPT_BYTES_H b
            && is_cmd buf len (Build.TXT_CMD_READ_SECT_PROT_STAT b)
    then (CBL_ERR_OK, CMD_READ_SECT_PROT_STAT)
    else if Build.CBL_CMDS_MEMORY_H b && is_cmd buf len TXT_CMD_JUMP_TO
    then (CBL_ERR_OK, CMD_JUMP_TO)
    else if Build.CBL_CMDS_MEMORY_H b && is_cmd buf len TXT_CMD_FLASH_ERASE
    then (CBL_ERR_OK, CMD_FLASH_ERASE)
    else if Build.CBL_CMDS_MEMORY_H b && is_cmd buf len TXT_CMD_MEM_READ
    then (CBL_ERR_OK, CMD_MEM_READ)
    else if Build.CBL_CMDS_MEMORY_H b && is_cmd buf len TXT_CMD_FLASH_WRITE
    then (CBL_ERR_OK, CMD_FLASH_WRITE)
    else if Build.CBL_CMDS_UPDATE_NEW_H b
            && is_cmd buf len (Build.TXT_CMD_UPDATE_NEW b)
    then (CBL_ERR_OK, CMD_UPDATE_NEW)
    else if Build.CBL_CMDS_UPDATE_ACT_H b
            && is_cmd buf len (Build.TXT_CMD_UPDATE_ACT b)
    then (CBL_ERR_OK, CMD_UPDATE_ACT)
    else if Build.CBL_CMDS_TEMPLATE_H b
            && is_cmd buf len (Build.TXT_CMD_TEMPLATE b)
    then (CBL_ERR_OK, CMD_TEMPLATE)
    else (CBL_ERR_OK, CMD_UNDEF) in
  match eCode, cmdCode with
  | CBL_ERR_OK, CMD_UNDEF => (CBL_ERR_CMD_UNDEF, cmdCode)
  | _, _ => (eCode, cmdCode)
  end.

(** **** [handle_cmd] *)

(** The [switch]: the handler of a code whose case is compiled in; the
    other codes reach [default]. *)
Definition handler_case (cmdCode : cmd_t)
  : option (parser_t -> world -> run (cbl_err_code_t * world)) :=
  match cmdCode with
  | CMD_VERSION => Some cmd_version
  | CMD_HELP => Some cmd_help
  | CMD_RESET => Some cmd_reset
  | CMD_GET_RDP_LVL =>
      if Build.CBL_CMDS_OPT_BYTES_H b then Some (Ext.cmd_get_rdp_lvl ext)
      else None
  | CMD_EN_WRITE_PROT =>
      if Build.CBL_CMDS_OPT_BYTES_H b
      then Some (fun p => Ext.cmd_change_write_prot ext p true)
      else None
  | CMD_DIS_WRITE_PROT =>
      if Build.CBL_CMDS_OPT_BYTES_H b
      then Some (fun p => Ext.cmd_change_write_prot ext p false)
      else None
  | CMD_READ_SECT_PROT_STAT =>
      if Build.CBL_CMDS_OPT_BYTES_H b then Some (Ext.cmd_get_write_prot ext)
      else None
  | CMD_JUMP_TO =>
      if Build.CBL_CMDS_MEMORY_H b then Some (Ext.cmd_jump_to ext) else None
  | CMD_FLASH_ERASE =>
      if Build.CBL_CMDS_MEMORY_H b then Some (Ext.cmd_flash_erase ext)
      else None
  | CMD_MEM_READ =>
      if Build.CBL_CMDS_MEMORY_H b then Some (Ext.cmd_mem_read ext) else None
  | CMD_FLASH_WRITE =>
      if Build.CBL_CMDS_MEMORY_H b then Some (Ext.cmd_flash_write ext)
      else None
  | CMD_UPDATE_NEW =>
      if Build.CBL_CMDS_UPDATE_NEW_H b then Some (Ext.cmd_update_new ext)
      else None
  | CMD_UPDATE_ACT =>
      if Build.CBL_CMDS_UPDATE_ACT_H b then Some (Ext.cmd_update_act ext)
      else None
  | CMD_CID =>
      if Build.CBL_CMDS_ETC_H b then Some (Ext.cmd_cid ext) else None
  | CMD_EXIT =>
      if Build.CBL_CMDS_ETC_H b then Some (Ext.cmd_exit ext) else None
  | CMD_TEMPLATE =>
      if Build.CBL_CMDS_TEMPLATE_H b then Some (Ext.cmd_template ext)
      else None
  | CMD_UNDEF => None
  end.

Definition handle_cmd (cmdCode : cmd_t) (phPrsr : parser_t) (w : world)
  : run (cbl_err_code_t * world) :=
  let r :=
    match handler_case cmdCode with
    | Some handler => handler phPrsr w
    | None => Ret (CBL_ERR_CMDCD, w)
    end in
  match r with
  | Ret (eCode, w1) =>
      if is_err eCode then Ret (eCode, w1)
      else Ret (hal_send_to_host (Build.TXT_SUCCESS b) w1)
  | NoReturn => NoReturn
  end.

(** **** [CBL_process_cmd] *)

Definition CBL_process_cmd (cmd : list ascii) (len : nat) (w : world)
  : run (cbl_err_code_t * world) :=
  let (eCode, parser) := Ext.parser_run ext cmd len in
  if is_err eCode then Ret (eCode, w)
  else
    let (eCode, cmdCode) :=
      enum_cmd (Ext.parser_cmd ext parser)
        (strlen (Ext.parser_cmd ext parser)) CMD_UNDEF in
    if is_err eCode then Ret (eCode, w)
    else handle_cmd cmdCode parser w.

End Dispatch.

(** *** A concrete build *)

(** Every command header is included; the texts of the headers that are
    not among the sources are modelled from the spec's list of commands. *)
Definition full_build : Build.t :=
  Build.mk true true true true true true
    (chars "cid") (chars "exit") (chars "get-rdp-level")
    (chars "en-write-prot") (chars "dis-write-prot")
    (chars "read-sect-prot-stat") (chars "update-new") (chars "update-act")
    (chars "template") (chars "OK") (chars "v1.0") (chars "help text").

(** Only the commands of the file itself are compiled in. *)
Definition bare_build : Build.t :=
  Build.mk false false false false false false
    (chars "cid") (chars "exit") (chars "get-rdp-level")
    (chars "en-write-prot") (chars "dis-write-prot")
    (chars "read-sect-prot-stat") (chars "update-new") (chars "update-act")
    (chars "template") (chars "OK") (chars "v1.0") (chars "help text").

(** A parser that takes the whole line for the command string, and
    handlers of the other files that do nothing and succeed. *)
Definition line_ext : Ext.t (list ascii) :=
  Ext.mk (list ascii)
    (fun cmd _ => (CBL_ERR_OK, until_nul cmd)) (fun p => p)
    (fun _ w => Ret (CBL_ERR_OK, w)) (fun _ w => Ret (CBL_ERR_OK, w))
    (fun _ w => Ret (CBL_ERR_OK, w)) (fun _ _ w => Ret (CBL_ERR_OK, w))
    (fun _ w => Ret (CBL_ERR_OK, w)) (fun _ w => Ret (CBL_ERR_OK, w))
    (fun _ w => Ret (CBL_ERR_OK, w)) (fun _ w => Ret (CBL_ERR_OK, w))
    (fun _ w => Ret (CBL_ERR_OK, w)) (fun _ w => Ret (CBL_ERR_OK, w))
    (fun _ w => Ret (CBL_ERR_OK, w)) (fun _ w => Ret (CBL_ERR_OK, w)).

End Dispatch.

(* ================================================================== *)
(** * Properties *)

Lemma is_err_false (e : cbl_err_code_t) : is_err e = false <-> e = CBL_ERR_OK.
Proof. destruct e; simpl; split; congruence. Qed.

Lemma is_err_true (e : cbl_err_code_t) : is_err e = true <-> e <> CBL_ERR_OK.
Proof. destruct e; simpl; split; congruence. Qed.


(** ** Facts on C strings *)

Module CStrFacts.
Import CStr.

Lemma until_nul_idem (mem : list ascii) :
  until_nul (until_nul mem) = until_nul mem.
Proof.
  induction mem as [|c t IH]; simpl; [reflexivity|].
  destruct (Ascii.eqb c NUL) eqn:E; simpl; [reflexivity|].
  now rewrite E, IH.
Qed.

Lemma nul_free_cstr (buf : list ascii) (off : nat) : nul_free (cstr buf off).
Proof. apply until_nul_idem. Qed.

Lemma nat_of_ascii_diff (a b : ascii) :
  Ascii.eqb a b = false ->
  (Z.of_nat (nat_of_ascii a) - Z.of_nat (nat_of_ascii b))%Z <> 0%Z.
Proof.
  intros E H.
  assert (nat_of_ascii a = nat_of_ascii b) as Hn by lia.
  apply (f_equal ascii_of_nat) in Hn.
  rewrite !ascii_nat_embedding in Hn.
  apply Ascii.eqb_neq in E. contradiction.
Qed.

(** With [n] the length of the string at [mem] and a key of the same
    length, [strncmp] is zero exactly when the two strings are equal. *)
Lemma strncmp_zero_iff (mem key : list ascii) :
  nul_free key ->
  List.length key = strlen mem ->
  (strncmp mem key (strlen mem) = 0%Z <-> until_nul mem = key).
Proof.
  unfold strlen, nul_free.
  revert key. induction mem as [|c t IH]; intros key Hk Hl.
  - simpl in *. destruct key; [tauto | discriminate].
  - simpl in *. destruct (Ascii.eqb c NUL) eqn:Ec.
    + simpl in *. destruct key; [tauto | discriminate].
    + destruct key as [|k key']; [discriminate|].
      simpl in Hl. injection Hl as Hl.
      simpl in Hk. destruct (Ascii.eqb k NUL) eqn:Ek; [discriminate|].
      injection Hk as Hk.
      simpl. destruct (Ascii.eqb c k) eqn:Eck.
      * rewrite Ec. apply Ascii.eqb_eq in Eck. subst k.
        rewrite (IH key' Hk Hl).
        split; intros H; [now f_equal | now injection H].
      * split; intros H.
        -- exfalso. revert H. now apply nat_of_ascii_diff.
        -- injection H as H _. subst k. now rewrite Ascii.eqb_refl in Eck.
Qed.

Lemma uint8_range (z : Z) : (0 <= uint8 z < 256)%Z.
Proof.
  unfold uint8. change (2 ^ 8)%Z with 256%Z. apply Z.mod_pos_bound. lia.
Qed.


End CStrFacts.

(* ================================================================== *)
(** ** The parser, the lookup and the handlers of [CustomBootloader.c] *)

Module LegacyFacts.
Import CStr CStrFacts Legacy.

(** The test of [cbl_ParserGetArgVal] on one argument, with
    [lenName = strlen(name)], is equality of the two strings. *)
Lemma arg_test_iff (buf : list ascii) (pName : nat) (key : list ascii) :
  nul_free key ->
  ((strlen (skipn pName buf) =? List.length key)
   && (strncmp (skipn pName buf) key (strlen (skipn pName buf)) =? 0)%Z = true
   <-> cstr buf pName = key).
Proof.
  intros Hk. rewrite andb_true_iff, Nat.eqb_eq, Z.eqb_eq. unfold cstr. split.
  - intros [Hl Hc]. now apply strncmp_zero_iff in Hc.
  - intros H. assert (List.length key = strlen (skipn pName buf)) as Hl
      by (unfold strlen; now rewrite H).
    split; [now symmetry|]. now apply strncmp_zero_iff.
Qed.

Lemma get_arg_from_none (buf key : list ascii) (l : list (nat * nat)) :
  nul_free key ->
  (forall i nm v, nth_error l i = Some (nm, v) -> cstr buf nm <> key) ->
  get_arg_from buf l key (List.length key) = None.
Proof.
  intros Hk. induction l as [|[nm v] rest IH]; intros H; simpl; [reflexivity|].
  destruct (_ && _) eqn:E.
  - apply arg_test_iff in E; [|assumption]. exfalso.
    exact (H 0 nm v eq_refl E).
  - apply IH. intros i nm' v' Hi. exact (H (S i) nm' v' Hi).
Qed.

Lemma get_arg_from_first (buf key : list ascii) (l : list (nat * nat)) :
  nul_free key ->
  forall i nm v,
    nth_error l i = Some (nm, v) ->
    cstr buf nm = key ->
    (forall j nm' v', j < i -> nth_error l j = Some (nm', v') ->
                      cstr buf nm' <> key) ->
    get_arg_from buf l key (List.length key) = Some v.
Proof.
  intros Hk. induction l as [|[nm0 v0] rest IH]; intros i nm v Hi Hm Hfirst.
  - destruct i; discriminate.
  - simpl. destruct i as [|i].
    + injection Hi as -> ->.
      apply (arg_test_iff buf nm key Hk) in Hm. now rewrite Hm.
    + destruct (_ && _) eqn:E.
      * apply arg_test_iff in E; [|assumption]. exfalso.
        apply (Hfirst 0 nm0 v0); [lia | reflexivity | assumption].
      * apply (IH i nm v Hi Hm). intros j nm' v' Hj Hnth.
        apply (Hfirst (S j) nm' v'); [lia | assumption].
Qed.

(** C9.  For every parser state, looking up a key that equals the name of
    no recorded argument returns [NULL], and looking up a key that equals the
    name of some recorded argument returns the value pointer of the first
    such argument: with duplicate keys the first occurrence wins. *)
Theorem C9_lookup_first_match (p : CBL_Parser_t) (key : list ascii) :
  nul_free key ->
  ((forall i nm v, nth_error (args p) i = Some (nm, v) ->
                   cstr (cmd p) nm <> key) ->
   cbl_ParserGetArgVal p key (strlen key) = None)
  /\
  (forall i nm v,
      nth_error (args p) i = Some (nm, v) ->
      cstr (cmd p) nm = key ->
      (forall j nm' v', j < i -> nth_error (args p) j = Some (nm', v') ->
                        cstr (cmd p) nm' <> key) ->
      cbl_ParserGetArgVal p key (strlen key) = Some v).
Proof.
  intros Hk. unfold cbl_ParserGetArgVal, strlen. rewrite Hk. split.
  - now apply get_arg_from_none.
  - now apply get_arg_from_first.
Qed.

(** On the line [cmd a=1 b=2 a=3] the key [a] yields the value at offset 6,
    which is [1], and the key [zz] yields [NULL]. *)
Lemma C9_lookup_first_match_witness :
  cbl_ParserGetArgVal (parsed "cmd a=1 b=2 a=3") (chars "a") 1 = Some 6
  /\ cstr (cmd (parsed "cmd a=1 b=2 a=3")) 6 = chars "1"
  /\ cbl_ParserGetArgVal (parsed "cmd a=1 b=2 a=3") (chars "zz") 2 = None.
Proof.
  split; [|split].
  - apply (proj2 (C9_lookup_first_match (parsed "cmd a=1 b=2 a=3")
                    (chars "a") eq_refl) 0 4 6).
    + reflexivity.
    + reflexivity.
    + intros j nm' v' Hj. inversion Hj.
  - reflexivity.
  - apply (proj1 (C9_lookup_first_match (parsed "cmd a=1 b=2 a=3")
                    (chars "zz") eq_refl)).
    intros i nm v Hi.
    destruct i as [|[|[|i]]]; simpl in Hi.
    + injection Hi as <- <-. discriminate.
    + injection Hi as <- <-. discriminate.
    + injection Hi as <- <-. discriminate.
    + destruct i; discriminate.
Defined.

(** C6.  On the line [cmd a b=1] the token [a] holds no [=], yet scanning
    goes on: the search for [=] runs to the end of the line, and one argument
    is recorded whose name is [a b] and whose value is [1]. *)
Theorem C6_scan_continues_after_bare_token :
  let p := snd (cbl_ParseCmd 10 (chars "cmd a b=1") 9) in
  fst (cbl_ParseCmd 10 (chars "cmd a b=1") 9) = CBL_ERR_OK
  /\ numOfArgs p = 1
  /\ arg_name p 0 = Some (chars "a b")
  /\ arg_val p 0 = Some (chars "1").
Proof. vm_compute. repeat split; reflexivity. Qed.

Section HandlerFacts.

Variables IS_FLASH_ADDRESS IS_CCMDATARAM_ADDRESS IS_SRAM1_ADDRESS
  IS_SRAM2_ADDRESS IS_BKPSRAM_ADDRESS IS_SYSMEM_ADDRESS : Z -> bool.
Variable FLASH_SECTOR_TOTAL : c_const.
Variable CBL_TXT_SUCCESS : list ascii.
Variable HAL_UART_Transmit : list ascii -> hal_log -> HAL_StatusTypeDef.
Variable HAL_FLASH_Unlock : hal_log -> HAL_StatusTypeDef.
Variable HAL_FLASHEx_Erase :
  FLASH_EraseInitTypeDef -> hal_log -> HAL_StatusTypeDef * Z.

Local Abbreviation cbl_VerifyJumpAddress' :=
  (cbl_VerifyJumpAddress IS_FLASH_ADDRESS IS_CCMDATARAM_ADDRESS
     IS_SRAM1_ADDRESS IS_SRAM2_ADDRESS IS_BKPSRAM_ADDRESS IS_SYSMEM_ADDRESS).
Local Abbreviation cbl_HandleCmdJumpTo' :=
  (cbl_HandleCmdJumpTo IS_FLASH_ADDRESS IS_CCMDATARAM_ADDRESS
     IS_SRAM1_ADDRESS IS_SRAM2_ADDRESS IS_BKPSRAM_ADDRESS IS_SYSMEM_ADDRESS
     CBL_TXT_SUCCESS HAL_UART_Transmit).
Local Abbreviation erase_settings' := (erase_settings FLASH_SECTOR_TOTAL).
Local Abbreviation cbl_HandleCmdFlashErase' :=
  (cbl_HandleCmdFlashErase FLASH_SECTOR_TOTAL CBL_TXT_SUCCESS
     HAL_UART_Transmit HAL_FLASH_Unlock HAL_FLASHEx_Erase).
Local Abbreviation lookup p key := (cbl_ParserGetArgVal p key (strlen key)).

(** C8.  The validation returns [CBL_ERR_OK] or [CBL_ERR_JUMP_INV_ADDR] for
    every address and never both; it returns [CBL_ERR_OK] exactly for the
    addresses of a jumpable region, so an address that lies in none of flash,
    CCM RAM, SRAM1, SRAM2, backup SRAM and system memory is rejected. *)
Theorem C8_verify_jump_address_total (addr : Z) :
  let eCode :=
    cbl_VerifyJumpAddress IS_FLASH_ADDRESS IS_CCMDATARAM_ADDRESS
      IS_SRAM1_ADDRESS IS_SRAM2_ADDRESS IS_BKPSRAM_ADDRESS
      IS_SYSMEM_ADDRESS addr in
  (eCode = CBL_ERR_OK \/ eCode = CBL_ERR_JUMP_INV_ADDR)
  /\ ~ (eCode = CBL_ERR_OK /\ eCode = CBL_ERR_JUMP_INV_ADDR)
  /\ (IS_FLASH_ADDRESS addr = false ->
      IS_CCMDATARAM_ADDRESS addr = false ->
      IS_SRAM1_ADDRESS addr = false ->
      IS_SRAM2_ADDRESS addr = false ->
      IS_BKPSRAM_ADDRESS addr = false ->
      IS_SYSMEM_ADDRESS addr = false ->
      eCode = CBL_ERR_JUMP_INV_ADDR)
  /\ (eCode = CBL_ERR_OK ->
      IS_FLASH_ADDRESS addr = true \/ IS_CCMDATARAM_ADDRESS addr = true
      \/ IS_SRAM1_ADDRESS addr = true \/ IS_SRAM2_ADDRESS addr = true
      \/ IS_BKPSRAM_ADDRESS addr = true \/ IS_SYSMEM_ADDRESS addr = true).
Proof using Type.
  unfold cbl_VerifyJumpAddress.
  destruct (IS_FLASH_ADDRESS addr), (IS_CCMDATARAM_ADDRESS addr),
    (IS_SRAM1_ADDRESS addr), (IS_SRAM2_ADDRESS addr),
    (IS_BKPSRAM_ADDRESS addr), (IS_SYSMEM_ADDRESS addr); simpl;
    (split; [auto
            |split; [intros [H1 H2]; discriminate
                    |split; [intros; (reflexivity || discriminate)
                            |intros H; (discriminate H || auto 10)]]]).
Qed.

Lemma send_log (buf : list ascii) (w : hal_log) :
  snd (cbl_SendToHost HAL_UART_Transmit buf w) = w ++ [UART_Transmit buf].
Proof. unfold cbl_SendToHost. now destruct (HAL_UART_Transmit buf w). Qed.

Lemma send_ok (buf : list ascii) (w : hal_log) :
  HAL_UART_Transmit buf w = HAL_OK ->
  cbl_SendToHost HAL_UART_Transmit buf w
  = (CBL_ERR_OK, w ++ [UART_Transmit buf]).
Proof. unfold cbl_SendToHost. now intros ->. Qed.

Lemma verify_cases (addr : Z) :
  cbl_VerifyJumpAddress' addr = CBL_ERR_OK
  \/ cbl_VerifyJumpAddress' addr = CBL_ERR_JUMP_INV_ADDR.
Proof. unfold cbl_VerifyJumpAddress. destruct (_ || _); auto. Qed.

(** C2.  The handler transfers control only to an address that the
    validation accepted, and the target is that address plus one (as a
    32-bit value); when the validation rejects the parsed address the
    handler returns [CBL_ERR_JUMP_INV_ADDR] without any call to the hardware
    and without jumping; and when the validation accepts and the success
    text is sent, the jump to the address plus one is performed. *)
Theorem C2_jump_only_after_validation (p : CBL_Parser_t) (w : hal_log) :
  (forall target w',
      cbl_HandleCmdJumpTo' p w = Jumped target w' ->
      exists charAddr,
        lookup p CBL_TXTCMD_JUMP_TO_ADDR = Some charAddr
        /\ cbl_VerifyJumpAddress' (jump_addr p charAddr) = CBL_ERR_OK
        /\ target = uint32 (jump_addr p charAddr + 1)
        /\ (jump_addr p charAddr <> ULONG_MAX ->
            target = (jump_addr p charAddr + 1)%Z))
  /\ (forall charAddr,
         lookup p CBL_TXTCMD_JUMP_TO_ADDR = Some charAddr ->
         cbl_VerifyJumpAddress' (jump_addr p charAddr)
         = CBL_ERR_JUMP_INV_ADDR ->
         cbl_HandleCmdJumpTo' p w = Returned CBL_ERR_JUMP_INV_ADDR w)
  /\ (forall charAddr,
         lookup p CBL_TXTCMD_JUMP_TO_ADDR = Some charAddr ->
         cbl_VerifyJumpAddress' (jump_addr p charAddr) = CBL_ERR_OK ->
         HAL_UART_Transmit CBL_TXT_SUCCESS w = HAL_OK ->
         cbl_HandleCmdJumpTo' p w = Jumped (uint32 (jump_addr p charAddr + 1))
                         (w ++ [UART_Transmit CBL_TXT_SUCCESS])).
Proof.
  unfold cbl_HandleCmdJumpTo. split; [|split].
  - intros target w' H.
    destruct (lookup p CBL_TXTCMD_JUMP_TO_ADDR) as [charAddr|]; [|discriminate].
    exists charAddr. split; [reflexivity|].
    destruct (verify_cases (jump_addr p charAddr)) as [Hv|Hv];
      rewrite Hv in H; simpl in H; [|discriminate].
    destruct (cbl_SendToHost HAL_UART_Transmit CBL_TXT_SUCCESS w) as [e w1].
    destruct (is_err e); [discriminate|]. injection H as <- _.
    repeat split; [assumption|].
    intros Hmax. unfold uint32. apply Z.mod_small.
    assert (0 <= jump_addr p charAddr < 2 ^ 32)%Z as Hr
      by (unfold jump_addr, uint32; apply Z.mod_pos_bound; lia).
    unfold ULONG_MAX in Hmax. lia.
  - intros charAddr -> ->. reflexivity.
  - intros charAddr -> -> Hs. simpl. now rewrite (send_ok _ _ Hs).
Qed.

(** *** Flash erase *)

Lemma sector_arg_range (p : CBL_Parser_t) (ptr : nat) :
  (0 <= sector_arg p ptr < 256)%Z.
Proof. apply uint8_range. Qed.

(** A mathematical [a >= c] implies the C comparison, whatever the type of
    the constant, for every [a] that fits 32 bits. *)
Lemma c_ge_of_le (a : Z) (c : c_const) :
  (a < 2 ^ 32)%Z -> (c_val c <= a)%Z -> c_ge a c = true.
Proof.
  intros Ha Hle. destruct c as [v|v]; simpl in *; apply Z.leb_le; [lia|].
  unfold uint32. destruct (Z.neg_nonneg_cases a) as [Hn|Hn].
  - pose proof (Z.mod_pos_bound a (2 ^ 32) ltac:(lia)). lia.
  - rewrite Z.mod_small; lia.
Qed.

(** For a non-negative [a] the C comparison is the mathematical one. *)
Lemma c_ge_nonneg (a : Z) (c : c_const) :
  (0 <= a < 2 ^ 32)%Z -> c_ge a c = (c_val c <=? a)%Z.
Proof.
  intros Ha. destruct c as [v|v]; simpl; [reflexivity|].
  unfold uint32. now rewrite Z.mod_small.
Qed.

Lemma erase_invalid_sector (p : CBL_Parser_t) (w : hal_log)
  (type charSect : nat) :
  lookup p CBL_TXTCMD_FLASH_ERASE_TYPE = Some type ->
  is_type p type CBL_TXTCMD_FLASH_ERASE_TYPE_SECT = true ->
  lookup p CBL_TXTCMD_FLASH_ERASE_SECT = Some charSect ->
  (c_val FLASH_SECTOR_TOTAL <= sector_arg p charSect)%Z ->
  cbl_HandleCmdFlashErase' p w = (CBL_ERR_INV_SECT, w).
Proof.
  intros Ht Hs Hl Hge. unfold cbl_HandleCmdFlashErase, erase_settings.
  rewrite Ht, Hs, Hl, c_ge_of_le; [reflexivity| |assumption].
  pose proof (sector_arg_range p charSect). lia.
Qed.

Lemma erase_invalid_count (p : CBL_Parser_t) (w : hal_log)
  (type charSect charCount : nat) :
  lookup p CBL_TXTCMD_FLASH_ERASE_TYPE = Some type ->
  is_type p type CBL_TXTCMD_FLASH_ERASE_TYPE_SECT = true ->
  lookup p CBL_TXTCMD_FLASH_ERASE_SECT = Some charSect ->
  lookup p CBL_TXTCMD_FLASH_ERASE_COUNT = Some charCount ->
  (sector_arg p charSect < c_val FLASH_SECTOR_TOTAL)%Z ->
  (c_val FLASH_SECTOR_TOTAL
   <= sector_arg p charSect + sector_arg p charCount - 1)%Z ->
  cbl_HandleCmdFlashErase' p w = (CBL_ERR_INV_SECT_COUNT, w).
Proof.
  intros Ht Hs Hl Hc Hlt Hge. unfold cbl_HandleCmdFlashErase, erase_settings.
  pose proof (sector_arg_range p charSect).
  pose proof (sector_arg_range p charCount).
  rewrite Ht, Hs, Hl, Hc.
  rewrite (c_ge_nonneg (sector_arg p charSect)) by lia.
  replace (c_val FLASH_SECTOR_TOTAL <=? sector_arg p charSect)%Z with false
    by (symmetry; apply Z.leb_gt; lia).
  rewrite c_ge_of_le; [reflexivity|lia|assumption].
Qed.

(** Membership of a call in a log that is built by appending. *)
Ltac in_log := rewrite ?send_log, ?in_app_iff; simpl; auto 10.

Lemma erase_flash_unlocks (s : FLASH_EraseInitTypeDef) (w : hal_log) :
  In FLASH_Unlock
    (snd (erase_flash CBL_TXT_SUCCESS HAL_UART_Transmit HAL_FLASH_Unlock
            HAL_FLASHEx_Erase s w)).
Proof.
  unfold erase_flash.
  destruct (HAL_FLASH_Unlock w); simpl; try in_log.
  destruct (HAL_FLASHEx_Erase s (w ++ [FLASH_Unlock])) as [c sc].
  destruct c; simpl; try in_log.
  destruct (sc =? 4294967295)%Z; simpl; in_log.
Qed.

Lemma erase_flash_erases (s : FLASH_EraseInitTypeDef) (w : hal_log) :
  HAL_FLASH_Unlock w = HAL_OK ->
  In (FLASHEx_Erase s)
    (snd (erase_flash CBL_TXT_SUCCESS HAL_UART_Transmit HAL_FLASH_Unlock
            HAL_FLASHEx_Erase s w)).
Proof.
  unfold erase_flash. intros ->.
  destruct (HAL_FLASHEx_Erase s (w ++ [FLASH_Unlock])) as [c sc].
  destruct c; simpl; try in_log.
  destruct (sc =? 4294967295)%Z; simpl; in_log.
Qed.

Lemma erase_flash_code (s : FLASH_EraseInitTypeDef) (w : hal_log) :
  let e := fst (erase_flash CBL_TXT_SUCCESS HAL_UART_Transmit
                  HAL_FLASH_Unlock HAL_FLASHEx_Erase s w) in
  e <> CBL_ERR_INV_SECT /\ e <> CBL_ERR_INV_SECT_COUNT.
Proof.
  unfold erase_flash.
  destruct (HAL_FLASH_Unlock w); simpl; try (split; discriminate).
  destruct (HAL_FLASHEx_Erase s (w ++ [FLASH_Unlock])) as [c sc].
  destruct c; simpl; try (split; discriminate).
  destruct (sc =? 4294967295)%Z; simpl; try (split; discriminate).
  unfold cbl_SendToHost. destruct (HAL_UART_Transmit _ _); simpl;
    split; discriminate.
Qed.

(** The handler's [sect] and [count] are the numbers of the request
    modulo 256, hence the numbers themselves when these are below 256. *)
Lemma sector_arg_requested (p : CBL_Parser_t) (ptr : nat) :
  sector_arg p ptr = (requested_number p ptr mod 256)%Z.
Proof. reflexivity. Qed.

Lemma digits_value_nonneg (s : list ascii) (base : Z) :
  (0 <= base)%Z ->
  forall acc, (0 <= acc)%Z -> (0 <= digits_value s base acc)%Z.
Proof.
  intros Hb. induction s as [|c t IH]; intros acc Ha; simpl; [assumption|].
  destruct (digit_val c) as [d|] eqn:Ed; [|assumption].
  destruct (d <? base)%Z; [|assumption]. apply IH.
  assert (0 <= d)%Z; [|nia].
  unfold digit_val in Ed.
  repeat match type of Ed with
         | (if ?c then _ else _) = _ => destruct c
         end;
    inversion Ed; lia.
Qed.

Lemma strtoul_nonneg (s : list ascii) (base : Z) :
  (0 <= base)%Z -> (0 <= strtoul s base)%Z.
Proof.
  intros Hb. unfold strtoul. destruct (strip_sign (skip_spaces s)) as [neg s1].
  set (v := digits_value _ base 0).
  assert (0 <= v)%Z by (apply digits_value_nonneg; lia).
  destruct (ULONG_MAX <? v)%Z; [unfold ULONG_MAX; lia|].
  destruct neg; [|assumption].
  apply Z.mod_pos_bound. lia.
Qed.

Lemma sector_arg_fits (p : CBL_Parser_t) (ptr : nat) :
  (requested_number p ptr < 256)%Z ->
  sector_arg p ptr = requested_number p ptr.
Proof.
  intros H. rewrite sector_arg_requested. apply Z.mod_small. split; [|lia].
  apply strtoul_nonneg. lia.
Qed.

(** X27.  The two range checks of the sector erase are made on the values
    of the handler's [uint8_t] variables, that is on the numbers of the
    request reduced modulo 256.  A sector erase whose first sector, so
    reduced, is not below [FLASH_SECTOR_TOTAL] returns [CBL_ERR_INV_SECT];
    one whose first sector is below it and whose last sector
    [sect + count - 1] is not returns [CBL_ERR_INV_SECT_COUNT]; in both
    cases no call to the hardware has been made.  For numbers below 256 the
    reduction changes nothing and the checks are those on the numbers of
    the request.  With 12 sectors, [sector=2 count=3] passes the checks and
    goes on to unlock the flash, and [sector=10 count=5] returns
    [CBL_ERR_INV_SECT_COUNT]. *)
Theorem X27_sector_range_checks_see_eight_bits :
  (forall p w type charSect,
      lookup p CBL_TXTCMD_FLASH_ERASE_TYPE = Some type ->
      is_type p type CBL_TXTCMD_FLASH_ERASE_TYPE_SECT = true ->
      lookup p CBL_TXTCMD_FLASH_ERASE_SECT = Some charSect ->
      (requested_number p charSect mod 256
       >= c_val FLASH_SECTOR_TOTAL)%Z ->
      cbl_HandleCmdFlashErase' p w = (CBL_ERR_INV_SECT, w))
  /\ (forall p w type charSect charCount,
         lookup p CBL_TXTCMD_FLASH_ERASE_TYPE = Some type ->
         is_type p type CBL_TXTCMD_FLASH_ERASE_TYPE_SECT = true ->
         lookup p CBL_TXTCMD_FLASH_ERASE_SECT = Some charSect ->
         lookup p CBL_TXTCMD_FLASH_ERASE_COUNT = Some charCount ->
         (requested_number p charSect mod 256
          < c_val FLASH_SECTOR_TOTAL)%Z ->
         (requested_number p charSect mod 256
          + requested_number p charCount mod 256 - 1
          >= c_val FLASH_SECTOR_TOTAL)%Z ->
         cbl_HandleCmdFlashErase' p w = (CBL_ERR_INV_SECT_COUNT, w))
  /\ (forall p w type charSect,
         lookup p CBL_TXTCMD_FLASH_ERASE_TYPE = Some type ->
         is_type p type CBL_TXTCMD_FLASH_ERASE_TYPE_SECT = true ->
         lookup p CBL_TXTCMD_FLASH_ERASE_SECT = Some charSect ->
         (requested_number p charSect < 256)%Z ->
         (requested_number p charSect >= c_val FLASH_SECTOR_TOTAL)%Z ->
         cbl_HandleCmdFlashErase' p w = (CBL_ERR_INV_SECT, w))
  /\ (forall p w type charSect charCount,
         lookup p CBL_TXTCMD_FLASH_ERASE_TYPE = Some type ->
         is_type p type CBL_TXTCMD_FLASH_ERASE_TYPE_SECT = true ->
         lookup p CBL_TXTCMD_FLASH_ERASE_SECT = Some charSect ->
         lookup p CBL_TXTCMD_FLASH_ERASE_COUNT = Some charCount ->
         (requested_number p charSect < 256)%Z ->
         (requested_number p charCount < 256)%Z ->
         (requested_number p charSect < c_val FLASH_SECTOR_TOTAL)%Z ->
         (requested_number p charSect + requested_number p charCount - 1
          >= c_val FLASH_SECTOR_TOTAL)%Z ->
         cbl_HandleCmdFlashErase' p w = (CBL_ERR_INV_SECT_COUNT, w))
  /\ (c_val FLASH_SECTOR_TOTAL = 12%Z ->
      forall w,
        erase_settings' (parsed "flash-erase type=sector sector=2 count=3")
        = inr (TYPEERASE_SECTORS 2 3)
        /\ In FLASH_Unlock
             (snd (cbl_HandleCmdFlashErase'
                     (parsed "flash-erase type=sector sector=2 count=3") w))
        /\ cbl_HandleCmdFlashErase'
             (parsed "flash-erase type=sector sector=10 count=5") w
           = (CBL_ERR_INV_SECT_COUNT, w)).
Proof.
  split; [|split; [|split; [|split]]].
  - intros p w type charSect Ht Hs Hl Hge.
    rewrite <- sector_arg_requested in Hge.
    apply (erase_invalid_sector p w type charSect); try assumption. lia.
  - intros p w type charSect charCount Ht Hs Hl Hc Hlt Hge.
    rewrite <- (sector_arg_requested p charSect) in Hlt, Hge.
    rewrite <- (sector_arg_requested p charCount) in Hge.
    apply (erase_invalid_count p w type charSect charCount); try assumption.
    lia.
  - intros p w type charSect Ht Hs Hl Hfit Hge.
    rewrite <- (sector_arg_fits p charSect Hfit) in Hge.
    apply (erase_invalid_sector p w type charSect); try assumption. lia.
  - intros p w type charSect charCount Ht Hs Hl Hc Hfs Hfc Hlt Hge.
    rewrite <- (sector_arg_fits p charSect Hfs) in Hlt, Hge.
    rewrite <- (sector_arg_fits p charCount Hfc) in Hge.
    apply (erase_invalid_count p w type charSect charCount); try assumption.
    lia.
  - intros H12 w.
    assert (erase_settings' (parsed "flash-erase type=sector sector=2 count=3")
            = inr (TYPEERASE_SECTORS 2 3)) as E2
      by (destruct FLASH_SECTOR_TOTAL as [v|v]; simpl in H12; subst v;
          vm_compute; reflexivity).
    split; [exact E2|split].
    + unfold cbl_HandleCmdFlashErase. rewrite E2. apply erase_flash_unlocks.
    + apply (erase_invalid_count _ w 17 31 40);
        try (vm_compute; reflexivity); rewrite H12; vm_compute; congruence.
Qed.

(** C10, amended.  A sector erase with a count of 0 and a first sector
    below [FLASH_SECTOR_TOTAL] passes the first check; what the second
    check [sect + count - 1 >= FLASH_SECTOR_TOTAL] does depends on the type
    of the constant.  From sector 1 on, and for sector 0 too when the
    constant has type [int] (the comparison is then the false
    [-1 >= FLASH_SECTOR_TOTAL]), the handler goes on to unlock the flash
    and, when the unlock succeeds, calls the erase with [NbSectors = 0]; it
    returns neither [CBL_ERR_INV_SECT] nor [CBL_ERR_INV_SECT_COUNT].  For
    sector 0 and a constant of type [unsigned int] the left side [-1] is
    converted to [4294967295] and the request is rejected with
    [CBL_ERR_INV_SECT_COUNT] before any call to the hardware. *)
Theorem C10_zero_count_reaches_erase
  (p : CBL_Parser_t) (w : hal_log) (type charSect charCount : nat) :
  lookup p CBL_TXTCMD_FLASH_ERASE_TYPE = Some type ->
  is_type p type CBL_TXTCMD_FLASH_ERASE_TYPE_SECT = true ->
  lookup p CBL_TXTCMD_FLASH_ERASE_SECT = Some charSect ->
  lookup p CBL_TXTCMD_FLASH_ERASE_COUNT = Some charCount ->
  sector_arg p charCount = 0%Z ->
  (sector_arg p charSect < c_val FLASH_SECTOR_TOTAL <= 4294967295)%Z ->
  if c_unsigned FLASH_SECTOR_TOTAL && (sector_arg p charSect =? 0)%Z
  then cbl_HandleCmdFlashErase' p w = (CBL_ERR_INV_SECT_COUNT, w)
  else
    erase_settings' p = inr (TYPEERASE_SECTORS (sector_arg p charSect) 0)
    /\ In FLASH_Unlock (snd (cbl_HandleCmdFlashErase' p w))
    /\ (HAL_FLASH_Unlock w = HAL_OK ->
        In (FLASHEx_Erase (TYPEERASE_SECTORS (sector_arg p charSect) 0))
          (snd (cbl_HandleCmdFlashErase' p w)))
    /\ fst (cbl_HandleCmdFlashErase' p w) <> CBL_ERR_INV_SECT
    /\ fst (cbl_HandleCmdFlashErase' p w) <> CBL_ERR_INV_SECT_COUNT.
Proof.
  intros Ht Hs Hl Hc H0 Hlt.
  pose proof (sector_arg_range p charSect) as Hr.
  assert (erase_settings' p
          = if c_unsigned FLASH_SECTOR_TOTAL
               && (sector_arg p charSect =? 0)%Z
            then inl CBL_ERR_INV_SECT_COUNT
            else inr (TYPEERASE_SECTORS (sector_arg p charSect) 0)) as E.
  { unfold erase_settings. rewrite Ht, Hs, Hl, Hc, H0.
    rewrite (c_ge_nonneg (sector_arg p charSect)) by lia.
    replace (c_val FLASH_SECTOR_TOTAL <=? sector_arg p charSect)%Z
      with false by (symmetry; apply Z.leb_gt; lia).
    destruct FLASH_SECTOR_TOTAL as [v|v]; simpl in *.
    - replace (v <=? sector_arg p charSect + 0 - 1)%Z with false
        by (symmetry; apply Z.leb_gt; lia).
      reflexivity.
    - destruct (Z.eqb_spec (sector_arg p charSect) 0) as [E0|E0].
      + rewrite E0. change (uint32 (0 + 0 - 1)) with 4294967295%Z.
        replace (v <=? 4294967295)%Z with true
          by (symmetry; apply Z.leb_le; lia).
        reflexivity.
      + unfold uint32. rewrite Z.mod_small by lia.
        replace (v <=? sector_arg p charSect + 0 - 1)%Z with false
          by (symmetry; apply Z.leb_gt; lia).
        reflexivity. }
  unfold cbl_HandleCmdFlashErase. rewrite E.
  destruct (c_unsigned FLASH_SECTOR_TOTAL && (sector_arg p charSect =? 0)%Z);
    [reflexivity|].
  split; [reflexivity|].
  split; [apply erase_flash_unlocks|].
  split; [apply erase_flash_erases|]. apply erase_flash_code.
Qed.

End HandlerFacts.

(** *** The theorems on concrete requests *)

(** The peripheral address [0x40000000] is rejected on the STM32F407, and
    the accepted address [0x08000000] lies in a region (the flash). *)
Lemma C8_verify_jump_address_total_witness :
  f407_verify 1073741824 = CBL_ERR_JUMP_INV_ADDR
  /\ (f407_flash 134217728 = true \/ f407_ccm 134217728 = true
      \/ f407_sram1 134217728 = true \/ f407_sram2 134217728 = true
      \/ f407_bkpsram 134217728 = true \/ f407_sysmem 134217728 = true).
Proof.
  split.
  - apply (proj1 (proj2 (proj2
      (C8_verify_jump_address_total f407_flash f407_ccm f407_sram1
         f407_sram2 f407_bkpsram f407_sysmem 1073741824))));
      reflexivity.
  - apply (proj2 (proj2 (proj2
      (C8_verify_jump_address_total f407_flash f407_ccm f407_sram1
         f407_sram2 f407_bkpsram f407_sysmem 134217728)))).
    reflexivity.
Defined.

(** [jump-to addr=0x12345678] is refused without a jump, and
    [jump-to addr=0x08008000] jumps to [0x08008001]. *)
Lemma C2_jump_only_after_validation_witness :
  cbl_HandleCmdJumpTo f407_flash f407_ccm f407_sram1 f407_sram2 f407_bkpsram
    f407_sysmem (chars "OK") uart_ok (parsed "jump-to addr=0x12345678") []
  = Returned CBL_ERR_JUMP_INV_ADDR []
  /\ cbl_HandleCmdJumpTo f407_flash f407_ccm f407_sram1 f407_sram2
       f407_bkpsram f407_sysmem (chars "OK") uart_ok
       (parsed "jump-to addr=0x08008000") []
     = Jumped 134250497 [UART_Transmit (chars "OK")]
  /\ (exists charAddr,
         cbl_ParserGetArgVal (parsed "jump-to addr=0x08008000")
           CBL_TXTCMD_JUMP_TO_ADDR (strlen CBL_TXTCMD_JUMP_TO_ADDR)
         = Some charAddr
         /\ f407_verify (jump_addr (parsed "jump-to addr=0x08008000") charAddr)
            = CBL_ERR_OK
         /\ 134250497%Z
            = uint32 (jump_addr (parsed "jump-to addr=0x08008000") charAddr + 1)
         /\ (jump_addr (parsed "jump-to addr=0x08008000") charAddr
             <> ULONG_MAX ->
             134250497%Z
             = (jump_addr (parsed "jump-to addr=0x08008000") charAddr + 1)%Z)).
Proof.
  split; [|split].
  - apply (proj1 (proj2
      (C2_jump_only_after_validation f407_flash f407_ccm f407_sram1
         f407_sram2 f407_bkpsram f407_sysmem (chars "OK") uart_ok
         (parsed "jump-to addr=0x12345678") [])) 13);
      vm_compute; reflexivity.
  - apply (proj2 (proj2
      (C2_jump_only_after_validation f407_flash f407_ccm f407_sram1
         f407_sram2 f407_bkpsram f407_sysmem (chars "OK") uart_ok
         (parsed "jump-to addr=0x08008000") [])) 13);
      vm_compute; reflexivity.
  - apply (proj1
      (C2_jump_only_after_validation f407_flash f407_ccm f407_sram1
         f407_sram2 f407_bkpsram f407_sysmem (chars "OK") uart_ok
         (parsed "jump-to addr=0x08008000") [])
      134250497%Z [UART_Transmit (chars "OK")]).
    vm_compute; reflexivity.
Defined.

(** C3.  The range checks do not see the numbers of the request.  With 12
    sectors, as a constant of either type, the request [sector=256 count=1]
    names a first sector that is not below 12, yet the handler does not
    return [CBL_ERR_INV_SECT]: the conversion to [uint8_t] has made it
    sector 0, both checks pass, the flash is unlocked and sector 0 is
    erased.  Likewise [sector=11 count=257] names a last sector 267, yet
    one sector is erased from sector 11 on. *)
Theorem C3_sector_256_is_erased_as_sector_0 :
  cbl_ParserGetArgVal (parsed "flash-erase type=sector sector=256 count=1")
    CBL_TXTCMD_FLASH_ERASE_SECT (strlen CBL_TXTCMD_FLASH_ERASE_SECT)
  = Some 31
  /\ requested_number (parsed "flash-erase type=sector sector=256 count=1") 31
     = 256%Z
  /\ (256 >= 12)%Z
  /\ cbl_HandleCmdFlashErase (UIntConst 12) (chars "OK") uart_ok unlock_ok
       erase_ok (parsed "flash-erase type=sector sector=256 count=1") []
     = (CBL_ERR_OK,
        [FLASH_Unlock; FLASHEx_Erase (TYPEERASE_SECTORS 0 1); FLASH_Lock;
         UART_Transmit (chars "OK")])
  /\ cbl_HandleCmdFlashErase (IntConst 12) (chars "OK") uart_ok unlock_ok
       erase_ok (parsed "flash-erase type=sector sector=256 count=1") []
     = (CBL_ERR_OK,
        [FLASH_Unlock; FLASHEx_Erase (TYPEERASE_SECTORS 0 1); FLASH_Lock;
         UART_Transmit (chars "OK")])
  /\ cbl_ParserGetArgVal (parsed "flash-erase type=sector sector=11 count=257")
       CBL_TXTCMD_FLASH_ERASE_COUNT (strlen CBL_TXTCMD_FLASH_ERASE_COUNT)
     = Some 40
  /\ requested_number (parsed "flash-erase type=sector sector=11 count=257") 40
     = 257%Z
  /\ (11 + 257 - 1 >= 12)%Z
  /\ cbl_HandleCmdFlashErase (UIntConst 12) (chars "OK") uart_ok unlock_ok
       erase_ok (parsed "flash-erase type=sector sector=11 count=257") []
     = (CBL_ERR_OK,
        [FLASH_Unlock; FLASHEx_Erase (TYPEERASE_SECTORS 11 1); FLASH_Lock;
         UART_Transmit (chars "OK")]).
Proof.
  repeat split; try (vm_compute; reflexivity); vm_compute; discriminate.
Qed.

(** With 12 sectors: [sector=12 count=1] is an invalid sector,
    [sector=10 count=5] an invalid count, [sector=2 count=3] passes; all
    three numbers fit eight bits.  [sector=268 count=1] is an invalid sector
    as well, since 268 is checked as 12. *)
Lemma X27_sector_range_checks_see_eight_bits_witness :
  cbl_HandleCmdFlashErase (UIntConst 12) (chars "OK") uart_ok unlock_ok
    erase_ok (parsed "flash-erase type=sector sector=12 count=1") []
  = (CBL_ERR_INV_SECT, [])
  /\ cbl_HandleCmdFlashErase (UIntConst 12) (chars "OK") uart_ok unlock_ok
       erase_ok (parsed "flash-erase type=sector sector=10 count=5") []
     = (CBL_ERR_INV_SECT_COUNT, [])
  /\ cbl_HandleCmdFlashErase (UIntConst 12) (chars "OK") uart_ok unlock_ok
       erase_ok (parsed "flash-erase type=sector sector=268 count=1") []
     = (CBL_ERR_INV_SECT, [])
  /\ erase_settings (UIntConst 12)
       (parsed "flash-erase type=sector sector=2 count=3")
     = inr (TYPEERASE_SECTORS 2 3).
Proof.
  pose proof (X27_sector_range_checks_see_eight_bits (UIntConst 12)
                (chars "OK") uart_ok unlock_ok erase_ok)
    as [H1 [_ [H3 [H4 H5]]]].
  split; [|split; [|split]].
  - apply (H3 (parsed "flash-erase type=sector sector=12 count=1") [] 17 31);
      vm_compute; try reflexivity; discriminate.
  - apply (H4 (parsed "flash-erase type=sector sector=10 count=5") []
             17 31 40);
      vm_compute; try reflexivity; discriminate.
  - apply (H1 (parsed "flash-erase type=sector sector=268 count=1") [] 17 31);
      vm_compute; try reflexivity; discriminate.
  - exact (proj1 (H5 eq_refl [])).
Defined.

(** C10, counterexample to both checks passing for sector 0 whatever the
    constant.  With 12 sectors as an [unsigned int] constant ([12U]) the
    request [sector=0 count=0], whose sector is below 12, is rejected by
    the second check, and no call to the hardware is made. *)
Lemma C10_sector_0_count_0_rejected_when_unsigned :
  sector_arg (parsed "flash-erase type=sector sector=0 count=0") 31 = 0%Z
  /\ sector_arg (parsed "flash-erase type=sector sector=0 count=0") 39 = 0%Z
  /\ (0 < c_val (UIntConst 12))%Z
  /\ cbl_HandleCmdFlashErase (UIntConst 12) (chars "OK") uart_ok unlock_ok
       erase_ok (parsed "flash-erase type=sector sector=0 count=0") []
     = (CBL_ERR_INV_SECT_COUNT, []).
Proof.
  repeat split; vm_compute; reflexivity.
Qed.

(** With 12 sectors as an [int] constant, [sector=0 count=0] reaches the
    hardware erase with a count of 0; with 12 sectors as an [unsigned int]
    constant, [sector=1 count=0] does. *)
Lemma C10_zero_count_reaches_erase_witness :
  (erase_settings (IntConst 12)
     (parsed "flash-erase type=sector sector=0 count=0")
   = inr (TYPEERASE_SECTORS
            (sector_arg (parsed "flash-erase type=sector sector=0 count=0")
               31) 0)
   /\ In (FLASHEx_Erase
            (TYPEERASE_SECTORS
               (sector_arg (parsed "flash-erase type=sector sector=0 count=0")
                  31) 0))
        (snd (cbl_HandleCmdFlashErase (IntConst 12) (chars "OK") uart_ok
                unlock_ok erase_ok
                (parsed "flash-erase type=sector sector=0 count=0") [])))
  /\ (erase_settings (UIntConst 12)
        (parsed "flash-erase type=sector sector=1 count=0")
      = inr (TYPEERASE_SECTORS
               (sector_arg (parsed "flash-erase type=sector sector=1 count=0")
                  31) 0)
      /\ In (FLASHEx_Erase
               (TYPEERASE_SECTORS
                  (sector_arg
                     (parsed "flash-erase type=sector sector=1 count=0") 31)
                  0))
           (snd (cbl_HandleCmdFlashErase (UIntConst 12) (chars "OK") uart_ok
                   unlock_ok erase_ok
                   (parsed "flash-erase type=sector sector=1 count=0") []))).
Proof.
  pose proof (C10_zero_count_reaches_erase (IntConst 12) (chars "OK")
                uart_ok unlock_ok erase_ok
                (parsed "flash-erase type=sector sector=0 count=0") []
                17 31 39) as HI.
  pose proof (C10_zero_count_reaches_erase (UIntConst 12) (chars "OK")
                uart_ok unlock_ok erase_ok
                (parsed "flash-erase type=sector sector=1 count=0") []
                17 31 39) as HU.
  split.
  - destruct HI as [H1 [_ [H3 _]]];
      [vm_compute; reflexivity .. | split; vm_compute; congruence | ].
    exact (conj H1 (H3 eq_refl)).
  - destruct HU as [H1 [_ [H3 _]]];
      [vm_compute; reflexivity .. | split; vm_compute; congruence | ].
    exact (conj H1 (H3 eq_refl)).
Defined.

End LegacyFacts.

(* ================================================================== *)
(** ** The command read loop and the state machine of [custom_bootloader.c] *)

Module ShellFacts.
Import CStr CStrFacts Shell.

#[local] Arguments Ascii.eqb : simpl never.

Lemma has_crlf_from (l : list ascii) : has_crlf l = crlf_from false l.
Proof.
  induction l as [|c1 t IH]; [reflexivity|].
  destruct t as [|c2 t']; [reflexivity|].
  change (has_crlf (c1 :: c2 :: t'))
    with ((Ascii.eqb CR c1 && Ascii.eqb LF c2) || has_crlf (c2 :: t')).
  rewrite IH. simpl. destruct (Ascii.eqb CR c1); simpl; [|reflexivity].
  now destruct (Ascii.eqb LF c2).
Qed.

Lemma store_app_length (pre : list ascii) (b c : ascii) (buf : list ascii) :
  store (pre ++ b :: buf) (List.length pre) c = pre ++ c :: buf.
Proof. induction pre as [|x pre IH]; simpl; [reflexivity|now rewrite IH]. Qed.

(** Storing [l] from the end of [pre] on overwrites the bytes after [pre]. *)
Lemma store_list_app (l pre buf : list ascii) :
  List.length l <= List.length buf ->
  store_list (pre ++ buf) (List.length pre) l
  = pre ++ l ++ skipn (List.length l) buf.
Proof.
  revert pre buf. induction l as [|c t IH]; intros pre buf Hl; [reflexivity|].
  destruct buf as [|b buf']; [simpl in Hl; lia|].
  simpl in Hl. simpl store_list. rewrite store_app_length.
  change (pre ++ c :: buf') with (pre ++ [c] ++ buf').
  rewrite app_assoc.
  replace (S (List.length pre)) with (List.length (pre ++ [c]))
    by (rewrite length_app; simpl; lia).
  rewrite IH by lia. now rewrite <- app_assoc.
Qed.

Lemma store_list_full (n : nat) (rx : list ascii) :
  n <= List.length rx ->
  store_list (repeat NUL n) 0 (firstn n rx) = firstn n rx.
Proof.
  intros Hn.
  pose proof (store_list_app (firstn n rx) [] (repeat NUL n)) as H.
  simpl in H. rewrite H.
  - rewrite length_firstn, Nat.min_l by assumption.
    rewrite skipn_all2 by (rewrite repeat_length; lia). apply app_nil_r.
  - rewrite length_firstn, repeat_length. lia.
Qed.

Lemma until_nul_app_nul (l x : list ascii) :
  nul_free l -> until_nul (l ++ NUL :: x) = l.
Proof.
  unfold nul_free. induction l as [|c t IH]; intros H; [reflexivity|].
  simpl in *. destruct (Ascii.eqb c NUL); [discriminate|].
  injection H as H. now rewrite IH.
Qed.

Section ShellFacts.

Variable hal_send_to_host_status :
  list ascii -> list hal_call -> cbl_err_code_t.
Variable hal_recv_from_host_start_status : list hal_call -> cbl_err_code_t.
Variable CBL_process_cmd :
  list ascii -> nat -> world -> run (cbl_err_code_t * world).

Local Abbreviation wait_loop' := (wait_loop hal_recv_from_host_start_status).
Local Abbreviation wait_for_cmd' :=
  (wait_for_cmd hal_send_to_host_status hal_recv_from_host_start_status).
Local Abbreviation sys_state_operation' :=
  (sys_state_operation hal_send_to_host_status
     hal_recv_from_host_start_status CBL_process_cmd).
Local Abbreviation sys_state_error' :=
  (sys_state_error hal_send_to_host_status).
Local Abbreviation shell_step' :=
  (shell_step hal_send_to_host_status hal_recv_from_host_start_status
     CBL_process_cmd).
Local Abbreviation shell_iter' :=
  (shell_iter hal_send_to_host_status hal_recv_from_host_start_status
     CBL_process_cmd).

(** The reception never fails to start. *)
Hypothesis recv_starts :
  forall log, hal_recv_from_host_start_status log = CBL_ERR_OK.

(** Without CR LF among the bytes that still fit, the loop fills the buffer
    up to [len] and ends with the overflow code. *)
Lemma wait_loop_overflow (rx : list ascii) (len : nat) :
  forall (i : nat) (b : bool) (buf : list ascii) (log : list hal_call),
    i <= len ->
    len - i <= List.length rx ->
    crlf_from b (firstn (len - i) rx) = false ->
    wait_loop' rx len i i b buf log
    = Ret (CBL_ERR_READ_OF, store_list buf i (firstn (len - i) rx),
           (skipn (len - i) rx, log ++ repeat RecvFromHostStart (len - i))).
Proof.
  induction rx as [|c rx' IH]; intros i b buf log Hi Hlen Hno.
  - simpl in Hlen. assert (i = len) as -> by lia.
    simpl. rewrite Nat.ltb_irrefl, Nat.sub_diag. simpl.
    now rewrite app_nil_r.
  - simpl wait_loop. destruct (i <? len) eqn:E.
    + apply Nat.ltb_lt in E. rewrite recv_starts. simpl is_err. cbv iota.
      destruct (len - i) as [|k] eqn:Ek; [lia|].
      simpl in Hno. apply orb_false_iff in Hno as [Hb Hrest].
      rewrite Hb.
      assert (len - S i = k) as Hk by lia.
      rewrite (IH (S i) (Ascii.eqb CR c) (store buf i c)
                 (log ++ [RecvFromHostStart]));
        [|lia|simpl in Hlen; lia|now rewrite Hk].
      rewrite Hk. simpl. now rewrite <- app_assoc.
    + apply Nat.ltb_ge in E. assert (len - i = 0) as -> by lia.
      simpl. now rewrite app_nil_r.
Qed.

(** A line that ends with CR LF and fits is read completely; the CR is
    replaced by the terminator. *)
Lemma wait_loop_line (line rest : list ascii) (len : nat) :
  forall (i : nat) (b : bool) (buf : list ascii) (log : list hal_call),
    i + List.length line + 2 <= len ->
    crlf_from b (line ++ [CR]) = false ->
    wait_loop' (line ++ CR :: LF :: rest) len i i b buf log
    = Ret (CBL_ERR_OK,
           store (store_list buf i (line ++ [CR; LF]))
             (i + List.length line) NUL,
           (rest, log ++ repeat RecvFromHostStart (List.length line + 2))).
Proof.
  induction line as [|c t IH]; intros i b buf log Hlen Hno.
  - simpl in Hlen. simpl app. simpl wait_loop.
    assert ((i <? len) = true) as -> by (apply Nat.ltb_lt; lia).
    assert ((S i <? len) = true) as -> by (apply Nat.ltb_lt; lia).
    rewrite !recv_starts. simpl is_err. cbv iota.
    replace (Ascii.eqb LF CR) with false by reflexivity.
    rewrite andb_false_r.
    replace (Ascii.eqb CR CR) with true by reflexivity.
    replace (Ascii.eqb LF LF) with true by reflexivity.
    simpl andb. cbv iota.
    rewrite Nat.add_0_r, Nat.sub_0_r. simpl. now rewrite <- app_assoc.
  - simpl in Hlen. simpl in Hno. apply orb_false_iff in Hno as [Hb Hrest].
    simpl app. simpl wait_loop.
    assert ((i <? len) = true) as -> by (apply Nat.ltb_lt; lia).
    rewrite recv_starts. simpl is_err. cbv iota. rewrite Hb.
    rewrite (IH (S i) (Ascii.eqb CR c) (store buf i c)
               (log ++ [RecvFromHostStart])); [|lia|assumption].
    simpl. rewrite <- app_assoc. simpl.
    now replace (i + S (List.length t)) with (S (i + List.length t)) by lia.
Qed.

Lemma wait_for_cmd_overflow (n : nat) (rx : list ascii)
  (log : list hal_call) (exit_req : bool) :
  hal_send_to_host_status prompt log = CBL_ERR_OK ->
  n <= List.length rx ->
  has_crlf (firstn n rx) = false ->
  wait_for_cmd' (repeat NUL n) n (mkWorld rx log exit_req)
  = Ret (CBL_ERR_READ_OF, firstn n rx,
         mkWorld (skipn n rx)
           (log ++ SendToHost prompt :: repeat RecvFromHostStart n) exit_req).
Proof.
  intros Hsend Hn Hno. unfold wait_for_cmd, hal_send_to_host.
  cbn [hal_log host_rx gIsExitReq].
  change (CRLF ++ chars "> ") with prompt.
  rewrite Hsend. cbn [is_err].
  rewrite has_crlf_from in Hno.
  rewrite (wait_loop_overflow rx n 0 false); rewrite ?Nat.sub_0_r;
    [|lia|assumption|assumption].
  rewrite store_list_full by assumption. now rewrite <- app_assoc.
Qed.

Lemma wait_for_cmd_line (n : nat) (line rest : list ascii)
  (log : list hal_call) (exit_req : bool) :
  hal_send_to_host_status prompt log = CBL_ERR_OK ->
  List.length line + 2 <= n ->
  has_crlf (line ++ [CR]) = false ->
  nul_free line ->
  exists cmd,
    wait_for_cmd' (repeat NUL n) n
      (mkWorld (line ++ CR :: LF :: rest) log exit_req)
    = Ret (CBL_ERR_OK, cmd,
           mkWorld rest
             (log ++ SendToHost prompt
                  :: repeat RecvFromHostStart (List.length line + 2))
             exit_req)
    /\ until_nul cmd = line.
Proof.
  intros Hsend Hn Hno Hnul. unfold wait_for_cmd, hal_send_to_host.
  cbn [hal_log host_rx gIsExitReq].
  change (CRLF ++ chars "> ") with prompt.
  rewrite Hsend. cbn [is_err].
  rewrite has_crlf_from in Hno.
  rewrite (wait_loop_line line rest n 0 false) by (simpl; assumption).
  eexists. split; [now rewrite <- app_assoc|].
  pose proof (store_list_app (line ++ [CR; LF]) [] (repeat NUL n)) as H.
  simpl in H. rewrite H by (rewrite length_app, repeat_length; simpl; lia).
  rewrite <- app_assoc. simpl. rewrite store_app_length.
  now apply until_nul_app_nul.
Qed.

(** C5.  When the first [CMD_BUF_SZ] bytes from the host hold no CR LF, the
    command read fills the whole buffer with them and returns
    [CBL_ERR_READ_OF]; the error state sends [ERROR: Command too long] and
    returns [CBL_ERR_OK], so that after two passes the shell is operational
    again; and the next pass reads the following line into a zeroed buffer
    and hands exactly that line to the command processing. *)
Theorem C5_read_overflow_is_recovered
  (rx : list ascii) (log : list hal_call) (exit_req : bool)
  (e0 : cbl_err_code_t) :
  hal_send_to_host_status prompt log = CBL_ERR_OK ->
  CMD_BUF_SZ <= List.length rx ->
  has_crlf (firstn CMD_BUF_SZ rx) = false ->
  let w := mkWorld rx log exit_req in
  let log1 :=
    log ++ SendToHost prompt :: repeat RecvFromHostStart CMD_BUF_SZ in
  let w1 := mkWorld (skipn CMD_BUF_SZ rx) log1 exit_req in
  let log2 := log1 ++ [SendToHost msg_too_long] in
  let w2 := mkWorld (skipn CMD_BUF_SZ rx) log2 exit_req in
  wait_for_cmd' (repeat NUL CMD_BUF_SZ) CMD_BUF_SZ w
  = Ret (CBL_ERR_READ_OF, firstn CMD_BUF_SZ rx, w1)
  /\ sys_state_operation' w = Ret (CBL_ERR_READ_OF, w1)
  /\ sys_state_error' CBL_ERR_READ_OF w1 = (CBL_ERR_OK, w2)
  /\ shell_iter' 2 (Running STATE_OPER e0 w)
     = Ret (Running STATE_OPER CBL_ERR_OK w2)
  /\ shell_iter' 3 (Running STATE_OPER e0 w)
     = shell_iter' 1 (Running STATE_OPER CBL_ERR_OK w2)
  /\ (forall line rest,
         skipn CMD_BUF_SZ rx = line ++ CR :: LF :: rest ->
         List.length line + 2 <= CMD_BUF_SZ ->
         has_crlf (line ++ [CR]) = false ->
         nul_free line ->
         hal_send_to_host_status prompt log2 = CBL_ERR_OK ->
         exists cmd,
           cstr cmd 0 = line
           /\ sys_state_operation' w2
              = CBL_process_cmd cmd (List.length line)
                  (mkWorld rest
                     (log2 ++ SendToHost prompt
                           :: repeat RecvFromHostStart (List.length line + 2))
                     exit_req)).
Proof.
  intros Hsend Hlen Hno w log1 w1 log2 w2.
  pose proof (wait_for_cmd_overflow CMD_BUF_SZ rx log exit_req Hsend Hlen Hno)
    as Hwait.
  assert (sys_state_operation' w = Ret (CBL_ERR_READ_OF, w1)) as Hop
    by (unfold sys_state_operation; subst w; now rewrite Hwait).
  assert (shell_iter' 2 (Running STATE_OPER e0 w)
          = Ret (Running STATE_OPER CBL_ERR_OK w2)) as H2.
  { unfold shell_iter, shell_step at 1. rewrite Hop. reflexivity. }
  split; [exact Hwait|]. split; [exact Hop|]. split; [reflexivity|].
  split; [exact H2|]. split.
  - change (shell_iter' 3 (Running STATE_OPER e0 w))
      with (match shell_step' STATE_OPER e0 w with
            | Ret r' => shell_iter' 2 r'
            | NoReturn => NoReturn
            end).
    unfold shell_step at 1. rewrite Hop. reflexivity.
  - intros line rest Hrx Hfit Hline Hnul Hsend2.
    destruct (wait_for_cmd_line CMD_BUF_SZ line rest log2 exit_req
                Hsend2 Hfit Hline Hnul) as [cmd [Hw Hc]].
    exists cmd. split; [exact Hc|].
    unfold sys_state_operation. subst w2. rewrite Hrx, Hw. simpl is_err.
    cbv iota. unfold strlen. now rewrite Hc.
Qed.

(** C4.  Every error code for which the error handler has a case is turned
    into [CBL_ERR_OK], so the error state goes back to the operational
    state; it goes to the exit state exactly for the codes without a case.
    When the command processing returns [CBL_ERR_JUMP_INV_ADDR], the text
    that starts with [ERROR: Invalid address] after a CR LF is sent and two
    passes later the shell is operational. *)
Theorem C4_handled_errors_return_to_operational :
  (has_case CBL_ERR_READ_OF = true /\ has_case CBL_ERR_CMD_UNDEF = true
   /\ has_case CBL_ERR_NEED_PARAM = true
   /\ has_case CBL_ERR_JUMP_INV_ADDR = true
   /\ has_case CBL_ERR_CKSUM_WRONG = true)
  /\ (forall e w,
         has_case e = true ->
         fst (sys_state_error' e w) = CBL_ERR_OK
         /\ shell_step' STATE_ERR e w
            = Ret (Running STATE_OPER CBL_ERR_OK (snd (sys_state_error' e w))))
  /\ (forall e w e' w',
         shell_step' STATE_ERR e w = Ret (Running STATE_EXIT e' w') ->
         has_case e = false)
  /\ (forall e w,
         has_case e = false ->
         shell_step' STATE_ERR e w = Ret (Running STATE_EXIT e w))
  /\ (forall e0 w w1,
         sys_state_operation' w = Ret (CBL_ERR_JUMP_INV_ADDR, w1) ->
         exists tail,
           shell_iter' 2 (Running STATE_OPER e0 w)
           = Ret (Running STATE_OPER CBL_ERR_OK
                    (mkWorld (host_rx w1)
                       (hal_log w1
                        ++ [SendToHost
                              ((CRLF ++ chars "ERROR: Invalid address")
                               ++ tail)])
                       (gIsExitReq w1)))).
Proof.
  split; [repeat split|].
  assert (forall e w,
             has_case e = true ->
             fst (sys_state_error' e w) = CBL_ERR_OK
             /\ shell_step' STATE_ERR e w
                = Ret (Running STATE_OPER CBL_ERR_OK
                         (snd (sys_state_error' e w)))) as Hrec
    by (intros e w He; destruct e; try discriminate He; split; reflexivity).
  split; [exact Hrec|]. split; [|split].
  - intros e w e' w' Hstep. destruct (has_case e) eqn:He; [|reflexivity].
    destruct (Hrec e w He) as [_ Hoper]. rewrite Hoper in Hstep.
    discriminate Hstep.
  - intros e w He. destruct e; try discriminate He; reflexivity.
  - intros e0 w w1 Hop. eexists.
    unfold shell_iter, shell_step at 1. rewrite Hop. reflexivity.
Qed.

End ShellFacts.

(** *** The theorems on concrete input *)

(** An overlong input followed by the line [help]: the read overflows, the
    shell recovers, and the next pass hands [help] to the command
    processing. *)
Lemma C5_read_overflow_is_recovered_witness :
  sys_state_operation send_ok recv_ok jump_only overlong
  = Ret (CBL_ERR_READ_OF,
         mkWorld (skipn CMD_BUF_SZ (host_rx overlong))
           ([] ++ SendToHost prompt :: repeat RecvFromHostStart CMD_BUF_SZ)
           false)
  /\ shell_iter send_ok recv_ok jump_only 2
       (Running STATE_OPER CBL_ERR_OK overlong)
     = Ret (Running STATE_OPER CBL_ERR_OK
              (mkWorld (skipn CMD_BUF_SZ (host_rx overlong))
                 (([] ++ SendToHost prompt
                      :: repeat RecvFromHostStart CMD_BUF_SZ)
                  ++ [SendToHost msg_too_long])
                 false))
  /\ (exists cmd,
         cstr cmd 0 = chars "help"
         /\ sys_state_operation send_ok recv_ok jump_only
              (mkWorld (skipn CMD_BUF_SZ (host_rx overlong))
                 (([] ++ SendToHost prompt
                      :: repeat RecvFromHostStart CMD_BUF_SZ)
                  ++ [SendToHost msg_too_long])
                 false)
            = jump_only cmd (List.length (chars "help"))
                (mkWorld []
                   ((([] ++ SendToHost prompt
                         :: repeat RecvFromHostStart CMD_BUF_SZ)
                     ++ [SendToHost msg_too_long])
                    ++ SendToHost prompt
                       :: repeat RecvFromHostStart
                            (List.length (chars "help") + 2))
                   false)).
Proof.
  assert (CMD_BUF_SZ <= List.length (host_rx overlong)) as Hlen
    by (apply Nat.leb_le; vm_compute; reflexivity).
  assert (has_crlf (firstn CMD_BUF_SZ (host_rx overlong)) = false) as Hno
    by (vm_compute; reflexivity).
  pose proof (C5_read_overflow_is_recovered send_ok recv_ok jump_only
                (fun _ => eq_refl) (host_rx overlong) [] false CBL_ERR_OK
                eq_refl Hlen Hno) as H.
  cbv zeta in H. destruct H as [_ [Hop [_ [H2 [_ Hnext]]]]].
  split; [exact Hop|]. split; [exact H2|].
  apply (Hnext (chars "help") []).
  - vm_compute. reflexivity.
  - apply Nat.leb_le. vm_compute. reflexivity.
  - vm_compute. reflexivity.
  - vm_compute. reflexivity.
  - reflexivity.
Defined.

(** The code [CBL_ERR_NEED_PARAM] is recovered, the code [CBL_ERR_CMDCD],
    which has no case, leads to the exit state, and the line
    [jump-to addr=0x12345678] ends with the report of an invalid address and
    an operational shell. *)
Lemma C4_handled_errors_return_to_operational_witness :
  fst (sys_state_error send_ok CBL_ERR_NEED_PARAM (host_sends "")) = CBL_ERR_OK
  /\ has_case CBL_ERR_CMDCD = false
  /\ shell_step send_ok recv_ok jump_only STATE_ERR CBL_ERR_CMDCD
       (host_sends "")
     = Ret (Running STATE_EXIT CBL_ERR_CMDCD (host_sends ""))
  /\ (exists tail,
         shell_iter send_ok recv_ok jump_only 2
           (Running STATE_OPER CBL_ERR_OK
              (host_sends "jump-to addr=0x12345678"))
         = Ret (Running STATE_OPER CBL_ERR_OK
                  (mkWorld
                     (host_rx
                        (mkWorld []
                           (SendToHost prompt
                              :: repeat RecvFromHostStart 25) false))
                     (hal_log
                        (mkWorld []
                           (SendToHost prompt
                              :: repeat RecvFromHostStart 25) false)
                      ++ [SendToHost
                            ((CRLF ++ chars "ERROR: Invalid address")
                             ++ tail)])
                     (gIsExitReq
                        (mkWorld []
                           (SendToHost prompt
                              :: repeat RecvFromHostStart 25) false))))).
Proof.
  pose proof (C4_handled_errors_return_to_operational send_ok recv_ok
                jump_only) as [_ [Hrec [Honly [Hexit Hjump]]]].
  split; [exact (proj1 (Hrec CBL_ERR_NEED_PARAM (host_sends "") eq_refl))|].
  split; [exact (Honly CBL_ERR_CMDCD (host_sends "") CBL_ERR_CMDCD
                   (host_sends "") eq_refl)|].
  split; [exact (Hexit CBL_ERR_CMDCD (host_sends "") eq_refl)|].
  apply (Hjump CBL_ERR_OK (host_sends "jump-to addr=0x12345678")
           (mkWorld [] (SendToHost prompt :: repeat RecvFromHostStart 25)
              false)).
  vm_compute. reflexivity.
Defined.

End ShellFacts.

(* ================================================================== *)
(** ** The update-new handler of [cbl_cmds_update_new.c] *)

Module UpdateNewFacts.
Import CStr UpdateNew.

Section UpdateNewFacts.

Variables cksum_t app_type_t parser_t : Set.
Variables TXT_PAR_UP_NEW_COUNT TXT_PAR_CKSUM TXT_PAR_APP_TYPE TXT_SUCCESS
  : list ascii.
Variables BOOT_NEW_APP_MAX_LEN BOOT_NEW_APP_START BOOT_NEW_APP_START_SECTOR
  BOOT_NEW_APP_MAX_SECTORS : Z.
Variable parser_get_val : parser_t -> list ascii -> nat -> option (list ascii).
Variable str2ui32 : list ascii -> nat -> Z -> cbl_err_code_t * Z.
Variable enum_checksum :
  option (list ascii) -> nat -> cbl_err_code_t * cksum_t.
Variable enum_app_type : list ascii -> nat -> cbl_err_code_t * app_type_t.
Variable hal_flash_erase_sector_status :
  Z -> Z -> world cksum_t app_type_t -> cbl_err_code_t.
Variable flash_write_status :
  Z -> Z -> cksum_t -> world cksum_t app_type_t -> cbl_err_code_t.
Variable boot_record_set_result :
  boot_record_t cksum_t app_type_t -> world cksum_t app_type_t ->
  cbl_err_code_t * boot_record_t cksum_t app_type_t.
Variable hal_send_to_host_status :
  list ascii -> world cksum_t app_type_t -> cbl_err_code_t.

Local Abbreviation update_new_get_params' :=
  (update_new_get_params cksum_t app_type_t parser_t TXT_PAR_UP_NEW_COUNT
     TXT_PAR_CKSUM TXT_PAR_APP_TYPE
     BOOT_NEW_APP_MAX_LEN parser_get_val str2ui32 enum_checksum
     enum_app_type).
Local Abbreviation cmd_update_new' :=
  (cmd_update_new cksum_t app_type_t parser_t TXT_PAR_UP_NEW_COUNT
     TXT_PAR_CKSUM TXT_PAR_APP_TYPE
     TXT_SUCCESS BOOT_NEW_APP_MAX_LEN BOOT_NEW_APP_START
     BOOT_NEW_APP_START_SECTOR BOOT_NEW_APP_MAX_SECTORS parser_get_val
     str2ui32 enum_checksum enum_app_type hal_flash_erase_sector_status
     flash_write_status boot_record_set_result hal_send_to_host_status).
Local Abbreviation erase_call :=
  (FlashEraseSector (cksum_t := cksum_t) (app_type_t := app_type_t)
     BOOT_NEW_APP_START_SECTOR BOOT_NEW_APP_MAX_SECTORS).

(** A count above the maximum is refused by the parameter extraction. *)
Lemma get_params_too_long (p : parser_t) (char_len : list ascii) (n : Z) :
  parser_get_val p TXT_PAR_UP_NEW_COUNT (strlen TXT_PAR_UP_NEW_COUNT)
  = Some char_len ->
  str2ui32 char_len (strlen char_len) 10 = (CBL_ERR_OK, n) ->
  (n > BOOT_NEW_APP_MAX_LEN)%Z ->
  update_new_get_params' p = Ok (inl CBL_ERR_NEW_APP_LEN).
Proof.
  intros Hc Hs Hn. unfold update_new_get_params. rewrite Hc, Hs. simpl.
  now replace (BOOT_NEW_APP_MAX_LEN <? n)%Z with true
    by (symmetry; apply Z.ltb_lt; lia).
Qed.

(** C1, amended.  When the handler returns an error of the parameter
    extraction (such as [CBL_ERR_NEW_APP_LEN] for a count above
    [BOOT_NEW_APP_MAX_LEN]), of the erase of the staging sectors or of the
    flash write, it has called neither [boot_record_get] nor
    [boot_record_set], and the persisted boot record is the one from before
    the call.  Whenever the handler returns, the persisted record differs
    from the one before only if [boot_record_set] is among the calls made. *)
Theorem C1_early_errors_keep_boot_record
  (p : parser_t) (w : world cksum_t app_type_t) :
  (forall e,
      update_new_get_params' p = Ok (inl e) ->
      cmd_update_new' p w = Returned e w)
  /\ (forall char_len n,
         parser_get_val p TXT_PAR_UP_NEW_COUNT (strlen TXT_PAR_UP_NEW_COUNT)
         = Some char_len ->
         str2ui32 char_len (strlen char_len) 10 = (CBL_ERR_OK, n) ->
         (n > BOOT_NEW_APP_MAX_LEN)%Z ->
         cmd_update_new' p w = Returned CBL_ERR_NEW_APP_LEN w)
  /\ (forall n ck ty,
         update_new_get_params' p = Ok (inr (n, ck, ty)) ->
         hal_flash_erase_sector_status BOOT_NEW_APP_START_SECTOR
           BOOT_NEW_APP_MAX_SECTORS w <> CBL_ERR_OK ->
         cmd_update_new' p w
         = Returned
             (hal_flash_erase_sector_status BOOT_NEW_APP_START_SECTOR
                BOOT_NEW_APP_MAX_SECTORS w)
             (mkWorld (boot_record w) (calls w ++ [erase_call])))
  /\ (forall n ck ty,
         update_new_get_params' p = Ok (inr (n, ck, ty)) ->
         hal_flash_erase_sector_status BOOT_NEW_APP_START_SECTOR
           BOOT_NEW_APP_MAX_SECTORS w = CBL_ERR_OK ->
         flash_write_status BOOT_NEW_APP_START n ck (log erase_call w)
         <> CBL_ERR_OK ->
         cmd_update_new' p w
         = Returned
             (flash_write_status BOOT_NEW_APP_START n ck (log erase_call w))
             (mkWorld (boot_record w)
                ((calls w ++ [erase_call])
                 ++ [FlashWrite BOOT_NEW_APP_START n ck])))
  /\ (forall e w',
         cmd_update_new' p w = Returned e w' ->
         exists l,
           calls w' = calls w ++ l
           /\ ((forall r, ~ In (BootRecordSet r) l) ->
               boot_record w' = boot_record w)).
Proof.
  unfold cmd_update_new. split; [|split; [|split; [|split]]].
  - intros e ->. reflexivity.
  - intros char_len n Hc Hs Hn.
    now rewrite (get_params_too_long p char_len n Hc Hs Hn).
  - intros n ck ty -> He. unfold hal_flash_erase_sector.
    apply is_err_true in He. now rewrite He.
  - intros n ck ty -> He Hw. unfold hal_flash_erase_sector, flash_write.
    rewrite He. simpl is_err. cbv iota.
    apply is_err_true in Hw. now rewrite Hw.
  - intros e w'.
    destruct (update_new_get_params' p) as [[e0|[[n ck] ty]]|];
      [| |discriminate].
    { intros H. injection H as _ <-. exists []. split; [|reflexivity].
      now rewrite app_nil_r. }
    unfold hal_flash_erase_sector, flash_write, boot_record_get,
      boot_record_set, hal_send_to_host, log.
    cbn [boot_record calls].
    destruct (is_err (hal_flash_erase_sector_status _ _ _)).
    { intros H. injection H as _ <-. eexists. split; reflexivity. }
    destruct (is_err (flash_write_status _ _ _ _)).
    { intros H. injection H as _ <-. eexists.
      split; [now rewrite <- app_assoc | reflexivity]. }
    destruct (boot_record_set_result _ _) as [eSet stored].
    cbn [boot_record calls].
    assert (forall tail : list (call cksum_t app_type_t),
               (forall r,
                   ~ In (BootRecordSet r)
                       ([erase_call; FlashWrite BOOT_NEW_APP_START n ck;
                         BootRecordGet;
                         BootRecordSet
                           (mkRecord true (mkMeta ck ty n)
                              (act_app (boot_record w)))] ++ tail)) ->
               stored = boot_record w) as Hset.
    { intros tail Hno. exfalso. eapply Hno.
      apply in_or_app. left. do 3 right. left. reflexivity. }
    destruct (is_err eSet).
    { intros H. injection H as _ <-. eexists. split.
      - cbn [calls]. rewrite <- !app_assoc. reflexivity.
      - intros Hno. apply (Hset []). now rewrite app_nil_r. }
    destruct (is_err (hal_send_to_host_status TXT_SUCCESS _)).
    { intros H. injection H as _ <-. eexists. split.
      - cbn [calls]. rewrite <- !app_assoc. reflexivity.
      - intros Hno. exact (Hset _ Hno). }
    destruct (is_err (hal_send_to_host_status _ _)); [|discriminate].
    intros H. injection H as _ <-. eexists. split.
    + cbn [calls]. rewrite <- !app_assoc. reflexivity.
    + intros Hno. exact (Hset _ Hno).
Qed.

(** C7.  When the line holds a valid count and no key for the checksum, the
    lookup of the checksum returns [NULL] and the parameter extraction takes
    [strlen] of it: the key is not reported as missing, but the call reads
    through a null pointer, which C leaves undefined. *)
Theorem C7_missing_cksum_reads_null
  (p : parser_t) (w : world cksum_t app_type_t)
  (char_len : list ascii) (n : Z) :
  parser_get_val p TXT_PAR_UP_NEW_COUNT (strlen TXT_PAR_UP_NEW_COUNT)
  = Some char_len ->
  str2ui32 char_len (strlen char_len) 10 = (CBL_ERR_OK, n) ->
  (n <= BOOT_NEW_APP_MAX_LEN)%Z ->
  parser_get_val p TXT_PAR_CKSUM (strlen TXT_PAR_CKSUM) = None ->
  update_new_get_params' p = NullDeref /\ cmd_update_new' p w = Undefined.
Proof.
  intros Hc Hs Hn Hk.
  assert (update_new_get_params' p = NullDeref) as E.
  { unfold update_new_get_params. rewrite Hc, Hs. simpl is_err. cbv iota.
    replace (BOOT_NEW_APP_MAX_LEN <? n)%Z with false
      by (symmetry; apply Z.ltb_ge; lia).
    now rewrite Hk. }
  split; [exact E|]. unfold cmd_update_new. now rewrite E.
Qed.

End UpdateNewFacts.

(** *** The theorems on concrete requests *)

(** C1, counterexample to "every error is returned before
    [boot_record_set] is called".  In surroundings where the erase, the
    write and the store of the boot record succeed and the transmission of
    the success text fails, the request for 16 bytes returns
    [CBL_ERR_HAL_TX] after [boot_record_set] has been called, and the
    persisted record has changed: it now announces a staged application. *)
Lemma C1_error_after_boot_record_set :
  run_update_new CBL_ERR_OK CBL_ERR_OK CBL_ERR_OK CBL_ERR_HAL_TX request_16
    (mkWorld idle_record [])
  = Returned CBL_ERR_HAL_TX
      (mkWorld (mkRecord true (mkMeta 0 0 16%Z) (mkMeta 0 0 4096%Z))
         [FlashEraseSector 5 3; FlashWrite 134479872 16 0; BootRecordGet;
          BootRecordSet (mkRecord true (mkMeta 0 0 16%Z) (mkMeta 0 0 4096%Z));
          SendToHost (chars "OK")])
  /\ is_new_app_ready idle_record = false
  /\ mkRecord true (mkMeta 0 0 16%Z) (mkMeta 0 0 4096%Z) <> idle_record.
Proof.
  split; [vm_compute; reflexivity|]. split; [reflexivity|discriminate].
Qed.

(** The request for 2048 bytes with a maximum of 1024 returns
    [CBL_ERR_NEW_APP_LEN] and a failing erase returns its error, both with
    the boot record and, in the first case, the list of calls untouched. *)
Lemma C1_early_errors_keep_boot_record_witness :
  run_update_new CBL_ERR_OK CBL_ERR_OK CBL_ERR_OK CBL_ERR_OK request_2048
    (mkWorld idle_record [])
  = Returned CBL_ERR_NEW_APP_LEN (mkWorld idle_record [])
  /\ run_update_new CBL_ERR_HAL_ERASE CBL_ERR_OK CBL_ERR_OK CBL_ERR_OK
       request_16 (mkWorld idle_record [])
     = Returned CBL_ERR_HAL_ERASE
         (mkWorld idle_record ([] ++ [FlashEraseSector 5 3]))
  /\ run_update_new CBL_ERR_OK CBL_ERR_HAL_WRITE CBL_ERR_OK CBL_ERR_OK
       request_16 (mkWorld idle_record [])
     = Returned CBL_ERR_HAL_WRITE
         (mkWorld idle_record
            (([] ++ [FlashEraseSector 5 3])
             ++ [FlashWrite 134479872 16 0])).
Proof.
  split; [|split].
  - apply (proj1 (proj2
      (C1_early_errors_keep_boot_record nat nat pairs_t (chars "count")
         (chars "cksum") (chars "type") (chars "OK") 1024 134479872 5 3
         pairs_get_val any_ui32 any_cksum any_app_type (fun _ _ _ => CBL_ERR_OK)
         (fun _ _ _ _ => CBL_ERR_OK)
         (fun r w => (CBL_ERR_OK, r)) (fun _ _ => CBL_ERR_OK)
         request_2048 (mkWorld idle_record []))) (chars "2048") 2048%Z).
    + reflexivity.
    + reflexivity.
    + reflexivity.
  - apply (proj1 (proj2 (proj2
      (C1_early_errors_keep_boot_record nat nat pairs_t (chars "count")
         (chars "cksum") (chars "type") (chars "OK") 1024 134479872 5 3
         pairs_get_val any_ui32 any_cksum any_app_type (fun _ _ _ => CBL_ERR_HAL_ERASE)
         (fun _ _ _ _ => CBL_ERR_OK)
         (fun r w => (CBL_ERR_OK, r)) (fun _ _ => CBL_ERR_OK)
         request_16 (mkWorld idle_record [])))) 16%Z 0 0).
    + reflexivity.
    + discriminate.
  - apply (proj1 (proj2 (proj2 (proj2
      (C1_early_errors_keep_boot_record nat nat pairs_t (chars "count")
         (chars "cksum") (chars "type") (chars "OK") 1024 134479872 5 3
         pairs_get_val any_ui32 any_cksum any_app_type (fun _ _ _ => CBL_ERR_OK)
         (fun _ _ _ _ => CBL_ERR_HAL_WRITE)
         (fun r w => (CBL_ERR_OK, r)) (fun _ _ => CBL_ERR_OK)
         request_16 (mkWorld idle_record []))))) 16%Z 0 0).
    + reflexivity.
    + reflexivity.
    + discriminate.
Defined.

(** The request [update-new count=16 type=bin], which has no key for the
    checksum, ends in the read through the null pointer. *)
Lemma C7_missing_cksum_reads_null_witness :
  run_update_new CBL_ERR_OK CBL_ERR_OK CBL_ERR_OK CBL_ERR_OK
    request_no_cksum (mkWorld idle_record [])
  = Undefined.
Proof.
  apply (proj2
    (C7_missing_cksum_reads_null nat nat pairs_t (chars "count") (chars "cksum")
       (chars "type") (chars "OK") 1024 134479872 5 3 pairs_get_val
       any_ui32 any_cksum any_app_type (fun _ _ _ => CBL_ERR_OK)
       (fun _ _ _ _ => CBL_ERR_OK)
       (fun r w => (CBL_ERR_OK, if is_err CBL_ERR_OK then boot_record w else r))
       (fun _ _ => CBL_ERR_OK)
       request_no_cksum (mkWorld idle_record []) (chars "16") 16%Z
       eq_refl eq_refl ltac:(vm_compute; discriminate) eq_refl)).
Defined.

End UpdateNewFacts.

(* ================================================================== *)
(** ** More on the parser of [CustomBootloader.c] *)

Module ParserFacts.
Import CStr CStrFacts Legacy LegacyFacts ShellFacts CmdLine.

#[local] Arguments Ascii.eqb : simpl never.
#[local] Arguments tolower : simpl never.

(** *** Lower case *)

Lemma tolower_special (c : ascii) :
  Ascii.eqb (tolower c) NUL = Ascii.eqb c NUL
  /\ Ascii.eqb (tolower c) " " = Ascii.eqb c " "
  /\ Ascii.eqb (tolower c) "=" = Ascii.eqb c "=".
Proof.
  destruct c as [[] [] [] [] [] [] [] []]; vm_compute; repeat split.
Qed.

Lemma tolower_idem (c : ascii) : tolower (tolower c) = tolower c.
Proof. destruct c as [[] [] [] [] [] [] [] []]; vm_compute; reflexivity. Qed.

Lemma strlwr_idem (s : list ascii) : strlwr (strlwr s) = strlwr s.
Proof.
  induction s as [|c t IH]; [reflexivity|].
  simpl. destruct (Ascii.eqb c NUL) eqn:E.
  - simpl. now rewrite E.
  - simpl. rewrite (proj1 (tolower_special c)), E, tolower_idem. now rewrite IH.
Qed.

Lemma strlwr_length (s : list ascii) : List.length (strlwr s) = List.length s.
Proof.
  induction s as [|c t IH]; [reflexivity|].
  simpl. destruct (Ascii.eqb c NUL); simpl; [reflexivity|now rewrite IH].
Qed.

(** *** Buffer operations *)

Lemma store_length (buf : list ascii) (i : nat) (c : ascii) :
  List.length (store buf i c) = List.length buf.
Proof.
  revert i. induction buf as [|x t IH]; intros i; [reflexivity|].
  destruct i; simpl; [reflexivity|now rewrite IH].
Qed.

Lemma store_firstn (buf : list ascii) (i m : nat) (c : ascii) :
  m <= i -> firstn m (store buf i c) = firstn m buf.
Proof.
  revert i m. induction buf as [|x t IH]; intros i m Hm; [reflexivity|].
  destruct i as [|i]; destruct m as [|m]; simpl; try reflexivity; [lia|].
  now rewrite IH by lia.
Qed.

(** [memchr_from] returns an offset inside the searched range. *)
Lemma memchr_from_range (mem : list ascii) (c : ascii) (n pos r : nat) :
  memchr_from mem c n pos = Some r ->
  pos <= r /\ r < pos + n /\ r < pos + List.length mem.
Proof.
  revert n pos. induction mem as [|x t IH]; intros n pos H.
  - destruct n; discriminate.
  - destruct n as [|n]; [discriminate|]. simpl in H.
    destruct (Ascii.eqb x c).
    + injection H as <-. simpl. lia.
    + apply IH in H. simpl. lia.
Qed.

Lemma memchr_range (buf : list ascii) (start : nat) (c : ascii) (n r : nat) :
  memchr buf start c n = Some r ->
  start <= r /\ r < start + n /\ r < List.length buf.
Proof.
  unfold memchr. intros H. apply memchr_from_range in H.
  rewrite length_skipn in H. lia.
Qed.

Lemma skipn_store (buf : list ascii) (i : nat) (c : ascii) :
  skipn i (store buf i c)
  = match skipn i buf with [] => [] | _ :: t => c :: t end.
Proof.
  revert i. induction buf as [|x t IH]; intros i.
  - destruct i; reflexivity.
  - destruct i as [|i]; simpl; [reflexivity|apply IH].
Qed.

(** A search that starts at a byte just set to the terminator finds its
    byte further on. *)
Lemma memchr_after_store (buf : list ascii) (i : nat) (c : ascii) (n r : nat) :
  Ascii.eqb NUL c = false ->
  memchr (store buf i NUL) i c n = Some r ->
  i < r /\ r < i + n /\ r < List.length buf.
Proof.
  intros Hc H. pose proof (memchr_range _ _ _ _ _ H) as Hr.
  rewrite store_length in Hr. split; [|lia].
  unfold memchr in H. rewrite skipn_store in H.
  destruct (skipn i buf) as [|x t]; [destruct n; discriminate|].
  destruct n as [|n]; [discriminate|]. simpl in H. rewrite Hc in H.
  apply memchr_from_range in H. lia.
Qed.

(** *** Pointers recorded by the loop *)

Lemma parse_args_none (fuel : nat) (buf : list ascii) (len : nat)
  (acc : list (nat * nat)) :
  parse_args fuel buf len None acc = (buf, acc).
Proof. destruct fuel; reflexivity. Qed.

Lemma chain_weaken (lo lo' hi : nat) (l : list (nat * nat)) :
  lo' <= lo -> chain lo l hi -> chain lo' l hi.
Proof.
  destruct l as [|[nm v] t]; simpl; [auto|].
  intros Hlo (H1 & H2 & H3 & H4). repeat split; try lia; assumption.
Qed.

Lemma parse_args_chain (fuel : nat) :
  forall (buf : list ascii) (len : nat) (pSpa : option nat)
         (acc : list (nat * nat)),
  exists extra,
    snd (parse_args fuel buf len pSpa acc) = acc ++ extra
    /\ List.length extra <= fuel
    /\ chain (match pSpa with Some spa => spa | None => 0 end) extra
         (Nat.min len (List.length buf))
    /\ List.length (fst (parse_args fuel buf len pSpa acc))
       = List.length buf.
Proof.
  induction fuel as [|fuel IH]; intros buf len pSpa acc.
  - exists []. simpl. rewrite app_nil_r. repeat split; auto.
  - destruct pSpa as [spa|].
    2:{ exists []. simpl. rewrite app_nil_r. repeat split; auto. lia. }
    simpl. destruct (memchr (store buf spa NUL) spa "=" (len - spa))
      as [equ|] eqn:Eq.
    2:{ exists []. simpl. rewrite app_nil_r, store_length.
        repeat split; auto. lia. }
    apply memchr_after_store in Eq; [|reflexivity].
    destruct (memchr (store (store buf spa NUL) equ NUL) equ " " (len - equ))
      as [spa'|] eqn:Es.
    + apply memchr_after_store in Es; [|reflexivity].
      destruct (IH (store (store buf spa NUL) equ NUL) len (Some spa')
                  (acc ++ [(spa + 1, equ + 1)]))
        as [extra [Ha [Hl [Hc Hb]]]].
      exists ((spa + 1, equ + 1) :: extra).
      rewrite Ha, <- app_assoc, Hb, !store_length. simpl.
      rewrite !store_length in Hc.
      repeat split; try lia.
      apply (chain_weaken spa'); [lia|assumption].
    + rewrite parse_args_none. exists [(spa + 1, equ + 1)].
      simpl. rewrite !store_length. repeat split; lia.
Qed.

Section Parser.

Variable CBL_MAX_ARGS : nat.

(** X1.  Whatever the line, the parser returns [CBL_ERR_OK], records at
    most [CBL_MAX_ARGS] arguments, keeps the length of the buffer, and every
    recorded pointer lies inside the line: each name starts after the first
    byte, each value starts after its name and at most at the terminator
    [cmd[len]], and each next name starts after the previous value. *)
Theorem X1_parser_pointers_in_line (cmd : list ascii) (len : nat) :
  let p := snd (cbl_ParseCmd CBL_MAX_ARGS cmd len) in
  fst (cbl_ParseCmd CBL_MAX_ARGS cmd len) = CBL_ERR_OK
  /\ numOfArgs p <= CBL_MAX_ARGS
  /\ List.length (Legacy.cmd p) = List.length cmd
  /\ chain 0 (args p) (Nat.min len (List.length cmd)).
Proof.
  unfold cbl_ParseCmd, numOfArgs.
  destruct (parse_args_chain CBL_MAX_ARGS (strlwr cmd) len
              (memchr (strlwr cmd) 0 " " len) [])
    as [extra [Ha [Hl [Hc Hb]]]].
  destruct (parse_args CBL_MAX_ARGS (strlwr cmd) len
              (memchr (strlwr cmd) 0 " " len) []) as [buf a].
  simpl in *. subst a. rewrite strlwr_length in *.
  repeat split; try assumption.
  destruct (memchr (strlwr cmd) 0 " " len) as [spa|]; [|assumption].
  clear - Hc. destruct extra as [|[nm v] t]; simpl in *; [auto|].
  destruct Hc as (H1 & H2 & H3 & H4). repeat split; try lia; assumption.
Qed.

End Parser.

(** *** Lines without forbidden bytes *)

Lemma free_of_cons (fb : list ascii) (x : ascii) (t : list ascii) :
  free_of fb (x :: t) = negb (existsb (Ascii.eqb x) fb) && free_of fb t.
Proof. reflexivity. Qed.

Lemma free_of_app (fb a b : list ascii) :
  free_of fb (a ++ b) = free_of fb a && free_of fb b.
Proof. apply forallb_app. Qed.

Lemma free_of_incl (fb fb' s : list ascii) :
  incl fb' fb -> free_of fb s = true -> free_of fb' s = true.
Proof.
  intros Hi. unfold free_of. rewrite !forallb_forall. intros H x Hx.
  specialize (H x Hx). apply negb_true_iff in H. apply negb_true_iff.
  destruct (existsb (Ascii.eqb x) fb') eqn:E; [|reflexivity].
  apply existsb_exists in E as [c [Hc Hxc]].
  assert (existsb (Ascii.eqb x) fb = true) as E'
    by (apply existsb_exists; exists c; split; [now apply Hi|assumption]).
  congruence.
Qed.

Lemma free_of_lower (fb s : list ascii) :
  (forall c x, In c fb -> Ascii.eqb (tolower x) c = Ascii.eqb x c) ->
  free_of fb (lower s) = free_of fb s.
Proof.
  intros H. induction s as [|x t IH]; [reflexivity|].
  unfold lower. simpl map. rewrite !free_of_cons. fold (lower t).
  rewrite IH. f_equal. f_equal. clear IH.
  induction fb as [|c fb IH]; [reflexivity|]. simpl.
  rewrite (H c x) by now left. f_equal.
  apply IH. intros c' x' Hc'. apply H. now right.
Qed.

Lemma special_lower (c x : ascii) :
  In c [NUL; " "%char; "="%char] ->
  Ascii.eqb (tolower x) c = Ascii.eqb x c.
Proof.
  destruct (tolower_special x) as (H0 & H1 & H2).
  intros [<-|[<-|[<-|[]]]]; assumption.
Qed.

Lemma free_single (c x : ascii) (t : list ascii) :
  free_of [c] (x :: t) = true ->
  Ascii.eqb x c = false /\ free_of [c] t = true.
Proof.
  rewrite free_of_cons. simpl. rewrite orb_false_r.
  intros H. apply andb_true_iff in H as [H1 H2].
  now apply negb_true_iff in H1.
Qed.

Lemma free_nul_free (s : list ascii) : free_of [NUL] s = true -> nul_free s.
Proof.
  unfold nul_free. induction s as [|x t IH]; [reflexivity|].
  intros H. apply free_single in H as [Hx Ht]. simpl. rewrite Hx.
  now rewrite IH.
Qed.

Lemma strlwr_free (s : list ascii) :
  free_of [NUL] s = true -> strlwr s = lower s.
Proof.
  induction s as [|x t IH]; [reflexivity|].
  intros H. apply free_single in H as [Hx Ht]. simpl. rewrite Hx.
  now rewrite IH.
Qed.

(** *** Case *)

Lemma store_Forall (P : ascii -> Prop) (buf : list ascii) (i : nat)
  (c : ascii) :
  Forall P buf -> P c -> Forall P (store buf i c).
Proof.
  intros Hb Hc. revert i. induction Hb as [|x t Hx Ht IH]; intros i.
  - constructor.
  - destruct i; simpl; constructor; auto.
Qed.

Lemma parse_args_Forall (P : ascii -> Prop) :
  P NUL ->
  forall (fuel : nat) (buf : list ascii) (len : nat) (pSpa : option nat)
         (acc : list (nat * nat)),
    Forall P buf -> Forall P (fst (parse_args fuel buf len pSpa acc)).
Proof.
  intros H0. induction fuel as [|fuel IH]; intros buf len pSpa acc Hb;
    [now destruct pSpa|].
  destruct pSpa as [spa|]; [|assumption]. cbn [parse_args].
  destruct (memchr (store buf spa NUL) spa "=" (len - spa)) as [equ|].
  - apply IH. now repeat apply store_Forall.
  - cbn [fst]. now apply store_Forall.
Qed.

Lemma until_nul_Forall (P : ascii -> Prop) (l : list ascii) :
  Forall P l -> Forall P (until_nul l).
Proof.
  induction 1 as [|x t Hx Ht IH]; simpl; [constructor|].
  destruct (Ascii.eqb x NUL); constructor; assumption.
Qed.

Lemma skipn_Forall (P : ascii -> Prop) (l : list ascii) (n : nat) :
  Forall P l -> Forall P (skipn n l).
Proof.
  intros H. revert n. induction H as [|x t Hx Ht IH]; intros n.
  - now destruct n.
  - destruct n; simpl; [now constructor|apply IH].
Qed.

Lemma lower_fixed (l : list ascii) :
  Forall (fun c => tolower c = c) l -> lower l = l.
Proof.
  unfold lower. induction 1 as [|x t Hx Ht IH]; simpl; [reflexivity|].
  now rewrite Hx, IH.
Qed.

Lemma lower_is_lower (l : list ascii) :
  Forall (fun c => tolower c = c) (lower l).
Proof.
  unfold lower. induction l as [|x t IH]; simpl; constructor;
    [apply tolower_idem|assumption].
Qed.

(** X2.  The parser does not tell upper case from lower case, in the
    values as little as in the names: every string that can be read from
    the parsed buffer (the command, a name, a value) is in lower case, and
    two lines that differ only in the case of their letters are parsed to
    the same result. *)
Theorem X2_parser_lower_cases_everything
  (CBL_MAX_ARGS : nat) (cmd : list ascii) (len : nat) :
  free_of [NUL] cmd = true ->
  (forall off,
      lower (cstr (Legacy.cmd (snd (cbl_ParseCmd CBL_MAX_ARGS cmd len))) off)
      = cstr (Legacy.cmd (snd (cbl_ParseCmd CBL_MAX_ARGS cmd len))) off)
  /\ (forall cmd',
         free_of [NUL] cmd' = true ->
         lower cmd' = lower cmd ->
         cbl_ParseCmd CBL_MAX_ARGS cmd' len
         = cbl_ParseCmd CBL_MAX_ARGS cmd len).
Proof.
  intros Hnul. split.
  - intros off. apply lower_fixed. unfold cstr.
    apply until_nul_Forall, skipn_Forall.
    unfold cbl_ParseCmd. rewrite strlwr_free by assumption.
    pose proof (parse_args_Forall (fun c => tolower c = c) eq_refl
                  CBL_MAX_ARGS (lower cmd) len
                  (memchr (lower cmd) 0 " " len) [] (lower_is_lower cmd))
      as H.
    now destruct (parse_args _ _ _ _ _).
  - intros cmd' Hnul' Hsame. unfold cbl_ParseCmd.
    now rewrite !strlwr_free, Hsame by assumption.
Qed.


Lemma memchr_from_hit (a : list ascii) (c : ascii) (b : list ascii) :
  forall n pos,
    free_of [c] a = true ->
    List.length a < n ->
    memchr_from (a ++ c :: b) c n pos = Some (pos + List.length a).
Proof.
  induction a as [|x t IH]; intros n pos Hf Hn.
  - destruct n; [simpl in Hn; lia|]. simpl. rewrite Ascii.eqb_refl.
    now rewrite Nat.add_0_r.
  - apply free_single in Hf as [Hx Ht].
    destruct n; [simpl in Hn; lia|]. simpl in *. rewrite Hx.
    rewrite IH by (assumption || lia). f_equal. lia.
Qed.

Lemma memchr_from_miss (mem : list ascii) (c : ascii) :
  forall n pos, free_of [c] mem = true -> memchr_from mem c n pos = None.
Proof.
  induction mem as [|x t IH]; intros n pos Hf; [destruct n; reflexivity|].
  apply free_single in Hf as [Hx Ht].
  destruct n; [reflexivity|]. simpl. rewrite Hx. now apply IH.
Qed.

Lemma skipn_app_length (a b : list ascii) : skipn (List.length a) (a ++ b) = b.
Proof. induction a; simpl; auto. Qed.

(** *** The loop on a well-formed line *)

(** Lengths of concatenations. *)
Ltac list_len :=
  repeat first [rewrite length_app | rewrite length_cons | progress simpl];
  try lia.

Lemma pair_ok_inv (k v : list ascii) :
  pair_ok (k, v) = true ->
  free_of ["="%char] k = true /\ free_of [NUL] k = true
  /\ free_of [" "%char] v = true /\ free_of [NUL] v = true.
Proof.
  unfold pair_ok, key_ok, val_ok. simpl. intros H.
  apply andb_true_iff in H as [Hk Hv].
  repeat split;
    (eapply free_of_incl; [|eassumption]); intros c [<-|[]]; simpl; auto.
Qed.

Lemma tokens_head (t : list (list ascii * list ascii)) :
  t = [] \/ exists R, tokens t = " "%char :: R.
Proof. destruct t as [|[k v] t]; [now left|right]. simpl. eauto. Qed.

Lemma tokens0_head (t : list (list ascii * list ascii)) :
  tokens0 t = [] \/ exists R, tokens0 t = NUL :: R.
Proof. destruct t as [|[k v] t]; [now left|right]. simpl. eauto. Qed.

Lemma tokens_length (ps : list (list ascii * list ascii)) :
  List.length (tokens0 ps) = List.length (tokens ps).
Proof.
  induction ps as [|[k v] t IH]; [reflexivity|].
  simpl. rewrite !length_app. simpl. rewrite !length_app. now rewrite IH.
Qed.

(** On the text [ k1=v1 k2=v2 ...] placed after [pre], with room for all
    its arguments, the loop replaces each separator by the terminator and
    records the pointers of [offsets]. *)
Lemma parse_args_tokens (ps : list (list ascii * list ascii)) :
  forall (fuel : nat) (pre : list ascii) (acc : list (nat * nat)),
    List.length ps <= fuel ->
    forallb pair_ok ps = true ->
    parse_args fuel (pre ++ tokens ps) (List.length (pre ++ tokens ps))
      (match ps with [] => None | _ => Some (List.length pre) end) acc
    = (pre ++ tokens0 ps, acc ++ offsets (List.length pre) ps).
Proof.
  induction ps as [|[k v] t IH]; intros fuel pre acc Hfuel Hok.
  - rewrite parse_args_none. simpl. now rewrite !app_nil_r.
  - destruct fuel as [|fuel]; [simpl in Hfuel; lia|].
    simpl in Hok. apply andb_true_iff in Hok as [Hkv Hok].
    apply pair_ok_inv in Hkv as (Hk1 & Hk0 & Hv1 & Hv0).
    set (len := List.length (pre ++ tokens ((k, v) :: t))).
    assert (len = List.length pre + S (List.length k)
                  + S (List.length v) + List.length (tokens t)) as Hlen.
    { unfold len. list_len. }
    simpl tokens. cbn [parse_args].
    replace (pre ++ (" "%char :: k) ++ ("="%char :: v) ++ tokens t)
      with (pre ++ " "%char :: (k ++ "="%char :: v ++ tokens t))
      by reflexivity.
    rewrite store_app_length.
    (* the search for '=' *)
    assert (memchr (pre ++ NUL :: k ++ "="%char :: v ++ tokens t)
              (List.length pre) "=" (len - List.length pre)
            = Some (List.length pre + S (List.length k))) as Eq.
    { unfold memchr. rewrite skipn_app_length.
      change (NUL :: k ++ "="%char :: v ++ tokens t)
        with ((NUL :: k) ++ "="%char :: v ++ tokens t).
      apply memchr_from_hit.
      - rewrite free_of_cons. now rewrite Hk1.
      - simpl. lia. }
    rewrite Eq.
    replace (pre ++ NUL :: k ++ "="%char :: v ++ tokens t)
      with ((pre ++ NUL :: k) ++ "="%char :: v ++ tokens t)
      by (now rewrite <- app_assoc).
    replace (List.length pre + S (List.length k))
      with (List.length (pre ++ NUL :: k))
      by (rewrite length_app; reflexivity).
    rewrite store_app_length.
    set (pre' := (pre ++ NUL :: k) ++ NUL :: v).
    assert (List.length pre'
            = List.length pre + S (List.length k) + S (List.length v))
      as Hpre'.
    { unfold pre'. list_len. }
    (* the search for the next space *)
    assert (memchr ((pre ++ NUL :: k) ++ NUL :: v ++ tokens t)
              (List.length (pre ++ NUL :: k)) " "
              (len - List.length (pre ++ NUL :: k))
            = match t with [] => None | _ => Some (List.length pre') end)
      as Es.
    { unfold memchr. rewrite skipn_app_length.
      destruct t as [|[k' v'] t'].
      - simpl tokens. rewrite app_nil_r. apply memchr_from_miss.
        rewrite free_of_cons. now rewrite Hv1.
      - simpl tokens.
        rewrite app_comm_cons, memchr_from_hit.
        + f_equal. unfold pre'. list_len.
        + rewrite free_of_cons. now rewrite Hv1.
        + rewrite Hlen. list_len. }
    rewrite Es.
    replace ((pre ++ NUL :: k) ++ NUL :: v ++ tokens t)
      with (pre' ++ tokens t)
      by (unfold pre'; now rewrite <- !app_assoc).
    replace len with (List.length (pre' ++ tokens t))
      by (rewrite length_app, Hpre'; lia).
    rewrite IH by (simpl in Hfuel; lia || assumption).
    f_equal.
    + unfold pre'. simpl. now rewrite <- !app_assoc.
    + rewrite <- app_assoc. simpl. rewrite Hpre'. rewrite length_app.
      simpl. reflexivity.
Qed.

(** In the parsed text the strings at the pointers of [offsets] are the
    names and values. *)
Lemma read_tokens0 (ps : list (list ascii * list ascii)) :
  forall (pre : list ascii) (i : nat) (k v : list ascii),
    forallb pair_ok ps = true ->
    nth_error ps i = Some (k, v) ->
    exists nm vl,
      nth_error (offsets (List.length pre) ps) i = Some (nm, vl)
      /\ cstr (pre ++ tokens0 ps) nm = k
      /\ cstr (pre ++ tokens0 ps) vl = v.
Proof.
  induction ps as [|[k0 v0] t IH]; intros pre i k v Hok Hi.
  - destruct i; discriminate.
  - simpl in Hok. apply andb_true_iff in Hok as [Hkv Hok].
    pose proof (pair_ok_inv _ _ Hkv) as (Hk1 & Hk0 & Hv1 & Hv0).
    destruct i as [|i].
    + injection Hi as <- <-. simpl offsets. simpl nth_error.
      eexists. eexists. split; [reflexivity|]. unfold cstr. split.
      * replace (pre ++ tokens0 ((k0, v0) :: t))
          with ((pre ++ [NUL]) ++ k0 ++ NUL :: v0 ++ tokens0 t)
          by (simpl; now rewrite <- app_assoc).
        replace (List.length pre + 1) with (List.length (pre ++ [NUL]))
          by (rewrite length_app; reflexivity).
        rewrite skipn_app_length.
        now apply until_nul_app_nul, free_nul_free.
      * replace (pre ++ tokens0 ((k0, v0) :: t))
          with ((pre ++ NUL :: k0 ++ [NUL]) ++ v0 ++ tokens0 t)
          by (simpl; rewrite <- !app_assoc; simpl;
              now rewrite <- app_assoc).
        replace (List.length pre + S (List.length k0) + 1)
          with (List.length (pre ++ NUL :: k0 ++ [NUL]))
          by list_len.
        rewrite skipn_app_length.
        destruct (tokens0_head t) as [E|[R E]]; rewrite E.
        -- rewrite app_nil_r. now apply free_nul_free.
        -- now apply until_nul_app_nul, free_nul_free.
    + simpl in Hi.
      destruct (IH ((pre ++ NUL :: k0) ++ NUL :: v0) i k v Hok Hi)
        as [nm [vl [Hn [Hk Hv]]]].
      exists nm, vl. simpl offsets. simpl nth_error.
      replace (List.length pre + S (List.length k0) + S (List.length v0))
        with (List.length ((pre ++ NUL :: k0) ++ NUL :: v0))
        by list_len.
      replace (pre ++ tokens0 ((k0, v0) :: t))
        with (((pre ++ NUL :: k0) ++ NUL :: v0) ++ tokens0 t)
        by (simpl; now rewrite <- !app_assoc).
      auto.
Qed.

Lemma offsets_length (ps : list (list ascii * list ascii)) :
  forall base, List.length (offsets base ps) = List.length ps.
Proof.
  induction ps as [|[k v] t IH]; intros base; [reflexivity|].
  simpl. now rewrite IH.
Qed.

Lemma lower_tokens (ps : list (list ascii * list ascii)) :
  lower (tokens ps) = tokens (map lower_pair ps).
Proof.
  induction ps as [|[k v] t IH]; [reflexivity|].
  unfold lower in *. simpl. rewrite !map_app. simpl. rewrite map_app.
  now rewrite IH.
Qed.

Lemma tokens_free (ps : list (list ascii * list ascii)) :
  forallb pair_ok ps = true -> free_of [NUL] (tokens ps) = true.
Proof.
  induction ps as [|[k v] t IH]; [reflexivity|].
  simpl. intros H. apply andb_true_iff in H as [Hkv Hok].
  apply pair_ok_inv in Hkv as (Hk1 & Hk0 & Hv1 & Hv0).
  rewrite free_of_app, free_of_cons, Hk0. simpl.
  rewrite free_of_app, Hv0. simpl. now apply IH.
Qed.

Lemma pairs_ok_lower (ps : list (list ascii * list ascii)) :
  forallb pair_ok ps = true -> forallb pair_ok (map lower_pair ps) = true.
Proof.
  induction ps as [|[k v] t IH]; [reflexivity|].
  simpl. intros H. apply andb_true_iff in H as [Hkv Hok].
  rewrite IH by assumption. rewrite andb_true_r.
  unfold pair_ok, lower_pair, key_ok, val_ok in *. simpl in *.
  rewrite !free_of_lower; [assumption| |];
    intros c x Hc; apply special_lower; simpl in *; tauto.
Qed.

Section WellFormed.

Variable CBL_MAX_ARGS : nat.
Variable name : list ascii.
Variable ps : list (list ascii * list ascii).

Hypothesis name_wf : name_ok name = true.
Hypothesis pairs_wf : forallb pair_ok ps = true.
Hypothesis pairs_fit : List.length ps <= CBL_MAX_ARGS.

(** The parser state for the line [name k1=v1 ... kn=vn]. *)
Lemma parse_line :
  cbl_ParseCmd CBL_MAX_ARGS (line name ps) (List.length (line name ps))
  = (CBL_ERR_OK,
     mkParser (lower name ++ tokens0 (map lower_pair ps))
       (List.length (line name ps))
       (offsets (List.length (lower name)) (map lower_pair ps))).
Proof.
  assert (free_of [NUL] name = true) as Hn0
    by (eapply free_of_incl; [|exact name_wf]; intros c [<-|[]];
        simpl; auto).
  assert (free_of [" "%char] (lower name) = true) as Hn1.
  { rewrite free_of_lower
      by (intros c x Hc; apply special_lower; simpl in *; tauto).
    eapply free_of_incl; [|exact name_wf]. intros c [<-|[]]; simpl; auto. }
  assert (strlwr (line name ps) = lower name ++ tokens (map lower_pair ps))
    as Hlow.
  { rewrite strlwr_free.
    - unfold line, lower. rewrite map_app. fold (lower (tokens ps)).
      now rewrite lower_tokens.
    - unfold line. rewrite free_of_app, Hn0. now apply tokens_free. }
  assert (List.length (line name ps)
          = List.length (lower name ++ tokens (map lower_pair ps))) as Hlen
    by (now rewrite <- Hlow, strlwr_length).
  unfold cbl_ParseCmd. rewrite Hlow, Hlen.
  assert (memchr (lower name ++ tokens (map lower_pair ps)) 0 " "
            (List.length (lower name ++ tokens (map lower_pair ps)))
          = match map lower_pair ps with
            | [] => None
            | _ => Some (List.length (lower name))
            end) as Es.
  { unfold memchr. simpl skipn.
    destruct (tokens_head (map lower_pair ps)) as [E|[R E]].
    - rewrite E. simpl. rewrite app_nil_r. now apply memchr_from_miss.
    - rewrite E. rewrite memchr_from_hit; [|assumption|list_len].
      destruct (map lower_pair ps); [discriminate E|reflexivity]. }
  rewrite Es.
  rewrite parse_args_tokens;
    [reflexivity|now rewrite length_map|now apply pairs_ok_lower].
Qed.

(** X3.  A well-formed line [name k1=v1 ... kn=vn] with at most
    [CBL_MAX_ARGS] arguments is parsed into exactly its parts, in lower
    case: the command name, [n] arguments, and for each argument its name
    and its value (the text after the first [=] of the token). *)
Theorem X3_parser_reads_well_formed_line :
  let p :=
    snd (cbl_ParseCmd CBL_MAX_ARGS (line name ps)
           (List.length (line name ps))) in
  cstr (Legacy.cmd p) 0 = lower name
  /\ numOfArgs p = List.length ps
  /\ (forall i k v,
         nth_error ps i = Some (k, v) ->
         arg_name p i = Some (lower k) /\ arg_val p i = Some (lower v)).
Proof.
  rewrite parse_line. simpl. split; [|split].
  - unfold cstr. simpl skipn.
    assert (nul_free (lower name)) as Hn.
    { apply free_nul_free.
      rewrite free_of_lower
        by (intros c x Hc; apply special_lower; simpl in *; tauto).
      eapply free_of_incl; [|exact name_wf].
      intros c [<-|[]]; simpl; auto. }
    destruct (tokens0_head (map lower_pair ps)) as [E|[R E]]; rewrite E.
    + now rewrite app_nil_r.
    + now apply until_nul_app_nul.
  - unfold numOfArgs. simpl. now rewrite offsets_length, length_map.
  - intros i k v Hi. unfold arg_name, arg_val. simpl.
    destruct (read_tokens0 (map lower_pair ps) (lower name) i
                (lower k) (lower v) (pairs_ok_lower ps pairs_wf))
      as [nm [vl [Hn [Hk Hv]]]].
    { rewrite nth_error_map, Hi. reflexivity. }
    rewrite Hn. simpl. now rewrite Hk, Hv.
Qed.

(** X4.  Parsing a well-formed line and then looking up a key returns the
    value of the first argument with that key (compared in lower case), and
    [NULL] for a key that no argument of the line has. *)
Theorem X4_lookup_after_parse :
  let p :=
    snd (cbl_ParseCmd CBL_MAX_ARGS (line name ps)
           (List.length (line name ps))) in
  (forall i k v,
      nth_error ps i = Some (k, v) ->
      (forall j kj vj, j < i -> nth_error ps j = Some (kj, vj) ->
                       lower kj <> lower k) ->
      exists ptr,
        cbl_ParserGetArgVal p (lower k) (strlen (lower k)) = Some ptr
        /\ cstr (Legacy.cmd p) ptr = lower v)
  /\ (forall key,
         nul_free key ->
         (forall j kj vj, nth_error ps j = Some (kj, vj) ->
                          lower kj <> key) ->
         cbl_ParserGetArgVal p key (strlen key) = None).
Proof.
  rewrite parse_line. simpl. unfold cbl_ParserGetArgVal. simpl.
  pose proof (pairs_ok_lower ps pairs_wf) as Hok.
  assert (forall j nm' v',
             nth_error (offsets (List.length (lower name))
                          (map lower_pair ps)) j = Some (nm', v') ->
             exists kj vj,
               nth_error ps j = Some (kj, vj)
               /\ cstr (lower name ++ tokens0 (map lower_pair ps)) nm'
                  = lower kj) as Hback.
  { intros j nm' v' Hj.
    destruct (nth_error ps j) as [[kj vj]|] eqn:E.
    - exists kj, vj. split; [reflexivity|].
      destruct (read_tokens0 (map lower_pair ps) (lower name) j
                  (lower kj) (lower vj) Hok) as [nm [vl [Hn [Hk Hv]]]].
      { rewrite nth_error_map, E. reflexivity. }
      rewrite Hn in Hj. injection Hj as <- <-. exact Hk.
    - exfalso. apply nth_error_None in E.
      assert (nth_error (offsets (List.length (lower name))
                           (map lower_pair ps)) j <> None) as Hne
        by congruence.
      apply nth_error_Some in Hne.
      rewrite offsets_length, length_map in Hne. lia. }
  split.
  - intros i k v Hi Hfirst.
    destruct (read_tokens0 (map lower_pair ps) (lower name) i
                (lower k) (lower v) Hok) as [nm [vl [Hn [Hk Hv]]]].
    { rewrite nth_error_map, Hi. reflexivity. }
    exists vl. split; [|exact Hv].
    assert (nul_free (lower k)) as Hkf
      by (rewrite <- Hk; apply nul_free_cstr).
    unfold strlen. rewrite Hkf.
    apply (get_arg_from_first _ _ _ Hkf i nm vl Hn Hk).
    intros j nm' v' Hj Hnth.
    destruct (Hback j nm' v' Hnth) as [kj [vj [Hpj Hcj]]].
    rewrite Hcj. exact (Hfirst j kj vj Hj Hpj).
  - intros key Hkf Hnone. unfold strlen. rewrite Hkf.
    apply get_arg_from_none; [assumption|].
    intros j nm' v' Hnth.
    destruct (Hback j nm' v' Hnth) as [kj [vj [Hpj Hcj]]].
    rewrite Hcj. exact (Hnone j kj vj Hpj).
Qed.

End WellFormed.

(** *** The command name of any line *)

Lemma parse_args_prefix (fuel : nat) :
  forall (buf : list ascii) (len : nat) (pSpa : option nat)
         (acc : list (nat * nat)) (m : nat),
    (forall spa, pSpa = Some spa -> m <= spa) ->
    firstn m (fst (parse_args fuel buf len pSpa acc)) = firstn m buf.
Proof.
  induction fuel as [|fuel IH]; intros buf len pSpa acc m Hm; [reflexivity|].
  destruct pSpa as [spa|]; [|reflexivity].
  specialize (Hm spa eq_refl). simpl.
  destruct (memchr (store buf spa NUL) spa "=" (len - spa)) as [equ|] eqn:Eq.
  - apply memchr_after_store in Eq; [|reflexivity].
    rewrite IH.
    + rewrite !store_firstn by lia. reflexivity.
    + intros spa' Es. apply memchr_after_store in Es; [|reflexivity]. lia.
  - simpl. now rewrite store_firstn.
Qed.

Lemma memchr_from_split (mem : list ascii) (c : ascii) :
  forall n pos r,
    memchr_from mem c n pos = Some r ->
    exists a b,
      mem = a ++ c :: b /\ r = pos + List.length a /\ free_of [c] a = true.
Proof.
  induction mem as [|x t IH]; intros n pos r H; [destruct n; discriminate|].
  destruct n as [|n]; [discriminate|]. simpl in H.
  destruct (Ascii.eqb x c) eqn:E.
  - injection H as <-. apply Ascii.eqb_eq in E. subst x.
    exists [], t. simpl. repeat split. lia.
  - apply IH in H as [a [b [-> [-> Hf]]]].
    exists (x :: a), b. split; [reflexivity|]. split; [simpl; lia|].
    rewrite free_of_cons. simpl. now rewrite E, Hf.
Qed.

Lemma memchr_from_none_free (mem : list ascii) (c : ascii) :
  forall n pos,
    memchr_from mem c n pos = None ->
    List.length mem <= n ->
    free_of [c] mem = true.
Proof.
  induction mem as [|x t IH]; intros n pos H Hn; [reflexivity|].
  destruct n as [|n]; [simpl in Hn; lia|]. simpl in H, Hn.
  destruct (Ascii.eqb x c) eqn:E; [discriminate|].
  rewrite free_of_cons. simpl. rewrite E. simpl.
  apply (IH n (S pos)); [assumption|lia].
Qed.

Lemma first_word_free (l : list ascii) :
  free_of [" "%char] l = true -> first_word l = l.
Proof.
  induction l as [|x t IH]; [reflexivity|].
  intros H. apply free_single in H as [Hx Ht]. simpl. rewrite Hx.
  now rewrite IH.
Qed.

Lemma first_word_app (a b : list ascii) :
  free_of [" "%char] a = true -> first_word (a ++ " "%char :: b) = a.
Proof.
  induction a as [|x t IH]; [reflexivity|].
  intros H. apply free_single in H as [Hx Ht]. simpl. rewrite Hx.
  now rewrite IH.
Qed.

Lemma first_word_lower (l : list ascii) :
  first_word (lower l) = lower (first_word l).
Proof.
  induction l as [|x t IH]; [reflexivity|].
  unfold lower in *. simpl.
  rewrite (proj1 (proj2 (tolower_special x))).
  destruct (Ascii.eqb x " "); [reflexivity|]. simpl. now rewrite IH.
Qed.

(** X5.  Whatever follows the first space, the command name that the
    parser leaves at the start of the buffer is the lower-cased text before
    the first space of the line (the whole line when it holds no space). *)
Theorem X5_command_name_is_first_word
  (CBL_MAX_ARGS : nat) (cmd : list ascii) :
  1 <= CBL_MAX_ARGS ->
  free_of [NUL] cmd = true ->
  cstr (Legacy.cmd (snd (cbl_ParseCmd CBL_MAX_ARGS cmd (List.length cmd)))) 0
  = lower (first_word cmd).
Proof.
  intros Hmax Hnul. unfold cbl_ParseCmd. rewrite (strlwr_free cmd Hnul).
  assert (free_of [NUL] (lower cmd) = true) as Hlow.
  { rewrite free_of_lower; [assumption|].
    intros c x Hc; apply special_lower; simpl in *; tauto. }
  rewrite <- first_word_lower.
  assert (List.length cmd = List.length (lower cmd)) as ->
    by (unfold lower; now rewrite length_map).
  revert Hlow. generalize (lower cmd). clear cmd Hnul. intros buf Hnul.
  destruct (memchr buf 0 " " (List.length buf)) as [spa|] eqn:Es.
  - unfold memchr in Es. simpl skipn in Es.
    apply memchr_from_split in Es as [a [b [-> [-> Hfree]]]]. simpl.
    rewrite free_of_app in Hnul. apply andb_true_iff in Hnul as [Ha _].
    rewrite first_word_app by assumption.
    destruct CBL_MAX_ARGS as [|fuel]; [lia|].
    set (r := parse_args (S fuel) (a ++ " "%char :: b)
                (List.length (a ++ " "%char :: b))
                (Some (List.length a)) []).
    assert (firstn (S (List.length a)) (fst r) = a ++ [NUL]) as Hpre.
    { unfold r. cbn [parse_args]. rewrite store_app_length.
      destruct (memchr (a ++ NUL :: b) (List.length a) "="
                  (List.length (a ++ " "%char :: b) - List.length a))
        as [equ|] eqn:Eq.
      - pose proof Eq as Eq'.
        rewrite <- (store_app_length a " " NUL b) in Eq'.
        apply memchr_after_store in Eq'; [|reflexivity].
        rewrite parse_args_prefix.
        + rewrite store_firstn by lia.
          replace (S (List.length a)) with (List.length (a ++ [NUL]))
            by list_len.
          replace (a ++ NUL :: b) with ((a ++ [NUL]) ++ b)
            by (now rewrite <- app_assoc).
          now rewrite firstn_app, Nat.sub_diag, firstn_all, app_nil_r.
        + intros spa' Es'.
          apply memchr_after_store in Es'; [|reflexivity]. lia.
      - simpl fst.
        replace (S (List.length a)) with (List.length (a ++ [NUL]))
          by list_len.
        replace (a ++ NUL :: b) with ((a ++ [NUL]) ++ b)
          by (now rewrite <- app_assoc).
        now rewrite firstn_app, Nat.sub_diag, firstn_all, app_nil_r. }
    clearbody r. destruct r as [buf' args']. cbn [fst snd Legacy.cmd] in *.
    unfold cstr. cbn [skipn].
    rewrite <- (firstn_skipn (S (List.length a)) buf'), Hpre.
    rewrite <- app_assoc. simpl.
    now apply until_nul_app_nul, free_nul_free.
  - rewrite parse_args_none. simpl. unfold cstr. simpl skipn.
    unfold memchr in Es. simpl skipn in Es.
    apply memchr_from_none_free in Es; [|lia].
    rewrite first_word_free by assumption.
    now apply free_nul_free.
Qed.

(** *** The theorems on a concrete line *)

(** [Jump-To ADDR=0X08000000] is parsed like its lower-case form, and
    the value is read back as [0x08000000]. *)
Lemma X2_parser_lower_cases_everything_witness :
  lower (cstr (Legacy.cmd
                 (snd (cbl_ParseCmd 10 (chars "Jump-To ADDR=0X08000000") 23)))
           13)
  = cstr (Legacy.cmd
            (snd (cbl_ParseCmd 10 (chars "Jump-To ADDR=0X08000000") 23))) 13
  /\ cbl_ParseCmd 10 (chars "jump-to addr=0x08000000") 23
     = cbl_ParseCmd 10 (chars "Jump-To ADDR=0X08000000") 23.
Proof.
  pose proof (X2_parser_lower_cases_everything 10
                (chars "Jump-To ADDR=0X08000000") 23 eq_refl) as [H1 H2].
  exact (conj (H1 13)
           (H2 (chars "jump-to addr=0x08000000") eq_refl eq_refl)).
Defined.

(** [Flash-Erase type=sector SECTOR=2 count=3 Type=mass] *)
Lemma X3_parser_reads_well_formed_line_witness :
  cstr (Legacy.cmd
          (snd (cbl_ParseCmd 10 (line demo_name demo_pairs)
                  (List.length (line demo_name demo_pairs))))) 0
  = lower demo_name
  /\ arg_name
       (snd (cbl_ParseCmd 10 (line demo_name demo_pairs)
               (List.length (line demo_name demo_pairs)))) 1
     = Some (lower (chars "SECTOR"))
  /\ arg_val
       (snd (cbl_ParseCmd 10 (line demo_name demo_pairs)
               (List.length (line demo_name demo_pairs)))) 1
     = Some (lower (chars "2")).
Proof.
  assert (List.length demo_pairs <= 10) as Hfit by (simpl; lia).
  pose proof (X3_parser_reads_well_formed_line 10 demo_name demo_pairs
                eq_refl eq_refl Hfit) as H.
  cbv zeta in H. destruct H as (Hname & _ & Hargs).
  split; [exact Hname|].
  exact (Hargs 1 (chars "SECTOR") (chars "2") eq_refl).
Defined.

(** The key [type] occurs twice; the lookup yields the first value. *)
Lemma X4_lookup_after_parse_witness :
  (exists ptr,
      cbl_ParserGetArgVal
        (snd (cbl_ParseCmd 10 (line demo_name demo_pairs)
                (List.length (line demo_name demo_pairs))))
        (lower (chars "type")) (strlen (lower (chars "type"))) = Some ptr
      /\ cstr (Legacy.cmd
                 (snd (cbl_ParseCmd 10 (line demo_name demo_pairs)
                         (List.length (line demo_name demo_pairs))))) ptr
         = lower (chars "sector"))
  /\ cbl_ParserGetArgVal
       (snd (cbl_ParseCmd 10 (line demo_name demo_pairs)
               (List.length (line demo_name demo_pairs))))
       (chars "addr") (strlen (chars "addr")) = None.
Proof.
  assert (List.length demo_pairs <= 10) as Hfit by (simpl; lia).
  pose proof (X4_lookup_after_parse 10 demo_name demo_pairs
                eq_refl eq_refl Hfit) as H.
  cbv zeta in H. destruct H as (Hfirst & Hnone). split.
  - apply (Hfirst 0 (chars "type") (chars "sector") eq_refl).
    intros j kj vj Hj. inversion Hj.
  - apply (Hnone (chars "addr") eq_refl).
    intros j kj vj Hj.
    destruct j as [|[|[|[|j]]]]; simpl in Hj;
      try (injection Hj as <- <-; vm_compute; discriminate).
    destruct j; discriminate.
Defined.

(** The line [HELP me now], with room for one argument. *)
Lemma X5_command_name_is_first_word_witness :
  cstr (Legacy.cmd
          (snd (cbl_ParseCmd 1 (chars "HELP me now")
                  (List.length (chars "HELP me now"))))) 0
  = lower (first_word (chars "HELP me now")).
Proof.
  apply X5_command_name_is_first_word; [lia|reflexivity].
Defined.

End ParserFacts.

(* ================================================================== *)
(** ** The handlers of [CustomBootloader.c]: calls made on each path *)

Module HandlerTraces.
Import CStr CStrFacts Legacy LegacyFacts.

Lemma send_cases (HAL_UART_Transmit : list ascii -> hal_log -> HAL_StatusTypeDef)
  (buf : list ascii) (w : hal_log) :
  (HAL_UART_Transmit buf w = HAL_OK
   /\ cbl_SendToHost HAL_UART_Transmit buf w
      = (CBL_ERR_OK, w ++ [UART_Transmit buf]))
  \/ (HAL_UART_Transmit buf w <> HAL_OK
      /\ cbl_SendToHost HAL_UART_Transmit buf w
         = (CBL_ERR_HAL_TX, w ++ [UART_Transmit buf])).
Proof.
  unfold cbl_SendToHost.
  destruct (HAL_UART_Transmit buf w);
    [left|right|right|right]; (split; [|reflexivity]);
    (reflexivity || discriminate).
Qed.

Section EraseTraces.

Variable FLASH_SECTOR_TOTAL : c_const.
Variable CBL_TXT_SUCCESS : list ascii.
Variable HAL_UART_Transmit : list ascii -> hal_log -> HAL_StatusTypeDef.
Variable HAL_FLASH_Unlock : hal_log -> HAL_StatusTypeDef.
Variable HAL_FLASHEx_Erase :
  FLASH_EraseInitTypeDef -> hal_log -> HAL_StatusTypeDef * Z.

Lemma erase_settings_error (p : CBL_Parser_t) (e : cbl_err_code_t) :
  erase_settings FLASH_SECTOR_TOTAL p = inl e ->
  e = CBL_ERR_NEED_PARAM \/ e = CBL_ERR_INV_SECT
  \/ e = CBL_ERR_INV_SECT_COUNT \/ e = CBL_ERR_ERASE_INV_TYPE.
Proof.
  unfold erase_settings.
  repeat match goal with
         | |- context [match ?x with _ => _ end] => destruct x
         end;
    intros H; (discriminate H || (injection H as <-; auto)).
Qed.

Lemma erase_flash_added (s : FLASH_EraseInitTypeDef) (w : hal_log) :
  exists l,
    snd (erase_flash CBL_TXT_SUCCESS HAL_UART_Transmit HAL_FLASH_Unlock
           HAL_FLASHEx_Erase s w) = w ++ l
    /\ forall s', In (FLASHEx_Erase s') l -> s' = s.
Proof.
  unfold erase_flash.
  destruct (HAL_FLASH_Unlock w).
  2-4: exists [FLASH_Unlock]; split; [reflexivity|];
    intros s' [H|[]]; discriminate H.
  destruct (HAL_FLASHEx_Erase s (w ++ [FLASH_Unlock])) as [hc sc].
  assert (forall s',
             In (FLASHEx_Erase s')
               [FLASH_Unlock; FLASHEx_Erase s; FLASH_Lock;
                UART_Transmit CBL_TXT_SUCCESS] -> s' = s) as Hall.
  { intros s' [H|[H|[H|[H|[]]]]]; try discriminate H. now injection H. }
  destruct hc.
  2-4: exists [FLASH_Unlock; FLASHEx_Erase s; FLASH_Lock];
    rewrite <- app_assoc; split; [reflexivity|];
    intros s' H; apply Hall; simpl in *; tauto.
  destruct (sc =? 4294967295)%Z.
  - exists [FLASH_Unlock; FLASHEx_Erase s; FLASH_Lock;
            UART_Transmit CBL_TXT_SUCCESS].
    rewrite send_log, <- !app_assoc. split; [reflexivity|exact Hall].
  - exists [FLASH_Unlock; FLASHEx_Erase s; FLASH_Lock].
    rewrite <- app_assoc; split; [reflexivity|].
    intros s' H; apply Hall; simpl in *; tauto.
Qed.

(** X6.  The flash-erase handler makes its hardware calls in one of four
    shapes and the returned code tells which: nothing at all when an
    argument is rejected; the unlock alone when the unlock fails; unlock,
    erase, lock when the erase fails; unlock, erase, lock and the success
    text when the erase succeeded.  So the flash is locked again whenever it
    was unlocked, and [CBL_ERR_OK] is returned only after an erase that the
    hardware reported as successful. *)
Theorem X6_flash_erase_call_sequences (p : CBL_Parser_t) (w : hal_log) :
  let r :=
    cbl_HandleCmdFlashErase FLASH_SECTOR_TOTAL CBL_TXT_SUCCESS
      HAL_UART_Transmit HAL_FLASH_Unlock HAL_FLASHEx_Erase p w in
  (exists e,
      erase_settings FLASH_SECTOR_TOTAL p = inl e /\ r = (e, w)
      /\ (e = CBL_ERR_NEED_PARAM \/ e = CBL_ERR_INV_SECT
          \/ e = CBL_ERR_INV_SECT_COUNT \/ e = CBL_ERR_ERASE_INV_TYPE))
  \/ (exists s,
         erase_settings FLASH_SECTOR_TOTAL p = inr s
         /\ ((HAL_FLASH_Unlock w <> HAL_OK
              /\ r = (CBL_ERR_HAL_UNLOCK, w ++ [FLASH_Unlock]))
             \/ (exists e,
                    (e = CBL_ERR_HAL_ERASE \/ e = CBL_ERR_SECTOR)
                    /\ HAL_FLASHEx_Erase s (w ++ [FLASH_Unlock])
                       <> (HAL_OK, 4294967295%Z)
                    /\ r = (e, w ++ [FLASH_Unlock; FLASHEx_Erase s;
                                     FLASH_Lock]))
             \/ (exists e,
                    (e = CBL_ERR_OK \/ e = CBL_ERR_HAL_TX)
                    /\ HAL_FLASHEx_Erase s (w ++ [FLASH_Unlock])
                       = (HAL_OK, 4294967295%Z)
                    /\ r = (e, w ++ [FLASH_Unlock; FLASHEx_Erase s;
                                     FLASH_Lock;
                                     UART_Transmit CBL_TXT_SUCCESS])))).
Proof.
  unfold cbl_HandleCmdFlashErase.
  destruct (erase_settings FLASH_SECTOR_TOTAL p) as [e|s] eqn:Es.
  - left. exists e. repeat split. now apply (erase_settings_error p).
  - right. exists s. split; [reflexivity|]. unfold erase_flash.
    destruct (HAL_FLASH_Unlock w) eqn:Eu;
      try (left; split; [discriminate|reflexivity]).
    right.
    destruct (HAL_FLASHEx_Erase s (w ++ [FLASH_Unlock])) as [hc sc] eqn:Ee.
    rewrite <- !app_assoc. simpl.
    destruct hc;
      try (left; exists CBL_ERR_HAL_ERASE;
           split; [auto|split; [intros H; discriminate H|reflexivity]]).
    destruct (sc =? 4294967295)%Z eqn:Esc.
    + apply Z.eqb_eq in Esc. subst sc. right.
      destruct (send_cases HAL_UART_Transmit CBL_TXT_SUCCESS
                  (w ++ [FLASH_Unlock; FLASHEx_Erase s; FLASH_Lock]))
        as [[_ Hs]|[_ Hs]]; rewrite Hs, <- app_assoc; simpl;
        [exists CBL_ERR_OK|exists CBL_ERR_HAL_TX]; auto.
    + apply Z.eqb_neq in Esc. left. exists CBL_ERR_SECTOR.
      split; [auto|split; [|reflexivity]].
      intros H. injection H as H. contradiction.
Qed.

(** X7.  Every sector erase that the handler requests from the hardware lies
    inside the flash: the first sector is below [FLASH_SECTOR_TOTAL] and so
    is the last one, whether the constant is signed or unsigned. *)
Theorem X7_erase_requests_within_flash
  (p : CBL_Parser_t) (w : hal_log) (sect count : Z) :
  (0 <= c_val FLASH_SECTOR_TOTAL)%Z ->
  In (FLASHEx_Erase (TYPEERASE_SECTORS sect count))
    (snd (cbl_HandleCmdFlashErase FLASH_SECTOR_TOTAL CBL_TXT_SUCCESS
            HAL_UART_Transmit HAL_FLASH_Unlock HAL_FLASHEx_Erase p w)) ->
  ~ In (FLASHEx_Erase (TYPEERASE_SECTORS sect count)) w ->
  (0 <= sect < c_val FLASH_SECTOR_TOTAL)%Z
  /\ (0 <= count < 256)%Z
  /\ (sect + count <= c_val FLASH_SECTOR_TOTAL)%Z.
Proof.
  intros Htot Hin Hnew.
  assert (erase_settings FLASH_SECTOR_TOTAL p
          = inr (TYPEERASE_SECTORS sect count)) as Hs.
  { unfold cbl_HandleCmdFlashErase in Hin.
    destruct (erase_settings FLASH_SECTOR_TOTAL p) as [e|s];
      [contradiction|].
    destruct (erase_flash_added s w) as (l & Hl & Hall).
    rewrite Hl in Hin. apply in_app_iff in Hin as [Hin|Hin];
      [contradiction|].
    now rewrite (Hall _ Hin). }
  clear Hin Hnew. revert Hs. unfold erase_settings.
  destruct (cbl_ParserGetArgVal p _ _) as [type|]; [|discriminate].
  destruct (is_type p type CBL_TXTCMD_FLASH_ERASE_TYPE_SECT).
  - destruct (cbl_ParserGetArgVal p CBL_TXTCMD_FLASH_ERASE_SECT _)
      as [cs|]; [|discriminate].
    destruct (c_ge (sector_arg p cs) FLASH_SECTOR_TOTAL) eqn:E1;
      [discriminate|].
    destruct (cbl_ParserGetArgVal p CBL_TXTCMD_FLASH_ERASE_COUNT _)
      as [cc|]; [|discriminate].
    destruct (c_ge (sector_arg p cs + sector_arg p cc - 1)
                FLASH_SECTOR_TOTAL) eqn:E2; [discriminate|].
    intros H. injection H as <- <-.
    pose proof (sector_arg_range p cs) as R1.
    pose proof (sector_arg_range p cc) as R2.
    unfold c_ge, uint32 in E1, E2. unfold c_val in *.
    destruct FLASH_SECTOR_TOTAL as [v|v].
    + apply Z.leb_gt in E1, E2. lia.
    + apply Z.leb_gt in E1, E2.
      rewrite Z.mod_small in E1 by lia.
      destruct (Z.eq_dec (sector_arg p cs + sector_arg p cc) 0) as [Hz|Hz].
      * lia.
      * rewrite Z.mod_small in E2 by lia. lia.
  - destruct (is_type p type CBL_TXTCMD_FLASH_ERASE_TYPE_MASS); discriminate.
Qed.

End EraseTraces.

Section JumpTraces.

Variables IS_FLASH_ADDRESS IS_CCMDATARAM_ADDRESS IS_SRAM1_ADDRESS
  IS_SRAM2_ADDRESS IS_BKPSRAM_ADDRESS IS_SYSMEM_ADDRESS : Z -> bool.
Variable CBL_TXT_SUCCESS : list ascii.
Variable HAL_UART_Transmit : list ascii -> hal_log -> HAL_StatusTypeDef.

Local Abbreviation verify :=
  (cbl_VerifyJumpAddress IS_FLASH_ADDRESS IS_CCMDATARAM_ADDRESS
     IS_SRAM1_ADDRESS IS_SRAM2_ADDRESS IS_BKPSRAM_ADDRESS IS_SYSMEM_ADDRESS).
Local Abbreviation jump_to :=
  (cbl_HandleCmdJumpTo IS_FLASH_ADDRESS IS_CCMDATARAM_ADDRESS
     IS_SRAM1_ADDRESS IS_SRAM2_ADDRESS IS_BKPSRAM_ADDRESS IS_SYSMEM_ADDRESS
     CBL_TXT_SUCCESS HAL_UART_Transmit).
Local Abbreviation lookup p key := (cbl_ParserGetArgVal p key (strlen key)).

(** X8.  The jump target is the requested address plus one, so it carries
    the Thumb bit exactly when the requested address is even: for an odd
    address the increment clears bit 0.  The success text has been sent
    exactly once before the jump, and when an accepted address is followed by
    a failed transmission the handler returns [CBL_ERR_HAL_TX] instead of
    jumping. *)
Theorem X8_jump_target_parity (p : CBL_Parser_t) (w : hal_log) :
  (forall target w',
      cbl_HandleCmdJumpTo IS_FLASH_ADDRESS IS_CCMDATARAM_ADDRESS
        IS_SRAM1_ADDRESS IS_SRAM2_ADDRESS IS_BKPSRAM_ADDRESS
        IS_SYSMEM_ADDRESS CBL_TXT_SUCCESS HAL_UART_Transmit p w
      = Jumped target w' ->
      exists charAddr,
        lookup p CBL_TXTCMD_JUMP_TO_ADDR = Some charAddr
        /\ Z.odd target = Z.even (jump_addr p charAddr)
        /\ HAL_UART_Transmit CBL_TXT_SUCCESS w = HAL_OK
        /\ w' = w ++ [UART_Transmit CBL_TXT_SUCCESS])
  /\ (forall charAddr,
         lookup p CBL_TXTCMD_JUMP_TO_ADDR = Some charAddr ->
         verify (jump_addr p charAddr) = CBL_ERR_OK ->
         HAL_UART_Transmit CBL_TXT_SUCCESS w <> HAL_OK ->
         jump_to p w
         = Returned CBL_ERR_HAL_TX (w ++ [UART_Transmit CBL_TXT_SUCCESS])).
Proof.
  unfold cbl_HandleCmdJumpTo. split.
  - intros target w' H.
    destruct (lookup p CBL_TXTCMD_JUMP_TO_ADDR) as [charAddr|]; [|discriminate].
    exists charAddr. split; [reflexivity|].
    destruct (is_err (verify (jump_addr p charAddr))); [discriminate|].
    destruct (send_cases HAL_UART_Transmit CBL_TXT_SUCCESS w) as [[Hok Hs]|[Hok Hs]];
      rewrite Hs in H; simpl in H; [|discriminate].
    injection H as <- <-. repeat split; [|assumption].
    unfold uint32 at 1. rewrite <- Z.bit0_odd.
    rewrite Z.mod_pow2_bits_low by lia.
    now rewrite Z.bit0_odd, Z.add_1_r, Z.odd_succ.
  - intros charAddr -> Hv Hs. rewrite Hv. simpl.
    destruct (send_cases HAL_UART_Transmit CBL_TXT_SUCCESS w) as [[Hok Hs']|[Hok Hs']];
      [contradiction|]. now rewrite Hs'.
Qed.

End JumpTraces.

(** *** The theorems on concrete requests *)

(** With 12 sectors, [sector=2 count=3] is erased: sectors 2 to 4. *)
Lemma X7_erase_requests_within_flash_witness :
  (0 <= 2 < c_val (IntConst 12))%Z /\ (0 <= 3 < 256)%Z
  /\ (2 + 3 <= c_val (IntConst 12))%Z.
Proof.
  assert (0 <= c_val (IntConst 12))%Z as H0 by (simpl; lia).
  assert (In (FLASHEx_Erase (TYPEERASE_SECTORS 2 3))
            (snd (cbl_HandleCmdFlashErase (IntConst 12) (chars "OK") uart_ok
                    unlock_ok erase_ok
                    (parsed "flash-erase type=sector sector=2 count=3") [])))
    as H1 by (vm_compute; auto).
  assert (~ In (FLASHEx_Erase (TYPEERASE_SECTORS 2 3)) []) as H2
    by (intros []).
  exact (X7_erase_requests_within_flash (IntConst 12) (chars "OK") uart_ok
           unlock_ok erase_ok
           (parsed "flash-erase type=sector sector=2 count=3") [] 2 3
           H0 H1 H2).
Defined.

(** [jump-to addr=0x08004001] names an odd address of the flash: the jump
    goes to the even address [0x08004002].  On a link that is down the same
    request returns [CBL_ERR_HAL_TX]. *)
Lemma X8_jump_target_parity_witness :
  (exists charAddr,
      cbl_ParserGetArgVal (parsed "jump-to addr=0x08004001")
        CBL_TXTCMD_JUMP_TO_ADDR (strlen CBL_TXTCMD_JUMP_TO_ADDR)
      = Some charAddr
      /\ Z.odd 134234114
         = Z.even (jump_addr (parsed "jump-to addr=0x08004001") charAddr)
      /\ uart_ok (chars "OK") [] = HAL_OK
      /\ [UART_Transmit (chars "OK")] = [] ++ [UART_Transmit (chars "OK")])
  /\ cbl_HandleCmdJumpTo f407_flash f407_ccm f407_sram1 f407_sram2
       f407_bkpsram f407_sysmem (chars "OK") LegacyEnv.uart_down
       (parsed "jump-to addr=0x08004001") []
     = Returned CBL_ERR_HAL_TX ([] ++ [UART_Transmit (chars "OK")]).
Proof.
  split.
  - assert (cbl_HandleCmdJumpTo f407_flash f407_ccm f407_sram1 f407_sram2
              f407_bkpsram f407_sysmem (chars "OK") uart_ok
              (parsed "jump-to addr=0x08004001") []
            = Jumped 134234114 [UART_Transmit (chars "OK")]) as H
      by (vm_compute; reflexivity).
    exact (proj1 (X8_jump_target_parity f407_flash f407_ccm f407_sram1
                    f407_sram2 f407_bkpsram f407_sysmem (chars "OK") uart_ok
                    (parsed "jump-to addr=0x08004001") [])
             134234114%Z [UART_Transmit (chars "OK")] H).
  - assert (cbl_ParserGetArgVal (parsed "jump-to addr=0x08004001")
              CBL_TXTCMD_JUMP_TO_ADDR (strlen CBL_TXTCMD_JUMP_TO_ADDR)
            = Some 13) as H1 by (vm_compute; reflexivity).
    assert (cbl_VerifyJumpAddress f407_flash f407_ccm f407_sram1 f407_sram2
              f407_bkpsram f407_sysmem
              (jump_addr (parsed "jump-to addr=0x08004001") 13)
            = CBL_ERR_OK) as H2 by (vm_compute; reflexivity).
    assert (LegacyEnv.uart_down (chars "OK") [] <> HAL_OK) as H3
      by (intros H; discriminate H).
    exact (proj2 (X8_jump_target_parity f407_flash f407_ccm f407_sram1
                    f407_sram2 f407_bkpsram f407_sysmem (chars "OK")
                    LegacyEnv.uart_down
                    (parsed "jump-to addr=0x08004001") [])
             13 H1 H2 H3).
Defined.

End HandlerTraces.

(* ================================================================== *)
(** ** The command read of [custom_bootloader.c] on any host stream *)

Module ShellMore.
Import CStr CStrFacts Shell ShellFacts.

#[local] Arguments Ascii.eqb : simpl never.

Lemma store_app_l (buf guard : list ascii) (i : nat) (c : ascii) :
  i < List.length buf -> store (buf ++ guard) i c = store buf i c ++ guard.
Proof.
  revert i. induction buf as [|x t IH]; intros i Hi; [simpl in Hi; lia|].
  destruct i as [|i]; simpl; [reflexivity|].
  simpl in Hi. now rewrite IH by lia.
Qed.

Lemma store_same_length (buf : list ascii) (i : nat) (c : ascii) :
  List.length (store buf i c) = List.length buf.
Proof.
  revert i. induction buf as [|x t IH]; intros i; [reflexivity|].
  destruct i; simpl; [reflexivity|now rewrite IH].
Qed.

Section ShellMore.

Variable hal_send_to_host_status :
  list ascii -> list hal_call -> cbl_err_code_t.
Variable hal_recv_from_host_start_status : list hal_call -> cbl_err_code_t.
Variable CBL_process_cmd :
  list ascii -> nat -> world -> run (cbl_err_code_t * world).

(** *** Writes stay inside the buffer *)

Lemma wait_loop_frame (len : nat) (guard : list ascii) :
  forall (rx : list ascii) (i : nat) (b : bool) (buf : list ascii)
         (log : list hal_call) e buf' x,
    List.length buf = len ->
    wait_loop hal_recv_from_host_start_status rx len i i b (buf ++ guard) log
    = Ret (e, buf', x) ->
    exists inside, buf' = inside ++ guard /\ List.length inside = len.
Proof.
  induction rx as [|c rx' IH]; intros i b buf log e buf' x Hlen H;
    simpl in H; destruct (i <? len) eqn:Ei;
    try (injection H as _ <- _; now exists buf).
  - destruct (is_err (hal_recv_from_host_start_status log));
      [|discriminate].
    injection H as _ <- _. now exists buf.
  - apply Nat.ltb_lt in Ei.
    destruct (is_err (hal_recv_from_host_start_status log)).
    { injection H as _ <- _. now exists buf. }
    rewrite store_app_l in H by lia.
    destruct (b && Ascii.eqb LF c).
    + injection H as _ <- _.
      rewrite store_app_l by (rewrite store_same_length; lia).
      eexists. split; [reflexivity|].
      now rewrite !store_same_length.
    + apply IH in H; [assumption|now rewrite store_same_length].
Qed.

(** X9.  Reading a command never writes outside the buffer: with a buffer
    of [len] bytes followed in memory by any bytes [guard], the read stores
    inside the first [len] bytes only and leaves [guard] as it was, whatever
    the host sends and whatever the link reports. *)
Theorem X9_wait_for_cmd_stays_in_buffer
  (buf guard : list ascii) (len : nat) (w : world)
  (e : cbl_err_code_t) (buf' : list ascii) (w' : world) :
  List.length buf = len ->
  wait_for_cmd hal_send_to_host_status hal_recv_from_host_start_status
    (buf ++ guard) len w = Ret (e, buf', w') ->
  exists inside, buf' = inside ++ guard /\ List.length inside = len.
Proof.
  intros Hlen H. unfold wait_for_cmd, hal_send_to_host in H.
  cbn [hal_log host_rx gIsExitReq] in H.
  destruct (is_err (hal_send_to_host_status (CRLF ++ chars "> ") (hal_log w))).
  - injection H as _ <- _. now exists buf.
  - destruct (wait_loop hal_recv_from_host_start_status (host_rx w) len 0 0
                false (buf ++ guard)
                (hal_log w ++ [SendToHost (CRLF ++ chars "> ")]))
      as [[[e1 b1] [rx1 log1]]|] eqn:Ew; [|discriminate].
    injection H as _ <- _.
    now apply (wait_loop_frame len guard) in Ew.
Qed.

(** *** Use of the link *)

Lemma wait_loop_usage (len : nat) :
  forall (rx : list ascii) (i : nat) (b : bool) (buf : list ascii)
         (log : list hal_call) e buf' rx' log',
    wait_loop hal_recv_from_host_start_status rx len i i b buf log
    = Ret (e, buf', (rx', log')) ->
    exists k consumed,
      log' = log ++ repeat RecvFromHostStart k
      /\ i + k <= Nat.max i len
      /\ rx = consumed ++ rx'
      /\ List.length consumed <= k <= S (List.length consumed)
      /\ (e = CBL_ERR_OK ->
          List.length consumed = k
          /\ exists line,
               consumed = line ++ [LF]
               /\ ((b = true /\ line = [])
                   \/ exists l0, line = l0 ++ [CR])).
Proof.
  assert (forall (rx : list ascii) (i : nat) (b : bool)
                 (log : list hal_call) (e : cbl_err_code_t),
             i < len -> e <> CBL_ERR_OK ->
             exists k consumed,
               log ++ [RecvFromHostStart]
               = log ++ repeat RecvFromHostStart k
               /\ i + k <= Nat.max i len
               /\ rx = consumed ++ rx
               /\ List.length consumed <= k <= S (List.length consumed)
               /\ (e = CBL_ERR_OK ->
                   List.length consumed = k
                   /\ exists line,
                        consumed = line ++ [LF]
                        /\ ((b = true /\ line = [])
                            \/ exists l0, line = l0 ++ [CR]))) as Hfail.
  { intros rx i b log e Hi He. exists 1, [].
    split; [reflexivity|]. split; [lia|]. split; [reflexivity|].
    split; [simpl; lia|]. intros E. contradiction. }
  assert (forall (rx : list ascii) (i : nat) (b : bool)
                 (log : list hal_call),
             exists k consumed,
               log = log ++ repeat RecvFromHostStart k
               /\ i + k <= Nat.max i len
               /\ rx = consumed ++ rx
               /\ List.length consumed <= k <= S (List.length consumed)
               /\ (CBL_ERR_READ_OF = CBL_ERR_OK ->
                   List.length consumed = k
                   /\ exists line,
                        consumed = line ++ [LF]
                        /\ ((b = true /\ line = [])
                            \/ exists l0, line = l0 ++ [CR]))) as Hfull.
  { intros rx i b log. exists 0, [].
    split; [simpl; now rewrite app_nil_r|]. split; [lia|].
    split; [reflexivity|]. split; [simpl; lia|]. intros E. discriminate E. }
  induction rx as [|c rx' IH]; intros i b buf log e buf' rx1 log1 H;
    simpl in H; destruct (i <? len) eqn:Ei.
  - destruct (is_err (hal_recv_from_host_start_status log)) eqn:Er;
      [|discriminate].
    injection H as <- _ <- <-. apply Nat.ltb_lt in Ei.
    apply is_err_true in Er. now apply Hfail.
  - injection H as <- _ <- <-. apply Hfull.
  - apply Nat.ltb_lt in Ei.
    destruct (is_err (hal_recv_from_host_start_status log)) eqn:Er.
    { injection H as <- _ <- <-. apply is_err_true in Er.
      now apply Hfail. }
    destruct (b && Ascii.eqb LF c) eqn:Eb.
    + injection H as <- _ <- <-.
      apply andb_true_iff in Eb as [-> Ec].
      apply Ascii.eqb_eq in Ec. subst c.
      exists 1, [LF]. split; [reflexivity|]. split; [lia|].
      split; [reflexivity|]. split; [simpl; lia|]. intros _.
      split; [reflexivity|]. exists []. split; [reflexivity|]. now left.
    + apply IH in H as (k & consumed & -> & Hk & -> & Hc & Hok).
      exists (S k), (c :: consumed). rewrite <- app_assoc.
      split; [reflexivity|]. split; [lia|]. split; [reflexivity|].
      split; [simpl; lia|]. intros E.
      destruct (Hok E) as (Hl & line & -> & Hline).
      split; [simpl; lia|].
      exists (c :: line). split; [reflexivity|].
      right. destruct Hline as [[Hcr ->]|[l0 ->]].
      * apply Ascii.eqb_eq in Hcr. subst c. now exists [].
      * now exists (c :: l0).
  - injection H as <- _ <- <-. apply Hfull.
Qed.

(** X11.  Whenever the command read returns, it has sent the prompt exactly
    once and then only started receptions, at most [len] of them; it has
    taken a prefix of the host's bytes, one byte per started reception (a
    last start that failed takes none); it has not touched the exit request;
    and it returns [CBL_ERR_OK] only when the bytes taken end with CR LF. *)
Theorem X11_wait_for_cmd_link_usage
  (buf : list ascii) (len : nat) (w : world)
  (e : cbl_err_code_t) (buf' : list ascii) (w' : world) :
  wait_for_cmd hal_send_to_host_status hal_recv_from_host_start_status
    buf len w = Ret (e, buf', w') ->
  gIsExitReq w' = gIsExitReq w
  /\ exists k consumed,
       hal_log w'
       = hal_log w ++ SendToHost prompt :: repeat RecvFromHostStart k
       /\ k <= len
       /\ host_rx w = consumed ++ host_rx w'
       /\ List.length consumed <= k <= S (List.length consumed)
       /\ (e = CBL_ERR_OK ->
           exists line, consumed = line ++ [CR; LF]
                        /\ S (S (List.length line)) = k).
Proof.
  intros H. unfold wait_for_cmd, hal_send_to_host in H.
  cbn [hal_log host_rx gIsExitReq] in H.
  change (CRLF ++ chars "> ") with prompt in H.
  destruct (is_err (hal_send_to_host_status prompt (hal_log w))) eqn:Es.
  - injection H as <- _ <-. split; [reflexivity|].
    exists 0, []. cbn [hal_log host_rx].
    split; [reflexivity|]. split; [lia|]. split; [reflexivity|].
    split; [simpl; lia|].
    apply is_err_true in Es. intros E. contradiction.
  - destruct (wait_loop hal_recv_from_host_start_status (host_rx w) len 0 0
                false buf (hal_log w ++ [SendToHost prompt]))
      as [[[e1 b1] [rx1 log1]]|] eqn:Ew; [|discriminate].
    injection H as <- _ <-. split; [reflexivity|].
    apply wait_loop_usage in Ew as (k & consumed & -> & Hk & Hrx & Hc & Hok).
    exists k, consumed. cbn [hal_log host_rx].
    rewrite <- app_assoc.
    split; [reflexivity|]. split; [lia|]. split; [assumption|].
    split; [assumption|].
    intros E. destruct (Hok E) as (Hl & line & -> & Hline).
    destruct Hline as [[Hf _]|[l0 ->]]; [discriminate|].
    exists l0. rewrite <- app_assoc. split; [reflexivity|].
    rewrite <- Hl, !length_app. simpl. lia.
Qed.

(** *** When the read does not return *)

Lemma wait_loop_blocks (len : nat) :
  (forall l, hal_recv_from_host_start_status l = CBL_ERR_OK) ->
  forall (rx : list ascii) (i : nat) (b : bool) (buf : list ascii)
         (log : list hal_call),
    List.length rx < len - i ->
    crlf_from b rx = false ->
    wait_loop hal_recv_from_host_start_status rx len i i b buf log
    = NoReturn.
Proof.
  intros Hrecv.
  induction rx as [|c rx' IH]; intros i b buf log Hlen Hno; simpl;
    (assert ((i <? len) = true) as -> by (apply Nat.ltb_lt; lia));
    rewrite Hrecv; cbn [is_err]; [reflexivity|].
  simpl in Hno. apply orb_false_iff in Hno as [-> Hrest].
  apply IH; [simpl in Hlen; lia|assumption].
Qed.

Lemma wait_loop_returns (len : nat) :
  (forall l, hal_recv_from_host_start_status l = CBL_ERR_OK) ->
  forall (rx : list ascii) (i : nat) (b : bool) (buf : list ascii)
         (log : list hal_call),
    len - i <= List.length rx
    \/ crlf_from b (firstn (len - i) rx) = true ->
    exists r,
      wait_loop hal_recv_from_host_start_status rx len i i b buf log = Ret r.
Proof.
  intros Hrecv.
  induction rx as [|c rx' IH]; intros i b buf log H; simpl;
    destruct (i <? len) eqn:Ei; try (eexists; reflexivity);
    apply Nat.ltb_lt in Ei; rewrite Hrecv; cbn [is_err].
  - destruct H as [H|H]; [simpl in H; lia|].
    rewrite firstn_nil in H. discriminate H.
  - destruct (b && Ascii.eqb LF c) eqn:Eb; [eexists; reflexivity|].
    apply IH.
    replace (len - i) with (S (len - S i)) in H by lia.
    destruct H as [H|H]; [left; simpl in H; lia|right].
    simpl in H. now rewrite Eb in H.
Qed.

(** X10.  On a working link the command read blocks for ever exactly when
    the host stops sending before a CR LF and before the buffer is full:
    there is no time-out. *)
Theorem X10_wait_for_cmd_blocks_iff
  (buf : list ascii) (len : nat) (rx : list ascii) (log : list hal_call)
  (exit_req : bool) :
  (forall l, hal_recv_from_host_start_status l = CBL_ERR_OK) ->
  hal_send_to_host_status prompt log = CBL_ERR_OK ->
  wait_for_cmd hal_send_to_host_status hal_recv_from_host_start_status
    buf len (mkWorld rx log exit_req) = NoReturn
  <-> List.length rx < len /\ has_crlf rx = false.
Proof.
  intros Hrecv Hsend. unfold wait_for_cmd, hal_send_to_host.
  cbn [hal_log host_rx gIsExitReq].
  change (CRLF ++ chars "> ") with prompt. rewrite Hsend. cbn [is_err].
  split.
  - intros H.
    destruct (Nat.lt_ge_cases (List.length rx) len) as [Hl|Hl].
    + split; [assumption|].
      destruct (has_crlf rx) eqn:Ec; [|reflexivity].
      destruct (wait_loop_returns len Hrecv rx 0 false buf
                  (log ++ [SendToHost prompt])) as [[[e1 b1] [rx1 l1]] Hr].
      { right. rewrite Nat.sub_0_r, firstn_all2 by lia.
        now rewrite <- has_crlf_from. }
      rewrite Hr in H. discriminate H.
    + destruct (wait_loop_returns len Hrecv rx 0 false buf
                  (log ++ [SendToHost prompt])) as [[[e1 b1] [rx1 l1]] Hr].
      { left. lia. }
      rewrite Hr in H. discriminate H.
  - intros [Hl Hc].
    rewrite (wait_loop_blocks len Hrecv); [reflexivity|lia|].
    now rewrite <- has_crlf_from.
Qed.

(** *** The code that the shell returns *)

Lemma shell_iter_finished (n : nat) (r : shell_result) :
  (exists e w, r = Finished e w) ->
  shell_iter hal_send_to_host_status hal_recv_from_host_start_status
    CBL_process_cmd n r = Ret r.
Proof. intros (e & w & ->). now destruct n. Qed.

Lemma shell_iter_exit_code :
  forall (n : nat) (s : sys_states_t) (e : cbl_err_code_t) (w : world) e' w',
    shell_iter hal_send_to_host_status hal_recv_from_host_start_status
      CBL_process_cmd n (Running s e w) = Ret (Finished e' w') ->
    exists w0,
      e' = hal_send_to_host_status (chars "Exiting" ++ CRLF ++ CRLF)
             (hal_log w0)
      /\ w' = mkWorld (host_rx w0)
                (hal_log w0 ++ [SendToHost (chars "Exiting" ++ CRLF ++ CRLF)])
                (gIsExitReq w0).
Proof.
  induction n as [|n IH]; intros s e w e' w' H; [discriminate H|].
  cbn [shell_iter] in H. destruct s; cbn [shell_step] in H.
  - destruct (sys_state_operation hal_send_to_host_status
                hal_recv_from_host_start_status CBL_process_cmd w)
      as [[e1 w1]|]; [|discriminate].
    destruct (is_err e1); [now apply IH in H|].
    destruct (gIsExitReq w1); now apply IH in H.
  - destruct (sys_state_error hal_send_to_host_status e w) as [e1 w1].
    destruct (is_err e1); now apply IH in H.
  - unfold hal_send_to_host in H.
    rewrite shell_iter_finished in H by (eexists; eexists; reflexivity).
    injection H as <- <-. now exists w.
Qed.

Lemma sys_state_error_unhandled (e : cbl_err_code_t) (w : world) :
  has_case e = false ->
  sys_state_error hal_send_to_host_status e w = (e, w) /\ is_err e = true.
Proof. destruct e; intros H; try discriminate H; split; reflexivity. Qed.

(** X12.  The code that [run_shell_system] returns is the status of sending
    the exit message, not the error that ended the shell.  In particular an
    error code without a case in the error state ends the shell on the next
    two passes, and the shell then returns whatever the transmission of
    the exit message reports: [CBL_ERR_OK] on a working link. *)
Theorem X12_shell_returns_status_of_exit_message :
  (forall n e w e' w',
      run_shell_system hal_send_to_host_status
        hal_recv_from_host_start_status CBL_process_cmd n e w
      = Ret (Finished e' w') ->
      exists w0,
        e' = hal_send_to_host_status (chars "Exiting" ++ CRLF ++ CRLF)
               (hal_log w0)
        /\ w' = mkWorld (host_rx w0)
                  (hal_log w0
                   ++ [SendToHost (chars "Exiting" ++ CRLF ++ CRLF)])
                  (gIsExitReq w0))
  /\ (forall n e w,
         has_case e = false ->
         run_shell_system hal_send_to_host_status
           hal_recv_from_host_start_status CBL_process_cmd (S (S n)) e w
         = Ret (Finished
                  (hal_send_to_host_status (chars "Exiting" ++ CRLF ++ CRLF)
                     (hal_log w))
                  (mkWorld (host_rx w)
                     (hal_log w
                      ++ [SendToHost (chars "Exiting" ++ CRLF ++ CRLF)])
                     (gIsExitReq w)))).
Proof.
  split.
  - intros n e w e' w' H. now apply shell_iter_exit_code in H.
  - intros n e w Hc. unfold run_shell_system.
    destruct (sys_state_error_unhandled e w Hc) as [He Herr].
    cbn [shell_iter shell_step]. rewrite He, Herr.
    cbn [shell_iter shell_step]. unfold hal_send_to_host.
    apply shell_iter_finished. eexists; eexists; reflexivity.
Qed.

End ShellMore.

(** *** The theorems on concrete host streams *)

(** Eight letters without a line end, read into a buffer of four bytes that
    is followed by the bytes [guard]. *)
Lemma X9_wait_for_cmd_stays_in_buffer_witness :
  exists inside,
    chars "abcdguard" = inside ++ chars "guard" /\ List.length inside = 4.
Proof.
  assert (List.length (repeat NUL 4) = 4) as H1 by reflexivity.
  assert (wait_for_cmd send_ok recv_ok (repeat NUL 4 ++ chars "guard") 4
            (mkWorld (chars "abcdefgh") [] false)
          = Ret (CBL_ERR_READ_OF, chars "abcdguard",
                 mkWorld (chars "efgh")
                   (SendToHost prompt :: repeat RecvFromHostStart 4) false))
    as H2 by (vm_compute; reflexivity).
  exact (X9_wait_for_cmd_stays_in_buffer send_ok recv_ok (repeat NUL 4)
           (chars "guard") 4 (mkWorld (chars "abcdefgh") [] false)
           CBL_ERR_READ_OF (chars "abcdguard")
           (mkWorld (chars "efgh")
              (SendToHost prompt :: repeat RecvFromHostStart 4) false)
           H1 H2).
Defined.

(** The host sends [hel] and stops. *)
Lemma X10_wait_for_cmd_blocks_iff_witness :
  wait_for_cmd send_ok recv_ok (repeat NUL CMD_BUF_SZ) CMD_BUF_SZ
    (mkWorld (chars "hel") [] false) = NoReturn.
Proof.
  assert (List.length (chars "hel") < CMD_BUF_SZ
          /\ has_crlf (chars "hel") = false) as H
    by (split; [unfold CMD_BUF_SZ; simpl; lia|reflexivity]).
  exact (proj2 (X10_wait_for_cmd_blocks_iff send_ok recv_ok
                  (repeat NUL CMD_BUF_SZ) CMD_BUF_SZ (chars "hel") [] false
                  (fun _ => eq_refl) eq_refl) H).
Defined.

(** The host sends [help], CR, LF and a further [x]. *)
Lemma X11_wait_for_cmd_link_usage_witness :
  exists k consumed,
    SendToHost prompt :: repeat RecvFromHostStart 6
    = [] ++ SendToHost prompt :: repeat RecvFromHostStart k
    /\ k <= 8
    /\ chars "help" ++ CR :: LF :: chars "x" = consumed ++ chars "x"
    /\ List.length consumed <= k <= S (List.length consumed)
    /\ (CBL_ERR_OK = CBL_ERR_OK ->
        exists line, consumed = line ++ [CR; LF]
                     /\ S (S (List.length line)) = k).
Proof.
  assert (wait_for_cmd send_ok recv_ok (repeat NUL 8) 8
            (mkWorld (chars "help" ++ CR :: LF :: chars "x") [] false)
          = Ret (CBL_ERR_OK, chars "help" ++ [NUL; LF; NUL; NUL],
                 mkWorld (chars "x")
                   (SendToHost prompt :: repeat RecvFromHostStart 6) false))
    as H by (vm_compute; reflexivity).
  exact (proj2 (X11_wait_for_cmd_link_usage send_ok recv_ok (repeat NUL 8) 8
                  (mkWorld (chars "help" ++ CR :: LF :: chars "x") [] false)
                  CBL_ERR_OK (chars "help" ++ [NUL; LF; NUL; NUL])
                  (mkWorld (chars "x")
                     (SendToHost prompt :: repeat RecvFromHostStart 6) false)
                  H)).
Defined.

(** The shell is entered with [CBL_ERR_CMDCD], which has no case in the
    error state: it ends and returns [CBL_ERR_OK]. *)
Lemma X12_shell_returns_status_of_exit_message_witness :
  run_shell_system send_ok recv_ok jump_only 2 CBL_ERR_CMDCD
    (mkWorld [] [] false)
  = Ret (Finished CBL_ERR_OK
           (mkWorld []
              ([] ++ [SendToHost (chars "Exiting" ++ CRLF ++ CRLF)]) false))
  /\ exists w0,
       CBL_ERR_OK = send_ok (chars "Exiting" ++ CRLF ++ CRLF) (hal_log w0)
       /\ mkWorld [] [SendToHost (chars "Exiting" ++ CRLF ++ CRLF)] false
          = mkWorld (host_rx w0)
              (hal_log w0 ++ [SendToHost (chars "Exiting" ++ CRLF ++ CRLF)])
              (gIsExitReq w0).
Proof.
  pose proof (X12_shell_returns_status_of_exit_message send_ok recv_ok
                jump_only) as [H1 H2].
  assert (run_shell_system send_ok recv_ok jump_only 2 CBL_ERR_CMDCD
            (mkWorld [] [] false)
          = Ret (Finished CBL_ERR_OK
                   (mkWorld []
                      [SendToHost (chars "Exiting" ++ CRLF ++ CRLF)] false)))
    as Hrun by exact (H2 0 CBL_ERR_CMDCD (mkWorld [] [] false) eq_refl).
  split; [exact Hrun|].
  exact (H1 2 CBL_ERR_CMDCD (mkWorld [] [] false) CBL_ERR_OK
           (mkWorld [] [SendToHost (chars "Exiting" ++ CRLF ++ CRLF)] false)
           Hrun).
Defined.

End ShellMore.

(* ================================================================== *)
(** ** The update-new handler: what precedes a write, a store, a restart *)

Module UpdateNewMore.
Import CStr UpdateNew UpdateNewEnv.

Section UpdateNewMore.

Variables cksum_t app_type_t parser_t : Set.
Variables TXT_PAR_UP_NEW_COUNT TXT_PAR_CKSUM TXT_PAR_APP_TYPE TXT_SUCCESS
  : list ascii.
Variables BOOT_NEW_APP_MAX_LEN BOOT_NEW_APP_START BOOT_NEW_APP_START_SECTOR
  BOOT_NEW_APP_MAX_SECTORS : Z.
Variable parser_get_val : parser_t -> list ascii -> nat -> option (list ascii).
Variable str2ui32 : list ascii -> nat -> Z -> cbl_err_code_t * Z.
Variable enum_checksum :
  option (list ascii) -> nat -> cbl_err_code_t * cksum_t.
Variable enum_app_type : list ascii -> nat -> cbl_err_code_t * app_type_t.
Variable hal_flash_erase_sector_status :
  Z -> Z -> world cksum_t app_type_t -> cbl_err_code_t.
Variable flash_write_status :
  Z -> Z -> cksum_t -> world cksum_t app_type_t -> cbl_err_code_t.
Variable boot_record_set_result :
  boot_record_t cksum_t app_type_t -> world cksum_t app_type_t ->
  cbl_err_code_t * boot_record_t cksum_t app_type_t.
Variable hal_send_to_host_status :
  list ascii -> world cksum_t app_type_t -> cbl_err_code_t.

Local Abbreviation get_params :=
  (update_new_get_params cksum_t app_type_t parser_t TXT_PAR_UP_NEW_COUNT
     TXT_PAR_CKSUM TXT_PAR_APP_TYPE
     BOOT_NEW_APP_MAX_LEN parser_get_val str2ui32 enum_checksum
     enum_app_type).
Local Abbreviation update_new :=
  (cmd_update_new cksum_t app_type_t parser_t TXT_PAR_UP_NEW_COUNT
     TXT_PAR_CKSUM TXT_PAR_APP_TYPE
     TXT_SUCCESS BOOT_NEW_APP_MAX_LEN BOOT_NEW_APP_START
     BOOT_NEW_APP_START_SECTOR BOOT_NEW_APP_MAX_SECTORS parser_get_val
     str2ui32 enum_checksum enum_app_type hal_flash_erase_sector_status
     flash_write_status boot_record_set_result hal_send_to_host_status).
Local Abbreviation erase_call :=
  (FlashEraseSector (cksum_t := cksum_t) (app_type_t := app_type_t)
     BOOT_NEW_APP_START_SECTOR BOOT_NEW_APP_MAX_SECTORS).

(** What the parameter extraction has checked when it succeeds, and that
    the codes it returns are errors. *)
Lemma get_params_checked (p : parser_t) :
  (forall n ck ty,
      get_params p = Ok (inr (n, ck, ty)) ->
      (n <= BOOT_NEW_APP_MAX_LEN)%Z
      /\ exists char_len char_cksum char_type,
           parser_get_val p TXT_PAR_UP_NEW_COUNT (strlen TXT_PAR_UP_NEW_COUNT)
           = Some char_len
           /\ str2ui32 char_len (strlen char_len) 10 = (CBL_ERR_OK, n)
           /\ parser_get_val p TXT_PAR_CKSUM (strlen TXT_PAR_CKSUM)
              = Some char_cksum
           /\ enum_checksum (Some char_cksum) (strlen char_cksum)
              = (CBL_ERR_OK, ck)
           /\ parser_get_val p TXT_PAR_APP_TYPE (strlen TXT_PAR_APP_TYPE)
              = Some char_type
           /\ enum_app_type char_type (strlen char_type) = (CBL_ERR_OK, ty))
  /\ (forall e, get_params p = Ok (inl e) -> e <> CBL_ERR_OK).
Proof.
  unfold update_new_get_params.
  destruct (parser_get_val p TXT_PAR_UP_NEW_COUNT _) as [char_len|];
    [|split; intros; [discriminate|congruence]].
  destruct (str2ui32 char_len (strlen char_len) 10) as [e1 n1] eqn:E1.
  destruct (is_err e1) eqn:Ee1.
  { apply is_err_true in Ee1. split; intros; [discriminate|congruence]. }
  apply is_err_false in Ee1. subst e1.
  destruct (BOOT_NEW_APP_MAX_LEN <? n1)%Z eqn:El;
    [split; intros; [discriminate|congruence]|].
  apply Z.ltb_ge in El.
  destruct (parser_get_val p TXT_PAR_CKSUM _) as [char_cksum|];
    [|split; intros; discriminate].
  cbn [strlen_ptr].
  destruct (enum_checksum (Some char_cksum) (strlen char_cksum))
    as [e2 ck2] eqn:E2.
  destruct (is_err e2) eqn:Ee2.
  { apply is_err_true in Ee2. split; intros; [discriminate|congruence]. }
  apply is_err_false in Ee2. subst e2.
  destruct (parser_get_val p TXT_PAR_APP_TYPE _) as [char_type|];
    [|split; intros; [discriminate|congruence]].
  destruct (enum_app_type char_type (strlen char_type)) as [e3 ty3] eqn:E3.
  destruct (is_err e3) eqn:Ee3.
  { apply is_err_true in Ee3. split; intros; [discriminate|congruence]. }
  apply is_err_false in Ee3. subst e3.
  split; [|intros; discriminate].
  intros n ck ty H. injection H as <- <- <-.
  split; [assumption|]. exists char_len, char_cksum, char_type.
  repeat split; assumption.
Qed.

(** X13.  The handler restarts the device only after all of its steps have
    succeeded, in this order: the erase of the staging sectors, the write
    of at most [BOOT_NEW_APP_MAX_LEN] bytes at [BOOT_NEW_APP_START], the
    store of a boot record that announces the new application and carries
    the entry of the active application unchanged, the success text and the
    restart message.  When it returns instead, the code is never
    [CBL_ERR_OK]. *)
Theorem X13_restart_only_after_all_steps
  (p : parser_t) (w : world cksum_t app_type_t) :
  (forall w',
      cmd_update_new cksum_t app_type_t parser_t TXT_PAR_UP_NEW_COUNT
        TXT_PAR_CKSUM TXT_PAR_APP_TYPE TXT_SUCCESS BOOT_NEW_APP_MAX_LEN
        BOOT_NEW_APP_START BOOT_NEW_APP_START_SECTOR BOOT_NEW_APP_MAX_SECTORS
        parser_get_val str2ui32 enum_checksum enum_app_type
        hal_flash_erase_sector_status flash_write_status
        boot_record_set_result hal_send_to_host_status p w = Restarted w' ->
      exists n ck ty,
        get_params p = Ok (inr (n, ck, ty))
        /\ (n <= BOOT_NEW_APP_MAX_LEN)%Z
        /\ calls w'
           = calls w
             ++ [erase_call; FlashWrite BOOT_NEW_APP_START n ck;
                 BootRecordGet;
                 BootRecordSet
                   (mkRecord true (mkMeta ck ty n) (act_app (boot_record w)));
                 SendToHost TXT_SUCCESS; SendToHost restart_msg;
                 SystemRestart]
        /\ boot_record_set_result
             (mkRecord true (mkMeta ck ty n) (act_app (boot_record w)))
             (mkWorld (boot_record w)
                (calls w ++ [erase_call; FlashWrite BOOT_NEW_APP_START n ck;
                             BootRecordGet]))
           = (CBL_ERR_OK, boot_record w'))
  /\ (forall e w', update_new p w = Returned e w' -> e <> CBL_ERR_OK).
Proof.
  destruct (get_params_checked p) as [Hok Herr].
  unfold cmd_update_new.
  destruct (get_params p) as [[e0|[[n ck] ty]]|].
  - split; [discriminate|]. intros e w' H. injection H as <- _.
    now apply Herr.
  - destruct (Hok n ck ty eq_refl) as [Hn _].
    unfold hal_flash_erase_sector, flash_write, boot_record_get,
      boot_record_set, hal_send_to_host, log.
    cbn [boot_record calls].
    destruct (is_err (hal_flash_erase_sector_status _ _ _)) eqn:E1.
    { split; [discriminate|]. intros e w' H. injection H as <- _.
      now apply is_err_true. }
    destruct (is_err (flash_write_status _ _ _ _)) eqn:E2.
    { split; [discriminate|]. intros e w' H. injection H as <- _.
      now apply is_err_true. }
    rewrite <- !app_assoc. cbn [app].
    destruct (boot_record_set_result _ _) as [eSet stored] eqn:E3.
    cbn [boot_record calls].
    destruct (is_err eSet) eqn:E4.
    { split; [discriminate|]. intros e w' H. injection H as <- _.
      now apply is_err_true. }
    apply is_err_false in E4. subst eSet.
    destruct (is_err (hal_send_to_host_status TXT_SUCCESS _)) eqn:E5.
    { split; [discriminate|]. intros e w' H. injection H as <- _.
      now apply is_err_true. }
    destruct (is_err (hal_send_to_host_status restart_msg _)) eqn:E6.
    { split; [discriminate|]. intros e w' H. injection H as <- _.
      now apply is_err_true. }
    split; [|discriminate].
    intros w' H. injection H as <-. exists n, ck, ty.
    cbn [boot_record calls]. rewrite <- !app_assoc. cbn [app].
    repeat split; assumption.
  - split; discriminate.
Qed.

(** X14.  Whatever the outcome, a flash write that the handler has issued
    starts at [BOOT_NEW_APP_START], is at most [BOOT_NEW_APP_MAX_LEN] bytes
    long and follows a successful erase of the staging sectors; and a boot
    record that it has stored announces the new application with that
    length, carries the entry of the active application unchanged and
    follows a successful write. *)
Theorem X14_writes_and_stores_are_guarded
  (p : parser_t) (w w' : world cksum_t app_type_t) :
  outcome_world (update_new p w) = Some w' ->
  exists added,
    calls w' = calls w ++ added
    /\ (forall start length cksum,
           In (FlashWrite start length cksum) added ->
           start = BOOT_NEW_APP_START
           /\ (length <= BOOT_NEW_APP_MAX_LEN)%Z
           /\ hal_flash_erase_sector_status BOOT_NEW_APP_START_SECTOR
                BOOT_NEW_APP_MAX_SECTORS w = CBL_ERR_OK)
    /\ (forall r,
           In (BootRecordSet r) added ->
           is_new_app_ready r = true
           /\ act_app r = act_app (boot_record w)
           /\ (len _ _ (new_app r) <= BOOT_NEW_APP_MAX_LEN)%Z
           /\ flash_write_status BOOT_NEW_APP_START (len _ _ (new_app r))
                (cksum_used _ _ (new_app r)) (log erase_call w)
              = CBL_ERR_OK).
Proof.
  destruct (get_params_checked p) as [Hok _].
  unfold cmd_update_new.
  destruct (get_params p) as [[e0|[[n ck] ty]]|]; cbn [outcome_world].
  - intros H. injection H as <-. exists []. rewrite app_nil_r.
    split; [reflexivity|]. split; intros; contradiction.
  - destruct (Hok n ck ty eq_refl) as [Hn _]. clear Hok.
    unfold hal_flash_erase_sector, flash_write, boot_record_get,
      boot_record_set, hal_send_to_host.
    destruct (is_err (hal_flash_erase_sector_status _ _ _)) eqn:E1.
    { intros H. injection H as <-. exists [erase_call].
      split; [reflexivity|].
      split; [intros s l c [H|[]]|intros r [H|[]]]; discriminate H. }
    apply is_err_false in E1.
    destruct (is_err (flash_write_status _ _ _ _)) eqn:E2.
    { intros H. injection H as <-.
      exists [erase_call; FlashWrite BOOT_NEW_APP_START n ck].
      unfold log. cbn [boot_record calls]. rewrite <- app_assoc.
      split; [reflexivity|]. split.
      - intros s l c [H|[H|[]]]; [discriminate H|].
        injection H as <- <- <-. now repeat split.
      - intros r [H|[H|[]]]; discriminate H. }
    apply is_err_false in E2.
    assert (forall tail : list (call cksum_t app_type_t),
               (forall s l c, ~ In (FlashWrite s l c) tail) ->
               (forall r, ~ In (BootRecordSet r) tail) ->
               (forall start length cksum,
                   In (FlashWrite start length cksum)
                     ([erase_call; FlashWrite BOOT_NEW_APP_START n ck;
                       BootRecordGet;
                       BootRecordSet
                         (mkRecord true (mkMeta ck ty n)
                            (act_app (boot_record w)))] ++ tail) ->
                   start = BOOT_NEW_APP_START
                   /\ (length <= BOOT_NEW_APP_MAX_LEN)%Z
                   /\ hal_flash_erase_sector_status
                        BOOT_NEW_APP_START_SECTOR
                        BOOT_NEW_APP_MAX_SECTORS w = CBL_ERR_OK)
               /\ (forall r,
                      In (BootRecordSet r)
                        ([erase_call; FlashWrite BOOT_NEW_APP_START n ck;
                          BootRecordGet;
                          BootRecordSet
                            (mkRecord true (mkMeta ck ty n)
                               (act_app (boot_record w)))] ++ tail) ->
                      is_new_app_ready r = true
                      /\ act_app r = act_app (boot_record w)
                      /\ (len _ _ (new_app r) <= BOOT_NEW_APP_MAX_LEN)%Z
                      /\ flash_write_status BOOT_NEW_APP_START
                           (len _ _ (new_app r))
                           (cksum_used _ _ (new_app r)) (log erase_call w)
                         = CBL_ERR_OK)) as Hshape.
    { intros tail Hw Hs. split.
      - intros s l c [H|[H|[H|[H|H]]]]; try discriminate H.
        + injection H as <- <- <-. now repeat split.
        + now apply Hw in H.
      - intros r [H|[H|[H|[H|H]]]]; try discriminate H.
        + injection H as <-. cbn. now repeat split.
        + now apply Hs in H. }
    unfold log. cbn [boot_record calls].
    destruct (boot_record_set_result _ _) as [eSet stored].
    destruct (is_err eSet).
    { intros H. injection H as <-. cbn [calls].
      eexists. rewrite <- !app_assoc. cbn [app].
      split; [reflexivity|].
      apply (Hshape []); intros; intros []. }
    cbn [boot_record calls].
    destruct (is_err (hal_send_to_host_status TXT_SUCCESS _)).
    { intros H. injection H as <-. cbn [calls].
      eexists. rewrite <- !app_assoc. cbn [app].
      split; [reflexivity|].
      apply (Hshape [SendToHost TXT_SUCCESS]);
        intros; intros [H|[]]; discriminate H. }
    destruct (is_err (hal_send_to_host_status restart_msg _)).
    { intros H. injection H as <-. cbn [calls].
      eexists. rewrite <- !app_assoc. cbn [app].
      split; [reflexivity|].
      apply (Hshape [SendToHost TXT_SUCCESS; SendToHost restart_msg]);
        intros; intros [H|[H|[]]]; discriminate H. }
    intros H. injection H as <-. cbn [calls].
    eexists. rewrite <- !app_assoc. cbn [app].
    split; [reflexivity|].
    apply (Hshape [SendToHost TXT_SUCCESS; SendToHost restart_msg;
                   SystemRestart]);
      intros; intros [H|[H|[H|[]]]]; discriminate H.
  - discriminate.
Qed.

End UpdateNewMore.


(** *** The theorems on a concrete request *)

(** [update-new count=16 cksum=no type=bin] with every step succeeding. *)
Lemma X13_restart_only_after_all_steps_witness :
  exists n ck ty,
    update_new_get_params nat nat pairs_t (chars "count") (chars "cksum")
      (chars "type") 1024 pairs_get_val any_ui32 any_cksum any_app_type
      request_16 = Ok (inr (n, ck, ty))
    /\ (n <= 1024)%Z
    /\ [FlashEraseSector 5 3; FlashWrite 134479872 16 0; BootRecordGet;
        BootRecordSet (mkRecord true (mkMeta 0 0 16%Z) (mkMeta 0 0 4096%Z));
        SendToHost (chars "OK"); SendToHost restart_msg; SystemRestart]
       = [] ++ [FlashEraseSector 5 3; FlashWrite 134479872 n ck;
                BootRecordGet;
                BootRecordSet
                  (mkRecord true (mkMeta ck ty n) (act_app idle_record));
                SendToHost (chars "OK"); SendToHost restart_msg;
                SystemRestart]
    /\ (CBL_ERR_OK, mkRecord true (mkMeta ck ty n) (act_app idle_record))
       = (CBL_ERR_OK, mkRecord true (mkMeta 0 0 16%Z) (mkMeta 0 0 4096%Z)).
Proof.
  assert (run_update_new CBL_ERR_OK CBL_ERR_OK CBL_ERR_OK CBL_ERR_OK
            request_16 (mkWorld idle_record [])
          = Restarted
              (mkWorld (mkRecord true (mkMeta 0 0 16%Z) (mkMeta 0 0 4096%Z))
                 [FlashEraseSector 5 3; FlashWrite 134479872 16 0;
                  BootRecordGet;
                  BootRecordSet
                    (mkRecord true (mkMeta 0 0 16%Z) (mkMeta 0 0 4096%Z));
                  SendToHost (chars "OK"); SendToHost restart_msg;
                  SystemRestart])) as Hrun by (vm_compute; reflexivity).
  exact (proj1
           (X13_restart_only_after_all_steps nat nat pairs_t (chars "count")
              (chars "cksum") (chars "type") (chars "OK") 1024 134479872 5 3
              pairs_get_val any_ui32 any_cksum any_app_type
              (fun _ _ _ => CBL_ERR_OK) (fun _ _ _ _ => CBL_ERR_OK)
              (fun r w =>
                 (CBL_ERR_OK,
                  if is_err CBL_ERR_OK then boot_record w else r))
              (fun _ _ => CBL_ERR_OK) request_16 (mkWorld idle_record []))
           _ Hrun).
Defined.

(** The same request when the transmission of the success text fails: the
    write and the store have been issued. *)
Lemma X14_writes_and_stores_are_guarded_witness :
  exists added,
    [FlashEraseSector 5 3; FlashWrite 134479872 16 0; BootRecordGet;
     BootRecordSet (mkRecord true (mkMeta 0 0 16%Z) (mkMeta 0 0 4096%Z));
     SendToHost (chars "OK")] = [] ++ added
    /\ (forall start length cksum,
           In (FlashWrite start length cksum) added ->
           start = 134479872%Z /\ (length <= 1024)%Z
           /\ CBL_ERR_OK = CBL_ERR_OK)
    /\ (forall r : boot_record_t nat nat,
           In (BootRecordSet r) added ->
           is_new_app_ready r = true
           /\ act_app r = act_app idle_record
           /\ (len _ _ (new_app r) <= 1024)%Z
           /\ CBL_ERR_OK = CBL_ERR_OK).
Proof.
  assert (outcome_world
            (run_update_new CBL_ERR_OK CBL_ERR_OK CBL_ERR_OK CBL_ERR_HAL_TX
               request_16 (mkWorld idle_record []))
          = Some
              (mkWorld (mkRecord true (mkMeta 0 0 16%Z) (mkMeta 0 0 4096%Z))
                 [FlashEraseSector 5 3; FlashWrite 134479872 16 0;
                  BootRecordGet;
                  BootRecordSet
                    (mkRecord true (mkMeta 0 0 16%Z) (mkMeta 0 0 4096%Z));
                  SendToHost (chars "OK")])) as Hrun
    by (vm_compute; reflexivity).
  exact (X14_writes_and_stores_are_guarded nat nat pairs_t (chars "count")
           (chars "cksum") (chars "type") (chars "OK") 1024 134479872 5 3
           pairs_get_val any_ui32 any_cksum any_app_type
           (fun _ _ _ => CBL_ERR_OK) (fun _ _ _ _ => CBL_ERR_OK)
           (fun r w =>
              (CBL_ERR_OK, if is_err CBL_ERR_OK then boot_record w else r))
           (fun _ _ => CBL_ERR_HAL_TX) request_16 (mkWorld idle_record [])
           _ Hrun).
Defined.

End UpdateNewMore.

(* ================================================================== *)
(** ** [CustomBootloader.c]: the remaining handlers, the dispatcher and
       the shell *)

Module LegacySysFacts.
Import CStr CStrFacts CLib Legacy LegacyFacts ShellFacts CmdLine ParserFacts
  LegacySys.

#[local] Arguments Ascii.eqb : simpl never.

(** *** The binary text of a 16-bit number *)

Lemma ui16_bit (num : Z) (i : nat) :
  negb (Z.land (Z.shiftr num (Z.of_nat i)) 1 =? 0)%Z
  = Z.testbit num (Z.of_nat i).
Proof.
  change 1%Z with (Z.ones 1) at 1.
  rewrite Z.land_ones by lia. change (2 ^ 1)%Z with 2%Z.
  rewrite <- Z.bit0_mod, Z.shiftr_spec by lia. simpl Z.add.
  now destruct (Z.testbit num (Z.of_nat i)).
Qed.

Lemma ui16_digits_cons (i : nat) (num : Z) :
  ui16_digits (S i) num
  = (if Z.testbit num (Z.of_nat i) then "1"%char else "0"%char)
      :: ui16_digits i num.
Proof.
  cbn [ui16_digits]. rewrite ui16_bit.
  now destruct (Z.testbit num (Z.of_nat i)).
Qed.

Lemma ui16_digits_length (i : nat) (num : Z) :
  List.length (ui16_digits i num) = i.
Proof.
  induction i as [|i IH]; [reflexivity|].
  rewrite ui16_digits_cons. simpl. now rewrite IH.
Qed.

Lemma ui16_digits_nth (n : nat) (num : Z) :
  forall j,
    j < n ->
    nth_error (ui16_digits n num) j
    = Some (if Z.testbit num (Z.of_nat (n - 1 - j))
            then "1"%char else "0"%char).
Proof.
  induction n as [|n IH]; intros j Hj; [lia|].
  rewrite ui16_digits_cons. destruct j as [|j].
  - cbn [nth_error]. now replace (S n - 1 - 0) with n by lia.
  - cbn [nth_error]. rewrite IH by lia.
    now replace (S n - 1 - S j) with (n - 1 - j) by lia.
Qed.

Lemma ui16_digits_nul_free (i : nat) (num : Z) :
  free_of [NUL] (ui16_digits i num) = true.
Proof.
  induction i as [|i IH]; [reflexivity|].
  rewrite ui16_digits_cons, free_of_cons, IH.
  now destruct (Z.testbit num (Z.of_nat i)).
Qed.

Lemma ui16_digits_value (num : Z) (rest : list ascii) :
  forall (i : nat) (acc : Z),
    digits_value (ui16_digits i num ++ rest) 2 acc
    = digits_value rest 2 (acc * 2 ^ Z.of_nat i + num mod 2 ^ Z.of_nat i)%Z.
Proof.
  induction i as [|i IH]; intros acc.
  - simpl. now rewrite Z.mod_1_r, Z.mul_1_r, Z.add_0_r.
  - rewrite ui16_digits_cons.
    assert (num mod 2 ^ Z.of_nat (S i)
            = Z.b2z (Z.testbit num (Z.of_nat i)) * 2 ^ Z.of_nat i
              + num mod 2 ^ Z.of_nat i)%Z as Hsplit.
    { rewrite Nat2Z.inj_succ, Z.pow_succ_r by lia.
      rewrite (Z.mul_comm 2), Z.rem_mul_r by lia.
      rewrite Z.testbit_spec' by lia. lia. }
    rewrite Hsplit, Nat2Z.inj_succ, Z.pow_succ_r by lia.
    destruct (Z.testbit num (Z.of_nat i)); cbn [app digits_value];
      [change (digit_val "1") with (Some 1%Z)
      |change (digit_val "0") with (Some 0%Z)];
      cbn [Z.ltb Z.compare Pos.compare Pos.compare_cont];
      rewrite IH; f_equal; cbn [Z.b2z]; lia.
Qed.

Lemma ui16tobina_bytes (num : Z) (str : list ascii) :
  List.length str = 19 ->
  cbl_ui16tobina num str
  = chars "0b" ++ ui16_digits 16 num ++ [NUL].
Proof.
  intros Hlen. unfold cbl_ui16tobina.
  pose proof (store_list_app
                ("0"%char :: "b"%char :: ui16_digits 16 num ++ [NUL]) [] str)
    as Hst.
  cbn [app List.length] in Hst. rewrite Hst; clear Hst.
  2:{ cbn [List.length]. rewrite length_app, ui16_digits_length, Hlen.
      simpl. lia. }
  rewrite skipn_all2.
  2:{ cbn [List.length]. rewrite length_app, ui16_digits_length, Hlen.
      simpl. lia. }
  now rewrite app_nil_r.
Qed.

Lemma ui16tobina_text (num : Z) (str : list ascii) :
  List.length str = 19 ->
  cstr (cbl_ui16tobina num str) 0 = chars "0b" ++ ui16_digits 16 num.
Proof.
  intros Hlen. rewrite ui16tobina_bytes by assumption.
  unfold cstr. cbn [skipn]. rewrite app_assoc.
  apply until_nul_app_nul, free_nul_free.
  now rewrite free_of_app, ui16_digits_nul_free.
Qed.

Lemma ui16_text_nth (num : Z) (i : nat) :
  i < 16 ->
  nth_error (chars "0b" ++ ui16_digits 16 num) (17 - i)
  = Some (if Z.testbit num (Z.of_nat i) then "1"%char else "0"%char).
Proof.
  intros Hi. replace (17 - i) with (S (S (15 - i))) by lia.
  cbn [chars list_ascii_of_string app nth_error].
  rewrite ui16_digits_nth by lia.
  now replace (16 - 1 - (15 - i)) with i by lia.
Qed.

(** X15.  [cbl_ui16tobina] fills a buffer of 19 bytes exactly: the prefix
    [0b], sixteen binary digits with the most significant first, and the
    terminator.  The digit for bit [i] stands at index [17 - i], and reading
    the digits back with [strtoul] in base 2 gives the number. *)
Theorem X15_ui16tobina_round_trip (num : Z) (str : list ascii) :
  (0 <= num < 2 ^ 16)%Z ->
  List.length str = 19 ->
  List.length (cbl_ui16tobina num str) = 19
  /\ strlen (cbl_ui16tobina num str) = 18
  /\ firstn 2 (cbl_ui16tobina num str) = chars "0b"
  /\ (forall i,
         i < 16 ->
         nth_error (cbl_ui16tobina num str) (17 - i)
         = Some (if Z.testbit num (Z.of_nat i) then "1"%char else "0"%char))
  /\ strtoul (skipn 2 (cbl_ui16tobina num str)) 2 = num.
Proof.
  intros Hnum Hlen.
  pose proof (ui16tobina_text num str Hlen) as Htxt.
  unfold strlen. change (until_nul (cbl_ui16tobina num str))
    with (cstr (cbl_ui16tobina num str) 0). rewrite Htxt.
  rewrite (ui16tobina_bytes num str Hlen).
  split; [rewrite !length_app, ui16_digits_length; reflexivity|].
  split; [rewrite length_app, ui16_digits_length; reflexivity|].
  split; [reflexivity|]. split.
  - intros i Hi. rewrite app_assoc, nth_error_app1.
    + now apply ui16_text_nth.
    + rewrite length_app, ui16_digits_length.
      change (List.length (chars "0b")) with 2. lia.
  - cbn [chars list_ascii_of_string app skipn]. unfold strtoul.
    assert (exists c t, ui16_digits 16 num ++ [NUL] = c :: t
                        /\ (c = "0"%char \/ c = "1"%char)) as (c & t & Hd & Hc).
    { rewrite ui16_digits_cons. eexists; eexists. split; [reflexivity|].
      destruct (Z.testbit num (Z.of_nat 15)); auto. }
    assert (skip_spaces (ui16_digits 16 num ++ [NUL])
            = ui16_digits 16 num ++ [NUL]) as ->
      by (rewrite Hd; destruct Hc as [-> | ->]; reflexivity).
    assert (strip_sign (ui16_digits 16 num ++ [NUL])
            = (false, ui16_digits 16 num ++ [NUL])) as ->
      by (rewrite Hd; destruct Hc as [-> | ->]; reflexivity).
    change (2 =? 16)%Z with false. cbv iota.
    rewrite ui16_digits_value. cbn [digits_value].
    change (digit_val NUL) with (@None Z). cbv iota.
    change (Z.of_nat 16) with 16%Z.
    rewrite Z.mul_0_l, Z.add_0_l, Z.mod_small by assumption.
    unfold ULONG_MAX.
    replace (2 ^ 32 - 1 <? num)%Z with false
      by (symmetry; apply Z.ltb_ge; lia).
    reflexivity.
Qed.

(** *** Handlers *)

Lemma firstn_repeat_le (x : ascii) :
  forall k n, k <= n -> firstn k (repeat x n) = repeat x k.
Proof.
  induction k as [|k IH]; intros n Hk; [reflexivity|].
  destruct n as [|n]; [lia|]. simpl. now rewrite IH by lia.
Qed.

Lemma skipn_repeat (x : ascii) :
  forall k n, skipn k (repeat x n) = repeat x (n - k).
Proof.
  induction k as [|k IH]; intros n; [now rewrite Nat.sub_0_r|].
  destruct n as [|n]; [reflexivity|]. simpl. apply IH.
Qed.

Lemma until_nul_app_any (a t : list ascii) :
  until_nul (a ++ NUL :: t) = until_nul a.
Proof.
  induction a as [|c a IH]; [reflexivity|].
  simpl. now destruct (Ascii.eqb c NUL); [|rewrite IH].
Qed.

Lemma strlwr_app_nul (line tail : list ascii) :
  free_of [NUL] line = true ->
  strlwr (line ++ NUL :: tail) = lower line ++ NUL :: tail.
Proof.
  induction line as [|c t IH]; intros H; [reflexivity|].
  apply free_single in H as [Hc Ht]. simpl. rewrite Hc.
  unfold lower in *. simpl. now rewrite IH.
Qed.

Lemma memchr_from_app (tail : list ascii) (c : ascii) :
  forall mem n pos,
    n <= List.length mem ->
    memchr_from (mem ++ tail) c n pos = memchr_from mem c n pos.
Proof.
  induction mem as [|x t IH]; intros n pos Hn.
  - simpl in Hn. assert (n = 0) as -> by lia. now destruct tail.
  - destruct n as [|n]; [reflexivity|]. simpl in *.
    destruct (Ascii.eqb x c); [reflexivity|]. apply IH. lia.
Qed.

Lemma memchr_app (buf tail : list ascii) (start : nat) (c : ascii) (n : nat) :
  start + n <= List.length buf ->
  memchr (buf ++ tail) start c n = memchr buf start c n.
Proof.
  intros H. unfold memchr. rewrite skipn_app.
  replace (start - List.length buf) with 0 by lia. cbn [skipn].
  apply memchr_from_app. rewrite length_skipn. lia.
Qed.

Lemma parse_args_frame (tail : list ascii) (len : nat) :
  forall (fuel : nat) (buf : list ascii) (pSpa : option nat)
         (acc : list (nat * nat)),
    len <= List.length buf ->
    (forall spa, pSpa = Some spa -> spa < len) ->
    parse_args fuel (buf ++ tail) len pSpa acc
    = (fst (parse_args fuel buf len pSpa acc) ++ tail,
       snd (parse_args fuel buf len pSpa acc)).
Proof.
  induction fuel as [|fuel IH]; intros buf pSpa acc Hlen Hspa;
    [now destruct pSpa|].
  destruct pSpa as [spa|]; [|reflexivity].
  specialize (Hspa spa eq_refl). cbn [parse_args].
  rewrite ShellMore.store_app_l by lia.
  rewrite memchr_app by (rewrite store_length; lia).
  destruct (memchr (store buf spa NUL) spa "=" (len - spa)) as [equ|] eqn:Eq;
    [|reflexivity].
  apply memchr_range in Eq as (He1 & He2 & He3).
  rewrite store_length in He3.
  rewrite ShellMore.store_app_l by (rewrite store_length; lia).
  rewrite memchr_app by (rewrite !store_length; lia).
  apply IH; [now rewrite !store_length|].
  intros spa' Hs. apply memchr_range in Hs. lia.
Qed.

Lemma parse_frame (MAX : nat) (line tail : list ascii) :
  free_of [NUL] line = true ->
  cbl_ParseCmd MAX (line ++ NUL :: tail) (List.length line)
  = (CBL_ERR_OK,
     mkParser
       (cmd (snd (cbl_ParseCmd MAX line (List.length line))) ++ NUL :: tail)
       (List.length line)
       (args (snd (cbl_ParseCmd MAX line (List.length line))))).
Proof.
  intros Hnul. unfold cbl_ParseCmd.
  rewrite strlwr_app_nul, strlwr_free by assumption.
  assert (List.length (lower line) = List.length line) as Hll
    by (unfold lower; apply length_map).
  rewrite memchr_app by lia.
  rewrite parse_args_frame; [|lia|].
  - now destruct (parse_args MAX (lower line) (List.length line) _ []).
  - intros spa Hs. apply memchr_range in Hs. lia.
Qed.

(** The text that the version handlers of both files leave in their
    buffer of twelve bytes. *)
Lemma version_text (v : list ascii) :
  free_of [NUL] v = true ->
  List.length v <= 11 ->
  cstr (strlcat (array_init 12 v) Shell.CRLF 12) 0
  = firstn 11 (v ++ Shell.CRLF).
Proof.
  intros Hnul Hlen.
  assert (array_init 12 v = v ++ repeat NUL (12 - List.length v)) as Hinit.
  { unfold array_init. rewrite firstn_app, firstn_all2 by lia.
    f_equal. apply firstn_repeat_le. lia. }
  unfold strlcat. rewrite Hinit.
  assert (strlen (firstn 12 (v ++ repeat NUL (12 - List.length v)))
          = List.length v) as ->.
  { rewrite firstn_all2 by (rewrite length_app, repeat_length; lia).
    unfold strlen.
    destruct (12 - List.length v) as [|k] eqn:Ek; [lia|].
    cbn [repeat]. now rewrite until_nul_app_nul by now apply free_nul_free. }
  replace (List.length v =? 12) with false
    by (symmetry; apply Nat.eqb_neq; lia).
  change (until_nul Shell.CRLF) with Shell.CRLF.
  rewrite store_list_app.
  2:{ rewrite length_app, length_firstn, repeat_length.
      unfold Shell.CRLF. cbn [List.length]. lia. }
  unfold cstr. cbn [skipn]. rewrite <- app_assoc. cbn [app].
  rewrite app_assoc, until_nul_app_nul.
  - rewrite firstn_app, (firstn_all2 v) by lia.
    now replace (12 - List.length v - 1) with (11 - List.length v) by lia.
  - apply free_nul_free. rewrite free_of_app, Hnul. cbn [andb].
    unfold Shell.CRLF.
    destruct (12 - List.length v - 1) as [|[|[|k]]]; reflexivity.
Qed.

Section SysFacts.

Variable cfg : Cfg.t.
Variable hal : Hw.t.

Lemma sys_send (buf : list ascii) (w : world) :
  cbl_SendToHost hal buf w
  = (match Hw.HAL_UART_Transmit hal buf (log w) with
     | HAL_OK => CBL_ERR_OK
     | _ => CBL_ERR_HAL_TX
     end,
     record (Hal (UART_Transmit buf)) w).
Proof.
  unfold cbl_SendToHost, Legacy.cbl_SendToHost, uart_after, after, record.
  cbn [map]. rewrite app_nil_r.
  now destruct (Hw.HAL_UART_Transmit hal buf (log w)).
Qed.

Lemma sys_send_code (buf : list ascii) (w : world) :
  fst (cbl_SendToHost hal buf w) = CBL_ERR_OK
  \/ fst (cbl_SendToHost hal buf w) = CBL_ERR_HAL_TX.
Proof.
  rewrite sys_send. cbn [fst].
  destruct (Hw.HAL_UART_Transmit hal buf (log w)); auto.
Qed.

Lemma inv_wrp_bit (ob : OBConfig) (i : nat) :
  i < 16 ->
  Z.testbit (inv_wrp cfg ob) (Z.of_nat i)
  = negb (Z.testbit (WRPSector ob) (Z.of_nat i))
    && Z.testbit
         (Z.shiftr (Cfg.FLASH_OPTCR_nWRP_Msk cfg)
            (Cfg.FLASH_OPTCR_nWRP_Pos cfg)) (Z.of_nat i).
Proof.
  intros Hi. unfold inv_wrp, uint32.
  rewrite Z.mod_pow2_bits_low, Z.land_spec by lia.
  rewrite !Z.mod_pow2_bits_low by lia.
  now rewrite Z.lnot_spec by lia.
Qed.

Lemma inv_wrp_range (ob : OBConfig) : (0 <= inv_wrp cfg ob < 2 ^ 16)%Z.
Proof. unfold inv_wrp. apply Z.mod_pos_bound. lia. Qed.

(** X16.  The protection status is reported as [0b] and sixteen digits in
    which the digit of sector [i] (at index [17 - i]) is [1] exactly when
    bit [i] of the option bytes' [WRPSector] is clear and [i] is one of the
    nWRP bits.  The option bytes are locked again before the text is sent;
    when the unlock fails nothing is read and [CBL_ERR_HAL_UNLOCK] is
    returned.  The code returned after the text is the status of its
    transmission: [CBL_ERR_OK] when [HAL_UART_Transmit] reports [HAL_OK]
    for it, [CBL_ERR_HAL_TX] otherwise. *)
Theorem X16_protection_status_text (p : CBL_Parser_t) (w : world) :
  (Hw.HAL_FLASH_OB_Unlock hal (log w) <> HAL_OK ->
   cbl_HandleCmdReadSectProtStat cfg hal p w
   = Returned CBL_ERR_HAL_UNLOCK (record FLASH_OB_Unlock w))
  /\ (Hw.HAL_FLASH_OB_Unlock hal (log w) = HAL_OK ->
      exists text,
        cbl_HandleCmdReadSectProtStat cfg hal p w
        = Returned
            (match Hw.HAL_UART_Transmit hal text
                     (log w ++ [FLASH_OB_Unlock; FLASHEx_OBGetConfig;
                                FLASH_OB_Lock]) with
             | HAL_OK => CBL_ERR_OK
             | _ => CBL_ERR_HAL_TX
             end)
            (mkWorld (host_rx w)
               (log w ++ [FLASH_OB_Unlock; FLASHEx_OBGetConfig;
                          FLASH_OB_Lock; Hal (UART_Transmit text)])
               (isExitReq w))
        /\ List.length text = 18
        /\ firstn 2 text = chars "0b"
        /\ forall i,
             i < 16 ->
             nth_error text (17 - i)
             = Some
                 (if negb
                       (Z.testbit
                          (WRPSector
                             (Hw.HAL_FLASHEx_OBGetConfig hal
                                (log w ++ [FLASH_OB_Unlock])))
                          (Z.of_nat i))
                     && Z.testbit
                          (Z.shiftr (Cfg.FLASH_OPTCR_nWRP_Msk cfg)
                             (Cfg.FLASH_OPTCR_nWRP_Pos cfg)) (Z.of_nat i)
                  then "1"%char else "0"%char)).
Proof.
  unfold cbl_HandleCmdReadSectProtStat. split.
  - intros H. destruct (Hw.HAL_FLASH_OB_Unlock hal (log w));
      [contradiction|reflexivity..].
  - intros ->. rewrite sys_send.
    rewrite ui16tobina_text by apply repeat_length.
    set (ob := Hw.HAL_FLASHEx_OBGetConfig hal _).
    eexists. split; [|split; [|split]].
    + unfold record. cbn [host_rx log isExitReq].
      rewrite <- !app_assoc. reflexivity.
    + rewrite length_app, ui16_digits_length. reflexivity.
    + reflexivity.
    + intros i Hi. rewrite ui16_text_nth by assumption.
      now rewrite inv_wrp_bit.
Qed.

(** X17.  The write-protection handler programs the inverse of the mask
    that the host gave: bit [i] of the programmed [WRPSector] is set
    exactly when bit [i] of the given mask is clear and [i] is one of the
    nWRP bits.  The option bytes are unlocked before and locked after the
    programming, and the code returned is the status of the success text
    alone ([CBL_ERR_OK] when [HAL_UART_Transmit] reports [HAL_OK] for it,
    [CBL_ERR_HAL_TX] otherwise): the result of the programming is not
    looked at. *)
Theorem X17_write_protection_mask_is_inverted
  (p : CBL_Parser_t) (EnDis : Z) (w : world) (charMask : nat) :
  EnDis = Cfg.OB_WRPSTATE_ENABLE cfg \/ EnDis = Cfg.OB_WRPSTATE_DISABLE cfg ->
  cbl_ParserGetArgVal p (Cfg.CBL_TXTCMD_EN_WRITE_PROT_MASK cfg)
    (strlen (Cfg.CBL_TXTCMD_EN_WRITE_PROT_MASK cfg)) = Some charMask ->
  Hw.HAL_FLASH_OB_Unlock hal (log w) = HAL_OK ->
  cbl_HandleCmdChangeWriteProt cfg hal p EnDis w
  = Returned
      (match Hw.HAL_UART_Transmit hal (Cfg.CBL_TXT_SUCCESS cfg)
               (log w ++ [FLASH_OB_Unlock; FLASH_WaitForLastOperation 50000;
                          FLASHEx_OBGetConfig;
                          FLASHEx_OBProgram (wrp_mask cfg p charMask) EnDis;
                          FLASH_OB_Lock]) with
       | HAL_OK => CBL_ERR_OK
       | _ => CBL_ERR_HAL_TX
       end)
      (mkWorld (host_rx w)
         (log w ++ [FLASH_OB_Unlock; FLASH_WaitForLastOperation 50000;
                    FLASHEx_OBGetConfig;
                    FLASHEx_OBProgram (wrp_mask cfg p charMask) EnDis;
                    FLASH_OB_Lock;
                    Hal (UART_Transmit (Cfg.CBL_TXT_SUCCESS cfg))])
         (isExitReq w))
  /\ forall i,
       i < 32 ->
       Z.testbit (wrp_mask cfg p charMask) (Z.of_nat i)
       = negb (Z.testbit (mask_arg p charMask) (Z.of_nat i))
         && Z.testbit
              (Z.shiftr (Cfg.FLASH_OPTCR_nWRP_Msk cfg)
                 (Cfg.FLASH_OPTCR_nWRP_Pos cfg)) (Z.of_nat i).
Proof.
  intros HEn Hmask Hun. split.
  - unfold cbl_HandleCmdChangeWriteProt.
    assert (negb (EnDis =? Cfg.OB_WRPSTATE_ENABLE cfg)%Z
            && negb (EnDis =? Cfg.OB_WRPSTATE_DISABLE cfg)%Z = false) as ->.
    { destruct HEn as [-> | ->]; rewrite Z.eqb_refl; simpl;
        [reflexivity|apply andb_false_r]. }
    rewrite Hmask, Hun, sys_send.
    unfold record. cbn [host_rx log isExitReq].
    rewrite <- !app_assoc. reflexivity.
  - intros i Hi. unfold wrp_mask, uint32.
    rewrite Z.mod_pow2_bits_low, Z.land_spec by lia.
    rewrite Z.mod_pow2_bits_low by lia.
    now rewrite Z.lnot_spec by lia.
Qed.


(** X22.  The version handler sends the first eleven bytes of the version
    text followed by CR LF: the buffer of twelve bytes leaves room for the
    whole line only when the version text has at most nine characters; with
    ten the line feed is cut off, with eleven the whole line end. *)
Theorem X22_version_line_fits_nine (p : CBL_Parser_t) (w : world) :
  free_of [NUL] (Cfg.CBL_VERSION cfg) = true ->
  List.length (Cfg.CBL_VERSION cfg) <= 11 ->
  exists e,
    cbl_HandleCmdVersion cfg hal p w
    = Returned e
        (record
           (Hal (UART_Transmit
                   (firstn 11 (Cfg.CBL_VERSION cfg ++ Shell.CRLF)))) w)
    /\ (e = CBL_ERR_OK \/ e = CBL_ERR_HAL_TX).
Proof.
  intros Hnul Hlen. unfold cbl_HandleCmdVersion.
  rewrite version_text by assumption.
  rewrite sys_send. eexists. split; [reflexivity|].
  destruct (Hw.HAL_UART_Transmit hal _ _); auto.
Qed.

(** *** Dispatcher *)

(** With [len = strlen(buf)] the test of one link of the chain is equality
    of the command string and the text. *)
Lemma is_cmd_iff (buf txt : list ascii) :
  nul_free txt ->
  (is_cmd buf (strlen buf) txt = true <-> until_nul buf = txt).
Proof.
  intros Hk. unfold is_cmd.
  assert (strlen txt = List.length txt) as Hl
    by (unfold strlen; now rewrite Hk).
  rewrite andb_true_iff, Nat.eqb_eq, Z.eqb_eq, Hl. split.
  - intros [Hlen Hc]. rewrite <- Hlen in Hc.
    now apply strncmp_zero_iff in Hc.
  - intros H.
    assert (List.length txt = strlen buf) as Hlen
      by (unfold strlen; now rewrite H).
    split; [now symmetry|]. rewrite Hlen. now apply strncmp_zero_iff.
Qed.

(** The chain of [cbl_EnumCmd] is a search for the first entry of
    [cmd_table] whose text passes the test. *)
Lemma enum_as_find (buf : list ascii) (len : nat) (cmdCode0 : CBL_CMD_t) :
  cbl_EnumCmd cfg buf len cmdCode0
  = if len =? 0 then (CBL_ERR_CMD_SHORT, cmdCode0)
    else
      match find (fun tc => is_cmd buf len (fst tc)) (cmd_table cfg) with
      | Some (_, c) => (CBL_ERR_OK, c)
      | None =>
          match cmdCode0 with
          | CBL_CMD_UNDEF => (CBL_ERR_CMD_UNDEF, CBL_CMD_UNDEF)
          | _ => (CBL_ERR_OK, cmdCode0)
          end
      end.
Proof.
  unfold cbl_EnumCmd, cmd_table.
  destruct (len =? 0); [reflexivity|]. cbn [find fst].
  repeat match goal with
         | |- context [if is_cmd buf len ?t then _ else _] =>
             destruct (is_cmd buf len t); [reflexivity|]
         end.
  now destruct cmdCode0.
Qed.

Lemma find_unique_key (f : list ascii -> bool)
  (l : list (list ascii * CBL_CMD_t)) (k : list ascii) (c : CBL_CMD_t) :
  NoDup (map fst l) ->
  In (k, c) l ->
  (forall k' c', In (k', c') l -> (f k' = true <-> k' = k)) ->
  find (fun tc => f (fst tc)) l = Some (k, c).
Proof.
  induction l as [|[k0 c0] t IH]; intros Hnd Hin Hf; [contradiction|].
  cbn [find fst]. inversion Hnd as [|? ? Hnotin Hnd']; subst.
  destruct (f k0) eqn:E.
  - apply (Hf k0 c0 (or_introl eq_refl)) in E. subst k0.
    destruct Hin as [Hin|Hin]; [now rewrite Hin|].
    exfalso. apply Hnotin. cbn [map fst].
    change k with (fst (k, c)). now apply in_map.
  - destruct Hin as [Hin|Hin].
    + injection Hin as -> ->.
      assert (f k = true) as Hk by now apply (Hf k c (or_introl eq_refl)).
      congruence.
    + apply IH; [assumption|assumption|].
      intros k' c' Hin'. apply (Hf k' c'). now right.
Qed.

Lemma nodup_snd_inj (l : list (list ascii * CBL_CMD_t)) :
  NoDup (map snd l) ->
  forall k k' c, In (k, c) l -> In (k', c) l -> k = k'.
Proof.
  induction l as [|[k0 c0] t IH]; intros Hnd k k' c H1 H2; [contradiction|].
  inversion Hnd as [|? ? Hnotin Hnd']; subst.
  assert (forall x, In (x, c0) t -> False) as Hno.
  { intros x Hx. apply Hnotin. change c0 with (snd (x, c0)).
    now apply in_map. }
  destruct H1 as [H1|H1], H2 as [H2|H2].
  - congruence.
  - injection H1 as -> ->. exfalso. now apply (Hno k').
  - injection H2 as -> ->. exfalso. now apply (Hno k).
  - now apply (IH Hnd' k k' c).
Qed.

Lemma code_has_one_text (k k' : list ascii) (c : CBL_CMD_t) :
  In (k, c) (cmd_table cfg) -> In (k', c) (cmd_table cfg) -> k = k'.
Proof.
  apply nodup_snd_inj. unfold cmd_table. cbn [map snd].
  repeat (constructor;
          [cbn [In]; intros H;
           repeat (destruct H as [H|H]; [discriminate H|]); exact H|]).
  constructor.
Qed.

Lemma enum_short (buf : list ascii) (cmdCode0 : CBL_CMD_t) :
  until_nul buf = [] ->
  cbl_EnumCmd cfg buf (strlen buf) cmdCode0 = (CBL_ERR_CMD_SHORT, cmdCode0).
Proof. intros H. rewrite enum_as_find. unfold strlen. now rewrite H. Qed.

Lemma enum_hit (buf : list ascii) (cmdCode0 : CBL_CMD_t)
  (txt : list ascii) (c : CBL_CMD_t) :
  texts_ok cfg ->
  In (txt, c) (cmd_table cfg) ->
  txt <> [] ->
  until_nul buf = txt ->
  cbl_EnumCmd cfg buf (strlen buf) cmdCode0 = (CBL_ERR_OK, c).
Proof.
  intros [Hnul Hnd] Hin Hne Hname. rewrite enum_as_find.
  assert ((strlen buf =? 0) = false) as ->.
  { apply Nat.eqb_neq. unfold strlen. rewrite Hname.
    destruct txt; [congruence|discriminate]. }
  rewrite (find_unique_key (is_cmd buf (strlen buf)) (cmd_table cfg) txt c);
    [reflexivity|assumption|assumption|].
  intros k' c' Hin'. rewrite is_cmd_iff by exact (Hnul k' c' Hin').
  rewrite Hname. split; congruence.
Qed.

Lemma enum_miss (buf : list ascii) (cmdCode0 : CBL_CMD_t) :
  texts_ok cfg ->
  until_nul buf <> [] ->
  (forall txt c, In (txt, c) (cmd_table cfg) -> until_nul buf <> txt) ->
  cbl_EnumCmd cfg buf (strlen buf) cmdCode0
  = match cmdCode0 with
    | CBL_CMD_UNDEF => (CBL_ERR_CMD_UNDEF, CBL_CMD_UNDEF)
    | _ => (CBL_ERR_OK, cmdCode0)
    end.
Proof.
  intros [Hnul Hnd] Hne Hnone. rewrite enum_as_find.
  assert ((strlen buf =? 0) = false) as ->.
  { apply Nat.eqb_neq. unfold strlen.
    destruct (until_nul buf); [congruence|discriminate]. }
  destruct (find _ (cmd_table cfg)) as [[k c]|] eqn:Ef; [|reflexivity].
  apply find_some in Ef as [Hin Hk]. cbn [fst] in Hk.
  apply is_cmd_iff in Hk; [|exact (Hnul k c Hin)].
  exfalso. exact (Hnone k c Hin Hk).
Qed.

(** X18.  Called with the length of the command string, [cbl_EnumCmd]
    accepts a command exactly when the string equals one of the thirteen
    texts, whole and with nothing after it; the empty string gives
    [CBL_ERR_CMD_SHORT].  As the chain has no final [else], every other
    string leaves the caller's code in place: [CBL_ERR_CMD_UNDEF] is
    returned only if the caller had put [CBL_CMD_UNDEF] there. *)
Theorem X18_enum_cmd_matches_whole_text
  (buf : list ascii) (cmdCode0 : CBL_CMD_t) :
  texts_ok cfg ->
  (until_nul buf = [] ->
   cbl_EnumCmd cfg buf (strlen buf) cmdCode0 = (CBL_ERR_CMD_SHORT, cmdCode0))
  /\ (forall txt c,
         In (txt, c) (cmd_table cfg) ->
         txt <> [] ->
         (until_nul buf = txt ->
          cbl_EnumCmd cfg buf (strlen buf) cmdCode0 = (CBL_ERR_OK, c))
         /\ (forall extra,
                extra <> [] ->
                until_nul buf = txt ++ extra ->
                cbl_EnumCmd cfg buf (strlen buf) CBL_CMD_UNDEF
                = (CBL_ERR_OK, c) ->
                False))
  /\ (until_nul buf <> [] ->
      (forall txt c, In (txt, c) (cmd_table cfg) -> until_nul buf <> txt) ->
      cbl_EnumCmd cfg buf (strlen buf) cmdCode0
      = match cmdCode0 with
        | CBL_CMD_UNDEF => (CBL_ERR_CMD_UNDEF, CBL_CMD_UNDEF)
        | _ => (CBL_ERR_OK, cmdCode0)
        end).
Proof.
  intros Hok. split; [apply enum_short|]. split; [|now apply enum_miss].
  intros txt c Hin Hne. split; [now apply enum_hit|].
  intros extra Hex Hname Henum.
  destruct Hok as [Hnul Hnd].
  rewrite enum_as_find in Henum.
  destruct (strlen buf =? 0); [discriminate|].
  destruct (find _ (cmd_table cfg)) as [[k c']|] eqn:Ef; [|discriminate].
  injection Henum as ->.
  apply find_some in Ef as [Hin' Hk]. cbn [fst] in Hk.
  apply is_cmd_iff in Hk; [|exact (Hnul k c Hin')].
  assert (k = txt) as -> by exact (code_has_one_text k txt c Hin' Hin).
  rewrite Hname in Hk.
  apply (f_equal (@List.length ascii)) in Hk.
  rewrite length_app in Hk. destruct extra; [congruence|simpl in Hk; lia].
Qed.

(** *** Reading a line and dispatching it *)

Lemma lwait_loop_line (rest : list ascii) (len : nat) :
  (forall l, Hw.HAL_UART_Receive_DMA hal 1 l = HAL_OK) ->
  forall (ln : list ascii) (i : nat) (b : bool) (buf : list ascii)
         (w : world),
    i + List.length ln + 2 <= len ->
    Shell.crlf_from b (ln ++ [CR]) = false ->
    wait_loop hal (ln ++ CR :: LF :: rest) len i i b buf w
    = Shell.Ret
        (CBL_ERR_OK,
         store (Shell.store_list buf i (ln ++ [CR; LF]))
           (i + List.length ln) NUL,
         mkWorld rest
           (log w ++ repeat (UART_Receive_DMA 1) (List.length ln + 2))
           (isExitReq w)).
Proof.
  intros Hrecv.
  induction ln as [|c t IH]; intros i b buf w Hlen Hno.
  - simpl in Hlen. cbn [app wait_loop].
    assert ((i <? len) = true) as -> by (apply Nat.ltb_lt; lia).
    assert ((S i <? len) = true) as -> by (apply Nat.ltb_lt; lia).
    unfold cbl_RecvFromHost. rewrite Hrecv. cbn [is_err].
    replace (Ascii.eqb CR LF) with false by reflexivity.
    rewrite andb_false_r.
    unfold record. cbn [log host_rx isExitReq]. rewrite Hrecv. cbn [is_err].
    replace (Ascii.eqb CR CR) with true by reflexivity.
    replace (Ascii.eqb LF LF) with true by reflexivity.
    cbn [andb log isExitReq Shell.store_list List.length].
    rewrite Nat.add_0_r, <- app_assoc.
    now replace (S i - 1) with i by lia.
  - simpl in Hlen. simpl in Hno. apply orb_false_iff in Hno as [Hb Hrest].
    cbn [app wait_loop].
    assert ((i <? len) = true) as -> by (apply Nat.ltb_lt; lia).
    unfold cbl_RecvFromHost at 1. rewrite Hrecv. cbn [is_err].
    rewrite (Ascii.eqb_sym c LF), Hb.
    rewrite (Ascii.eqb_sym c CR).
    rewrite (IH (S i) (Ascii.eqb CR c) (store buf i c)); [|lia|assumption].
    unfold record.
    cbn [log host_rx isExitReq Shell.store_list List.length].
    rewrite <- app_assoc.
    now replace (i + S (List.length t)) with (S (i + List.length t)) by lia.
Qed.

Lemma lwait_for_cmd_line (n : nat) (line rest : list ascii) (w : world) :
  Hw.HAL_UART_Transmit hal (Shell.CRLF ++ chars "> ") (log w) = HAL_OK ->
  (forall l, Hw.HAL_UART_Receive_DMA hal 1 l = HAL_OK) ->
  host_rx w = line ++ CR :: LF :: rest ->
  List.length line + 2 <= n ->
  Shell.has_crlf (line ++ [CR]) = false ->
  cbl_WaitForCmd hal (repeat NUL n) n w
  = Shell.Ret
      (CBL_ERR_OK,
       line ++ NUL :: LF :: repeat NUL (n - List.length line - 2),
       after_read w (List.length line + 2) rest).
Proof.
  intros Hsend Hrecv Hrx Hn Hno. unfold cbl_WaitForCmd.
  rewrite sys_send, Hsend. unfold record. cbn [is_err host_rx].
  rewrite Hrx, has_crlf_from in *.
  rewrite (lwait_loop_line rest n Hrecv line 0 false) by (simpl; assumption).
  unfold after_read. cbn [log isExitReq]. rewrite <- app_assoc.
  cbn [app]. do 3 f_equal.
  pose proof (store_list_app (line ++ [CR; LF]) [] (repeat NUL n)) as H.
  cbn [app List.length] in H.
  rewrite H by (rewrite length_app, repeat_length; simpl; lia).
  rewrite <- app_assoc. cbn [app Nat.add].
  rewrite store_app_length, length_app, skipn_repeat.
  cbn [List.length].
  now replace (n - (List.length line + 2)) with (n - List.length line - 2)
    by lia.
Qed.

Lemma parsed_length (MAX : nat) (ln : list ascii) :
  List.length (cmd (snd (cbl_ParseCmd MAX ln (List.length ln))))
  = List.length ln
  /\ len (snd (cbl_ParseCmd MAX ln (List.length ln))) = List.length ln.
Proof.
  unfold cbl_ParseCmd.
  destruct (parse_args_chain MAX (strlwr ln) (List.length ln)
              (memchr (strlwr ln) 0 " " (List.length ln)) [])
    as (extra & _ & _ & _ & Hl).
  destruct (parse_args _ _ _ _ _) as [b a]. cbn [snd cmd fst len] in *.
  now rewrite Hl, strlwr_length.
Qed.

Lemma in_cmd_buf_name (p : CBL_Parser_t) :
  until_nul (cmd (in_cmd_buf cfg p)) = cstr (cmd p) 0.
Proof. unfold in_cmd_buf. cbn [cmd]. now rewrite until_nul_app_any. Qed.

(** Reading and parsing a line that fits, up to the dispatch. *)
Lemma state_operation_line (w : world) (ln rest : list ascii) :
  Hw.HAL_UART_Transmit hal (Shell.CRLF ++ chars "> ") (log w) = HAL_OK ->
  (forall l, Hw.HAL_UART_Receive_DMA hal 1 l = HAL_OK) ->
  host_rx w = ln ++ CR :: LF :: rest ->
  List.length ln + 2 <= Cfg.CBL_CMD_BUF_SZ cfg ->
  Shell.has_crlf (ln ++ [CR]) = false ->
  free_of [NUL] ln = true ->
  cbl_StateOperation cfg hal w
  = let p := snd (cbl_ParseCmd (Cfg.CBL_MAX_ARGS cfg) ln (List.length ln)) in
    let w1 := after_read w (List.length ln + 2) rest in
    let (eCode, cmdCode) :=
      cbl_EnumCmd cfg (cmd (in_cmd_buf cfg p))
        (strlen (cmd (in_cmd_buf cfg p))) CBL_CMD_UNDEF in
    if is_err eCode then Returned eCode w1
    else cbl_HandleCmd cfg hal cmdCode (in_cmd_buf cfg p) w1.
Proof.
  intros Hsend Hrecv Hrx Hfit Hno Hnul. cbv zeta.
  destruct (parsed_length (Cfg.CBL_MAX_ARGS cfg) ln) as [Hcl Hpl].
  unfold cbl_StateOperation.
  rewrite (lwait_for_cmd_line _ ln rest w Hsend Hrecv Hrx Hfit Hno).
  cbn [is_err].
  assert (strlen (ln ++ NUL :: LF
                    :: repeat NUL
                         (Cfg.CBL_CMD_BUF_SZ cfg - List.length ln - 2))
          = List.length ln) as ->.
  { unfold strlen.
    now rewrite until_nul_app_nul by now apply free_nul_free. }
  rewrite parse_frame by assumption. cbn [is_err].
  unfold in_cmd_buf. now rewrite Hcl, Hpl.
Qed.

(** X19.  From the line to the handler.  When the host sends a line that
    ends with CR LF and fits the command buffer, [cbl_StateOperation] parses
    it and looks up its command string: the empty string gives
    [CBL_ERR_CMD_SHORT], a string that is one of the thirteen texts runs
    the handler of that command on the parsed line, any other string gives
    [CBL_ERR_CMD_UNDEF]; in each case after the prompt and one reception
    per byte of the line and its end. *)
Theorem X19_line_reaches_its_handler
  (w : world) (line rest : list ascii) :
  texts_ok cfg ->
  Hw.HAL_UART_Transmit hal (Shell.CRLF ++ chars "> ") (log w) = HAL_OK ->
  (forall l, Hw.HAL_UART_Receive_DMA hal 1 l = HAL_OK) ->
  host_rx w = line ++ CR :: LF :: rest ->
  List.length line + 2 <= Cfg.CBL_CMD_BUF_SZ cfg ->
  Shell.has_crlf (line ++ [CR]) = false ->
  free_of [NUL] line = true ->
  let p := snd (cbl_ParseCmd (Cfg.CBL_MAX_ARGS cfg) line (List.length line)) in
  let w1 := after_read w (List.length line + 2) rest in
  (cstr (cmd p) 0 = [] ->
   cbl_StateOperation cfg hal w = Returned CBL_ERR_CMD_SHORT w1)
  /\ (forall txt c,
         In (txt, c) (cmd_table cfg) ->
         txt <> [] ->
         cstr (cmd p) 0 = txt ->
         cbl_StateOperation cfg hal w
         = cbl_HandleCmd cfg hal c (in_cmd_buf cfg p) w1)
  /\ (cstr (cmd p) 0 <> [] ->
      (forall txt c, In (txt, c) (cmd_table cfg) -> cstr (cmd p) 0 <> txt) ->
      cbl_StateOperation cfg hal w = Returned CBL_ERR_CMD_UNDEF w1).
Proof.
  intros Hok Hsend Hrecv Hrx Hfit Hno Hnul p w1.
  pose proof (state_operation_line w line rest Hsend Hrecv Hrx Hfit Hno Hnul)
    as Hstep.
  cbv zeta in Hstep. fold p w1 in Hstep.
  pose proof (in_cmd_buf_name p) as Hname.
  split; [|split].
  - intros He. rewrite Hstep, enum_short by now rewrite Hname.
    reflexivity.
  - intros txt c Hin Hne He.
    rewrite Hstep, (enum_hit _ _ txt c) by (try assumption; now rewrite Hname).
    reflexivity.
  - intros Hne Hnone.
    rewrite Hstep, enum_miss; [reflexivity|assumption|now rewrite Hname|].
    intros txt c Hin. rewrite Hname. now apply (Hnone txt c).
Qed.

(** *** The codes that reach the error state *)

Lemma send_handled (buf : list ascii) (w : world) :
  has_case (fst (cbl_SendToHost hal buf w)) = true.
Proof. now destruct (sys_send_code buf w) as [-> | ->]. Qed.

Ltac sent_code :=
  match goal with
  | |- context [cbl_SendToHost hal ?b ?w] =>
      let H := fresh "Hs" in
      pose proof (send_handled b w) as H;
      destruct (cbl_SendToHost hal b w); cbn [fst] in H
  end.

Lemma jump_to_codes (p : CBL_Parser_t) (w : world) e w' :
  cbl_HandleCmdJumpTo cfg hal p w = Returned e w' -> has_case e = true.
Proof.
  unfold cbl_HandleCmdJumpTo, Legacy.cbl_HandleCmdJumpTo.
  destruct (cbl_ParserGetArgVal p CBL_TXTCMD_JUMP_TO_ADDR _) as [a|].
  2:{ intros H. injection H as <- _. reflexivity. }
  destruct (verify_cases (Cfg.IS_FLASH_ADDRESS cfg)
              (Cfg.IS_CCMDATARAM_ADDRESS cfg) (Cfg.IS_SRAM1_ADDRESS cfg)
              (Cfg.IS_SRAM2_ADDRESS cfg) (Cfg.IS_BKPSRAM_ADDRESS cfg)
              (Cfg.IS_SYSMEM_ADDRESS cfg) (jump_addr p a)) as [-> | ->];
    cbn [is_err].
  2:{ intros H. injection H as <- _. reflexivity. }
  unfold Legacy.cbl_SendToHost.
  destruct (uart_after hal w (Cfg.CBL_TXT_SUCCESS cfg) []); cbn [is_err];
    intros H; try discriminate H; injection H as <- _; reflexivity.
Qed.

Lemma flash_erase_codes (p : CBL_Parser_t) (w : world) e w' :
  cbl_HandleCmdFlashErase cfg hal p w = Returned e w' -> has_case e = true.
Proof.
  unfold cbl_HandleCmdFlashErase, Legacy.cbl_HandleCmdFlashErase.
  destruct (erase_settings (Cfg.FLASH_SECTOR_TOTAL cfg) p) as [e0|s] eqn:Es.
  - intros H. injection H as <- _.
    apply HandlerTraces.erase_settings_error in Es.
    destruct Es as [-> |[-> |[-> | ->]]]; reflexivity.
  - unfold erase_flash, Legacy.cbl_SendToHost.
    destruct (Hw.HAL_FLASH_Unlock hal _);
      try (intros H; injection H as <- _; reflexivity).
    destruct (Hw.HAL_FLASHEx_Erase hal s _) as [hc sc].
    destruct hc; try (intros H; injection H as <- _; reflexivity).
    destruct (sc =? 4294967295)%Z;
      [|intros H; injection H as <- _; reflexivity].
    destruct (uart_after hal w (Cfg.CBL_TXT_SUCCESS cfg) _);
      intros H; injection H as <- _; reflexivity.
Qed.

Lemma handle_cmd_codes (c : CBL_CMD_t) (p : CBL_Parser_t) (w : world) e w' :
  c <> CBL_CMD_UNDEF ->
  cbl_HandleCmd cfg hal c p w = Returned e w' -> has_case e = true.
Proof.
  intros Hc. destruct c; [congruence|..]; cbn [cbl_HandleCmd].
  - unfold cbl_HandleCmdVersion. sent_code.
    intros H. now injection H as <- _.
  - unfold cbl_HandleCmdHelp. sent_code.
    intros H. now injection H as <- _.
  - unfold cbl_HandleCmdCid. sent_code.
    intros H. now injection H as <- _.
  - unfold cbl_HandleCmdGetRDPLvl. sent_code.
    intros H. now injection H as <- _.
  - apply jump_to_codes.
  - apply flash_erase_codes.
  - unfold cbl_HandleCmdChangeWriteProt.
    destruct (_ && _); [intros H; injection H as <- _; reflexivity|].
    destruct (cbl_ParserGetArgVal p _ _);
      [|intros H; injection H as <- _; reflexivity].
    destruct (Hw.HAL_FLASH_OB_Unlock hal _);
      try (intros H; injection H as <- _; reflexivity).
    sent_code. intros H. now injection H as <- _.
  - unfold cbl_HandleCmdChangeWriteProt.
    destruct (_ && _); [intros H; injection H as <- _; reflexivity|].
    destruct (cbl_ParserGetArgVal p _ _);
      [|intros H; injection H as <- _; reflexivity].
    destruct (Hw.HAL_FLASH_OB_Unlock hal _);
      try (intros H; injection H as <- _; reflexivity).
    sent_code. intros H. now injection H as <- _.
  - unfold cbl_HandleCmdMemRead. sent_code.
    intros H. now injection H as <- _.
  - unfold cbl_HandleCmdReadSectProtStat.
    destruct (Hw.HAL_FLASH_OB_Unlock hal _);
      try (intros H; injection H as <- _; reflexivity).
    sent_code. intros H. now injection H as <- _.
  - unfold cbl_HandleCmdGetOTPBytes. sent_code.
    intros H. now injection H as <- _.
  - unfold cbl_HandleCmdFlashWrite.
    destruct (cbl_ParserGetArgVal p _ _);
      [|intros H; injection H as <- _; reflexivity].
    destruct (cbl_ParserGetArgVal p _ _);
      [|intros H; injection H as <- _; reflexivity].
    destruct (_ || _); [intros H; injection H as <- _; reflexivity|].
    destruct (_ <? _)%Z; [intros H; injection H as <- _; reflexivity|].
    unfold cbl_RecvFromHost.
    destruct (Hw.HAL_UART_Receive_DMA hal _ _); cbn [is_err];
      try (intros H; injection H as <- _; reflexivity).
    destruct (_ <=? _); [|discriminate].
    intros H. injection H as <- _. reflexivity.
  - unfold cbl_HandleCmdExit. sent_code.
    intros H. now injection H as <- _.
Qed.

Lemma lwait_loop_codes (len : nat) :
  forall (rx : list ascii) (n i : nat) (b : bool) (buf : list ascii)
         (w : world) e buf' w',
    wait_loop hal rx len n i b buf w = Shell.Ret (e, buf', w') ->
    has_case e = true.
Proof.
  induction rx as [|c rx' IH]; intros n i b buf w e buf' w' H;
    cbn [wait_loop] in H; destruct (n <? len);
    try (injection H as <- _ _; reflexivity);
    unfold cbl_RecvFromHost in H;
    destruct (Hw.HAL_UART_Receive_DMA hal 1 (log w)); cbn [is_err] in H;
    try (injection H as <- _ _; reflexivity); try discriminate H.
  destruct (b && Ascii.eqb c LF).
  - injection H as <- _ _. reflexivity.
  - now apply IH in H.
Qed.

Lemma state_operation_codes (w : world) e w' :
  cbl_StateOperation cfg hal w = Returned e w' -> has_case e = true.
Proof.
  unfold cbl_StateOperation, cbl_WaitForCmd.
  pose proof (send_handled (Shell.CRLF ++ chars "> ") w) as Hs.
  destruct (cbl_SendToHost hal (Shell.CRLF ++ chars "> ") w) as [e0 w0].
  cbn [fst] in Hs.
  destruct (is_err e0) eqn:Ee0.
  { rewrite Ee0. intros H. now injection H as <- _. }
  destruct (wait_loop hal _ _ 0 0 false _ w0) as [[[e1 b1] w1]|] eqn:Ew;
    [|discriminate].
  apply lwait_loop_codes in Ew.
  destruct (is_err e1); [intros H; now injection H as <- _|].
  unfold cbl_ParseCmd.
  destruct (parse_args _ _ _ _ _) as [pb pa]. cbn [is_err].
  rewrite enum_as_find.
  destruct (strlen _ =? 0); cbn [is_err];
    [intros H; now injection H as <- _|].
  destruct (find _ (cmd_table cfg)) as [[k c]|] eqn:Ef; cbn [is_err];
    [|intros H; now injection H as <- _].
  apply find_some in Ef as [Hin _].
  apply handle_cmd_codes.
  unfold cmd_table in Hin. cbn [In] in Hin.
  repeat (destruct Hin as [Hin|Hin];
          [injection Hin as _ <-; discriminate|]).
  contradiction.
Qed.

Lemma state_error_handled (e : cbl_err_code_t) (w : world) :
  has_case e = true -> fst (cbl_StateError hal e w) = CBL_ERR_OK.
Proof. destruct e; intros H; try discriminate H; reflexivity. Qed.

Lemma state_error_unhandled (e : cbl_err_code_t) (w : world) :
  has_case e = false -> cbl_StateError hal e w = (e, w) /\ is_err e = true.
Proof. destruct e; intros H; try discriminate H; split; reflexivity. Qed.

Lemma state_error_flag (e : cbl_err_code_t) (w : world) :
  isExitReq (snd (cbl_StateError hal e w)) = isExitReq w.
Proof.
  destruct e; try reflexivity; cbn [cbl_StateError];
    unfold report; cbn [snd]; now rewrite sys_send.
Qed.

(** *** The shell *)

Lemma shell_step_inv (s : CBL_sysStates_t) (e : cbl_err_code_t) (w : world) :
  shell_inv (Running s e w) -> shell_inv (shell_step cfg hal s e w).
Proof.
  destruct s; cbn [shell_inv shell_step].
  - intros _.
    destruct (cbl_StateOperation cfg hal w) as [e' w'|t w'|] eqn:Eo;
      cbn [shell_inv]; [|exact I|exact I].
    apply state_operation_codes in Eo.
    destruct (is_err e') eqn:Ee; cbn [shell_inv]; [assumption|].
    apply is_err_false in Ee.
    destruct (isExitReq w') eqn:Ex; cbn [shell_inv]; [now split|exact I].
  - intros Hc. pose proof (state_error_handled e w Hc) as H.
    destruct (cbl_StateError hal e w) as [e' w']. cbn [fst] in H. subst e'.
    exact I.
  - intros [-> Hx]. split; [reflexivity|].
    rewrite sys_send. exact Hx.
Qed.

Lemma shell_iter_inv (n : nat) :
  forall r, shell_inv r -> shell_inv (shell_iter cfg hal n r).
Proof.
  induction n as [|n IH]; intros r Hr; [exact Hr|].
  destruct r as [s e w|e w|t w|]; cbn [shell_iter]; try exact Hr.
  now apply IH, shell_step_inv.
Qed.

(** X20.  The shell of this file is left only through the exit command.
    Every error that reading, parsing, dispatching or a handler can return
    has a case in [cbl_StateError], so the error state always leads back to
    the operational state; the exit state is entered only with
    [CBL_ERR_OK] and the exit request set, and [cbl_RunShellSystem]
    returns only [CBL_ERR_OK]. *)
Theorem X20_shell_ends_only_by_exit_request (n : nat) (w : world) :
  (forall e w',
      cbl_RunShellSystem cfg hal n w = Finished e w' ->
      e = CBL_ERR_OK /\ isExitReq w' = true)
  /\ (forall e w',
         cbl_RunShellSystem cfg hal n w = Running CBL_STAT_EXIT e w' ->
         e = CBL_ERR_OK /\ isExitReq w' = true)
  /\ (forall e w',
         cbl_RunShellSystem cfg hal n w = Running CBL_STAT_ERR e w' ->
         has_case e = true
         /\ shell_step cfg hal CBL_STAT_ERR e w'
            = Running CBL_STAT_OPER CBL_ERR_OK
                (snd (cbl_StateError hal e w'))).
Proof.
  assert (shell_inv (cbl_RunShellSystem cfg hal n w)) as Hinv
    by (apply shell_iter_inv; reflexivity).
  split; [|split]; intros e w' H; rewrite H in Hinv; cbn [shell_inv] in Hinv;
    try exact Hinv.
  split; [exact Hinv|]. cbn [shell_step].
  pose proof (state_error_handled e w' Hinv) as He.
  destruct (cbl_StateError hal e w') as [e1 w1]. cbn [fst snd] in *.
  now subst e1.
Qed.

(** X23.  The exit command ends the shell.  When the first line from the
    host is the text of the exit command, the shell sends the welcome text
    and the prompt, reads the line, answers with the success text and the
    farewell, and returns [CBL_ERR_OK] on its third pass, with the bytes
    after the line left unread. *)
Theorem X23_exit_command_ends_the_shell (w : world) (rest : list ascii) :
  texts_ok cfg ->
  name_ok (Cfg.CBL_TXTCMD_EXIT cfg) = true ->
  Cfg.CBL_TXTCMD_EXIT cfg <> [] ->
  lower (Cfg.CBL_TXTCMD_EXIT cfg) = Cfg.CBL_TXTCMD_EXIT cfg ->
  Shell.has_crlf (Cfg.CBL_TXTCMD_EXIT cfg ++ [CR]) = false ->
  List.length (Cfg.CBL_TXTCMD_EXIT cfg) + 2 <= Cfg.CBL_CMD_BUF_SZ cfg ->
  (forall b l, Hw.HAL_UART_Transmit hal b l = HAL_OK) ->
  (forall l, Hw.HAL_UART_Receive_DMA hal 1 l = HAL_OK) ->
  host_rx w = Cfg.CBL_TXTCMD_EXIT cfg ++ CR :: LF :: rest ->
  cbl_RunShellSystem cfg hal 3 w
  = Finished CBL_ERR_OK
      (mkWorld rest
         (log w
          ++ Hal (UART_Transmit (bufWelcome cfg))
             :: Hal (UART_Transmit (Shell.CRLF ++ chars "> "))
             :: repeat (UART_Receive_DMA 1)
                  (List.length (Cfg.CBL_TXTCMD_EXIT cfg) + 2)
          ++ [Hal (UART_Transmit (Cfg.CBL_TXT_SUCCESS cfg));
              Hal (UART_Transmit
                     (chars "Exiting shell :(" ++ Shell.CRLF
                      ++ Shell.CRLF))])
         true).
Proof.
  intros Hok Hname Hne Hlow Hno Hfit Hsend Hrecv Hrx.
  set (T := Cfg.CBL_TXTCMD_EXIT cfg) in *.
  assert (free_of [NUL] T = true) as Hnul
    by (eapply free_of_incl; [|exact Hname]; intros c [<-|[]];
        simpl; auto).
  assert (cstr (cmd (snd (cbl_ParseCmd (Cfg.CBL_MAX_ARGS cfg) T
                            (List.length T)))) 0 = T) as Hcmd.
  { pose proof (parse_line (Cfg.CBL_MAX_ARGS cfg) T [] Hname eq_refl
                  (Nat.le_0_l _)) as Hp.
    unfold line in Hp. cbn [tokens tokens0 map] in Hp.
    rewrite !app_nil_r in Hp. rewrite Hp. cbn [snd cmd].
    unfold cstr. cbn [skipn]. rewrite Hlow.
    now apply free_nul_free. }
  unfold cbl_RunShellSystem, cbl_ShellInit. rewrite sys_send. cbn [snd].
  set (w0 := record (Hal (UART_Transmit (bufWelcome cfg))) w).
  cbn [shell_iter shell_step cbl_StateError is_err].
  rewrite (state_operation_line w0 T rest);
    [|apply Hsend|assumption|exact Hrx|assumption|assumption|assumption].
  cbv zeta.
  rewrite (enum_hit _ _ T CBL_CMD_EXIT);
    [|assumption|unfold cmd_table; cbn [In]; auto 20|assumption
     |now rewrite in_cmd_buf_name].
  cbn [is_err cbl_HandleCmd]. unfold cbl_HandleCmdExit.
  rewrite sys_send, Hsend. cbn [is_err isExitReq record].
  cbn [shell_iter shell_step]. rewrite sys_send. cbn [snd].
  unfold record, after_read, w0, record. cbn [host_rx log isExitReq].
  rewrite <- !app_assoc. reflexivity.
Qed.

End SysFacts.

(** *** The theorems in the concrete configuration *)

Lemma demo_texts_ok : texts_ok demo_cfg.
Proof.
  split.
  - intros txt c H. unfold cmd_table in H. cbn [In] in H.
    repeat (destruct H as [H|H]; [injection H as <- _; reflexivity|]).
    contradiction.
  - unfold cmd_table. cbn [map fst demo_cfg Cfg.CBL_TXTCMD_VERSION
      Cfg.CBL_TXTCMD_HELP Cfg.CBL_TXTCMD_CID Cfg.CBL_TXTCMD_GET_RDP_LVL
      Cfg.CBL_TXTCMD_JUMP_TO Cfg.CBL_TXTCMD_FLASH_ERASE
      Cfg.CBL_TXTCMD_EN_WRITE_PROT Cfg.CBL_TXTCMD_DIS_WRITE_PROT
      Cfg.CBL_TXTCMD_MEM_READ Cfg.CBL_TXTCMD_READ_SECT_PROT_STAT
      Cfg.CBL_TXTCMD_GET_OTP_BYTES Cfg.CBL_TXTCMD_FLASH_WRITE
      Cfg.CBL_TXTCMD_EXIT].
    repeat (constructor;
            [cbn [In]; intros H;
             repeat (destruct H as [H|H]; [discriminate H|]); exact H|]).
    constructor.
Qed.

(** The number 5 in a zeroed buffer of 19 bytes. *)
Lemma X15_ui16tobina_round_trip_witness :
  strlen (cbl_ui16tobina 5 (repeat NUL 19)) = 18
  /\ strtoul (skipn 2 (cbl_ui16tobina 5 (repeat NUL 19))) 2 = 5%Z.
Proof.
  assert (0 <= 5 < 2 ^ 16)%Z as H1 by lia.
  assert (List.length (repeat NUL 19) = 19) as H2 by reflexivity.
  pose proof (X15_ui16tobina_round_trip 5 (repeat NUL 19) H1 H2)
    as (_ & Hs & _ & _ & Hv).
  exact (conj Hs Hv).
Defined.

(** With sector 0 protected and a working link the status text is
    [0b0000000000000001] and the handler returns [CBL_ERR_OK]. *)
Lemma X16_protection_status_text_witness :
  cbl_HandleCmdReadSectProtStat demo_cfg demo_hal (parsed "get-write-prot")
    (host [])
  = Returned CBL_ERR_OK
      (mkWorld []
         [FLASH_OB_Unlock; FLASHEx_OBGetConfig; FLASH_OB_Lock;
          Hal (UART_Transmit (chars "0b0000000000000001"))]
         false)
  /\ exists text,
       cbl_HandleCmdReadSectProtStat demo_cfg demo_hal
         (parsed "get-write-prot") (host [])
       = Returned
           (match Hw.HAL_UART_Transmit demo_hal text
                    (log (host [])
                     ++ [FLASH_OB_Unlock; FLASHEx_OBGetConfig;
                         FLASH_OB_Lock]) with
            | HAL_OK => CBL_ERR_OK
            | _ => CBL_ERR_HAL_TX
            end)
           (mkWorld (host_rx (host []))
              (log (host [])
               ++ [FLASH_OB_Unlock; FLASHEx_OBGetConfig; FLASH_OB_Lock;
                   Hal (UART_Transmit text)])
              (isExitReq (host [])))
       /\ List.length text = 18
       /\ firstn 2 text = chars "0b"
       /\ forall i,
            i < 16 ->
            nth_error text (17 - i)
            = Some
                (if negb
                      (Z.testbit
                         (WRPSector
                            (Hw.HAL_FLASHEx_OBGetConfig demo_hal
                               (log (host []) ++ [FLASH_OB_Unlock])))
                         (Z.of_nat i))
                    && Z.testbit
                         (Z.shiftr (Cfg.FLASH_OPTCR_nWRP_Msk demo_cfg)
                            (Cfg.FLASH_OPTCR_nWRP_Pos demo_cfg)) (Z.of_nat i)
                 then "1"%char else "0"%char).
Proof.
  split; [vm_compute; reflexivity|].
  exact (proj2 (X16_protection_status_text demo_cfg demo_hal
                  (parsed "get-write-prot") (host [])) eq_refl).
Defined.

(** [en-write-prot mask=0x3] programs [0xFFC], every sector but 0 and 1,
    and with a working link returns [CBL_ERR_OK] after the success text. *)
Lemma X17_write_protection_mask_is_inverted_witness :
  wrp_mask demo_cfg (parsed "en-write-prot mask=0x3") 19 = 4092%Z
  /\ cbl_HandleCmdChangeWriteProt demo_cfg demo_hal
       (parsed "en-write-prot mask=0x3") 1 (host [])
     = Returned
         (match Hw.HAL_UART_Transmit demo_hal (Cfg.CBL_TXT_SUCCESS demo_cfg)
                  (log (host [])
                   ++ [FLASH_OB_Unlock; FLASH_WaitForLastOperation 50000;
                       FLASHEx_OBGetConfig;
                       FLASHEx_OBProgram
                         (wrp_mask demo_cfg
                            (parsed "en-write-prot mask=0x3") 19) 1;
                       FLASH_OB_Lock]) with
          | HAL_OK => CBL_ERR_OK
          | _ => CBL_ERR_HAL_TX
          end)
         (mkWorld (host_rx (host []))
            (log (host [])
             ++ [FLASH_OB_Unlock; FLASH_WaitForLastOperation 50000;
                 FLASHEx_OBGetConfig;
                 FLASHEx_OBProgram
                   (wrp_mask demo_cfg (parsed "en-write-prot mask=0x3") 19)
                   1;
                 FLASH_OB_Lock;
                 Hal (UART_Transmit (Cfg.CBL_TXT_SUCCESS demo_cfg))])
            (isExitReq (host [])))
  /\ forall i,
       i < 32 ->
       Z.testbit (wrp_mask demo_cfg (parsed "en-write-prot mask=0x3") 19)
         (Z.of_nat i)
       = negb (Z.testbit (mask_arg (parsed "en-write-prot mask=0x3") 19)
                 (Z.of_nat i))
         && Z.testbit
              (Z.shiftr (Cfg.FLASH_OPTCR_nWRP_Msk demo_cfg)
                 (Cfg.FLASH_OPTCR_nWRP_Pos demo_cfg)) (Z.of_nat i).
Proof.
  split; [vm_compute; reflexivity|].
  assert (1%Z = Cfg.OB_WRPSTATE_ENABLE demo_cfg
          \/ 1%Z = Cfg.OB_WRPSTATE_DISABLE demo_cfg) as H1
    by (left; reflexivity).
  assert (cbl_ParserGetArgVal (parsed "en-write-prot mask=0x3")
            (Cfg.CBL_TXTCMD_EN_WRITE_PROT_MASK demo_cfg)
            (strlen (Cfg.CBL_TXTCMD_EN_WRITE_PROT_MASK demo_cfg))
          = Some 19) as H2 by (vm_compute; reflexivity).
  exact (X17_write_protection_mask_is_inverted demo_cfg demo_hal
           (parsed "en-write-prot mask=0x3") 1 (host []) 19
           H1 H2 eq_refl).
Defined.

(** [help] is a command; [helpme] and [hel] are not. *)
Lemma X18_enum_cmd_matches_whole_text_witness :
  cbl_EnumCmd demo_cfg (chars "help") (strlen (chars "help")) CBL_CMD_UNDEF
  = (CBL_ERR_OK, CBL_CMD_HELP)
  /\ cbl_EnumCmd demo_cfg (chars "hel") (strlen (chars "hel")) CBL_CMD_UNDEF
     = (CBL_ERR_CMD_UNDEF, CBL_CMD_UNDEF)
  /\ cbl_EnumCmd demo_cfg [] (strlen []) CBL_CMD_UNDEF
     = (CBL_ERR_CMD_SHORT, CBL_CMD_UNDEF).
Proof.
  pose proof (X18_enum_cmd_matches_whole_text demo_cfg) as H.
  split; [|split].
  - assert (In (chars "help", CBL_CMD_HELP) (cmd_table demo_cfg)) as Hin
      by (right; left; reflexivity).
    assert (chars "help" <> []) as Hne by discriminate.
    exact (proj1 (proj1 (proj2 (H (chars "help") CBL_CMD_UNDEF demo_texts_ok))
                    (chars "help") CBL_CMD_HELP Hin Hne) eq_refl).
  - assert (until_nul (chars "hel") <> []) as Hne by discriminate.
    assert (forall txt c, In (txt, c) (cmd_table demo_cfg) ->
                          until_nul (chars "hel") <> txt) as Hno.
    { intros txt c Hin. unfold cmd_table in Hin. cbn [In] in Hin.
      repeat (destruct Hin as [Hin|Hin];
              [injection Hin as <- _; discriminate|]).
      contradiction. }
    exact (proj2 (proj2 (H (chars "hel") CBL_CMD_UNDEF demo_texts_ok))
             Hne Hno).
  - exact (proj1 (H [] CBL_CMD_UNDEF demo_texts_ok) eq_refl).
Defined.

(** The host sends [Help] and the line end: the help handler runs. *)
Lemma X19_line_reaches_its_handler_witness :
  cbl_StateOperation demo_cfg demo_hal
    (host (chars "Help" ++ CR :: LF :: []))
  = cbl_HandleCmd demo_cfg demo_hal CBL_CMD_HELP
      (in_cmd_buf demo_cfg
         (snd (cbl_ParseCmd (Cfg.CBL_MAX_ARGS demo_cfg) (chars "Help")
                 (List.length (chars "Help")))))
      (after_read (host (chars "Help" ++ CR :: LF :: []))
         (List.length (chars "Help") + 2) []).
Proof.
  assert (List.length (chars "Help") + 2 <= Cfg.CBL_CMD_BUF_SZ demo_cfg)
    as Hfit by (cbn; lia).
  assert (In (chars "help", CBL_CMD_HELP) (cmd_table demo_cfg)) as Hin
    by (right; left; reflexivity).
  assert (chars "help" <> []) as Hne by discriminate.
  exact (proj1 (proj2
                  (X19_line_reaches_its_handler demo_cfg demo_hal
                     (host (chars "Help" ++ CR :: LF :: [])) (chars "Help")
                     [] demo_texts_ok eq_refl (fun _ => eq_refl) eq_refl
                     Hfit eq_refl eq_refl))
           (chars "help") CBL_CMD_HELP Hin Hne eq_refl).
Defined.


(** The version text [v0.2] is sent with its line end. *)
Lemma X22_version_line_fits_nine_witness :
  exists e,
    cbl_HandleCmdVersion demo_cfg demo_hal (parsed "version") (host [])
    = Returned e
        (record
           (Hal (UART_Transmit
                   (firstn 11 (Cfg.CBL_VERSION demo_cfg ++ Shell.CRLF))))
           (host []))
    /\ (e = CBL_ERR_OK \/ e = CBL_ERR_HAL_TX).
Proof.
  assert (List.length (Cfg.CBL_VERSION demo_cfg) <= 11) as Hlen
    by (cbn; lia).
  exact (X22_version_line_fits_nine demo_cfg demo_hal (parsed "version")
           (host []) eq_refl Hlen).
Defined.

(** The host sends [exit], the line end and a further byte. *)
Lemma X23_exit_command_ends_the_shell_witness :
  cbl_RunShellSystem demo_cfg demo_hal 3
    (host (chars "exit" ++ CR :: LF :: chars "x"))
  = Finished CBL_ERR_OK
      (mkWorld (chars "x")
         (log (host (chars "exit" ++ CR :: LF :: chars "x"))
          ++ Hal (UART_Transmit (bufWelcome demo_cfg))
             :: Hal (UART_Transmit (Shell.CRLF ++ chars "> "))
             :: repeat (UART_Receive_DMA 1)
                  (List.length (Cfg.CBL_TXTCMD_EXIT demo_cfg) + 2)
          ++ [Hal (UART_Transmit (Cfg.CBL_TXT_SUCCESS demo_cfg));
              Hal (UART_Transmit
                     (chars "Exiting shell :(" ++ Shell.CRLF
                      ++ Shell.CRLF))])
         true).
Proof.
  assert (Cfg.CBL_TXTCMD_EXIT demo_cfg <> []) as Hne by discriminate.
  assert (List.length (Cfg.CBL_TXTCMD_EXIT demo_cfg) + 2
          <= Cfg.CBL_CMD_BUF_SZ demo_cfg) as Hfit by (cbn; lia).
  exact (X23_exit_command_ends_the_shell demo_cfg demo_hal
           (host (chars "exit" ++ CR :: LF :: chars "x")) (chars "x")
           demo_texts_ok eq_refl Hne eq_refl eq_refl Hfit
           (fun _ _ => eq_refl) (fun _ => eq_refl) eq_refl).
Defined.

End LegacySysFacts.

(* ================================================================== *)
(** ** [custom_bootloader.c]: command processing *)

Module DispatchFacts.
Import CStr CStrFacts CLib Shell ShellFacts CmdLine ParserFacts Dispatch.

#[local] Arguments Ascii.eqb : simpl never.

Lemma disp_is_cmd_iff (buf txt : list ascii) :
  nul_free txt ->
  (is_cmd buf (strlen buf) txt = true <-> until_nul buf = txt).
Proof.
  intros Hk. unfold is_cmd.
  assert (strlen txt = List.length txt) as Hl
    by (unfold strlen; now rewrite Hk).
  rewrite andb_true_iff, Nat.eqb_eq, Z.eqb_eq, Hl. split.
  - intros [Hlen Hc]. rewrite <- Hlen in Hc.
    now apply strncmp_zero_iff in Hc.
  - intros H.
    assert (List.length txt = strlen buf) as Hlen
      by (unfold strlen; now rewrite H).
    split; [now symmetry|]. rewrite Hlen. now apply strncmp_zero_iff.
Qed.

Section DispatchFacts.

Variable b : Build.t.
Variable parser_t : Type.
Variable ext : Ext.t parser_t.
Variable hal_send_to_host_status :
  list ascii -> list hal_call -> cbl_err_code_t.

(** The chain of [enum_cmd] is a search for the first link of [cmd_chain]
    that is compiled in and whose text passes the test. *)
Lemma disp_enum_as_find (buf : list ascii) (len : nat) (cmdCode0 : cmd_t) :
  enum_cmd b buf len cmdCode0
  = if len =? 0 then (CBL_ERR_CMD_SHORT, cmdCode0)
    else
      match find (fun l => fst (fst l) && is_cmd buf len (snd (fst l)))
              (cmd_chain b) with
      | Some (_, _, c) => (CBL_ERR_OK, c)
      | None => (CBL_ERR_CMD_UNDEF, CMD_UNDEF)
      end.
Proof.
  unfold enum_cmd, cmd_chain.
  destruct (len =? 0); [reflexivity|]. cbn [find fst snd andb].
  repeat match goal with
         | |- context [if is_cmd buf len ?t then _ else _] =>
             destruct (is_cmd buf len t); [reflexivity|]
         | |- context [if ?g && is_cmd buf len ?t then _ else _] =>
             destruct (g && is_cmd buf len t); [reflexivity|]
         end.
  reflexivity.
Qed.

Lemma disp_find_enabled (f : list ascii -> bool)
  (l : list (bool * list ascii * cmd_t)) (k : list ascii) (c : cmd_t) :
  NoDup (map (fun x => snd (fst x)) (filter (fun x => fst (fst x)) l)) ->
  In (true, k, c) l ->
  (forall g k' c', In (g, k', c') l -> (f k' = true <-> k' = k)) ->
  find (fun x => fst (fst x) && f (snd (fst x))) l = Some (true, k, c).
Proof.
  induction l as [|[[g0 k0] c0] t IH]; intros Hnd Hin Hf; [contradiction|].
  cbn [find fst snd]. cbn [filter fst map] in Hnd.
  destruct g0; cbn [andb].
  - cbn [map fst snd] in Hnd.
    inversion Hnd as [|? ? Hnotin Hnd']; subst.
    destruct (f k0) eqn:E.
    + apply (Hf true k0 c0 (or_introl eq_refl)) in E. subst k0.
      destruct Hin as [Hin|Hin]; [now rewrite Hin|].
      exfalso. apply Hnotin.
      change k with ((fun x : bool * list ascii * cmd_t => snd (fst x))
                       (true, k, c)).
      apply in_map, filter_In. now split.
    + destruct Hin as [Hin|Hin].
      * injection Hin as -> ->.
        assert (f k = true) as Hk
          by now apply (Hf true k c (or_introl eq_refl)).
        congruence.
      * apply IH; [assumption|assumption|].
        intros g k' c' Hin'. apply (Hf g k' c'). now right.
  - destruct Hin as [Hin|Hin]; [discriminate Hin|].
    apply IH; [assumption|assumption|].
    intros g k' c' Hin'. apply (Hf g k' c'). now right.
Qed.

Lemma disp_enum_short (buf : list ascii) (cmdCode0 : cmd_t) :
  until_nul buf = [] ->
  enum_cmd b buf (strlen buf) cmdCode0 = (CBL_ERR_CMD_SHORT, cmdCode0).
Proof. intros H. rewrite disp_enum_as_find. unfold strlen. now rewrite H. Qed.

Lemma disp_enum_hit (buf : list ascii) (cmdCode0 : cmd_t)
  (txt : list ascii) (c : cmd_t) :
  chain_ok b ->
  In (true, txt, c) (cmd_chain b) ->
  txt <> [] ->
  until_nul buf = txt ->
  enum_cmd b buf (strlen buf) cmdCode0 = (CBL_ERR_OK, c).
Proof.
  intros [Hnul Hnd] Hin Hne Hname. rewrite disp_enum_as_find.
  assert ((strlen buf =? 0) = false) as ->.
  { apply Nat.eqb_neq. unfold strlen. rewrite Hname.
    destruct txt; [congruence|discriminate]. }
  rewrite (disp_find_enabled (is_cmd buf (strlen buf)) (cmd_chain b) txt c);
    [reflexivity|assumption|assumption|].
  intros g k' c' Hin'. rewrite disp_is_cmd_iff by exact (Hnul g k' c' Hin').
  rewrite Hname. split; congruence.
Qed.

Lemma disp_enum_found (buf : list ascii) (len : nat) (cmdCode0 c : cmd_t) :
  enum_cmd b buf len cmdCode0 = (CBL_ERR_OK, c) ->
  exists txt,
    In (true, txt, c) (cmd_chain b) /\ is_cmd buf len txt = true.
Proof.
  rewrite disp_enum_as_find. destruct (len =? 0); [discriminate|].
  destruct (find _ (cmd_chain b)) as [[[g k] c']|] eqn:Ef; [|discriminate].
  intros H. injection H as ->.
  apply find_some in Ef as [Hin Hk]. cbn [fst snd] in Hk.
  apply andb_true_iff in Hk as [-> Hk]. now exists k.
Qed.

(** A code that [enum_cmd] returns has its case in the [switch] of
    [handle_cmd]: both are compiled in together. *)
Lemma enabled_has_case (txt : list ascii) (c : cmd_t) :
  In (true, txt, c) (cmd_chain b) ->
  handler_case b parser_t ext hal_send_to_host_status c <> None.
Proof.
  unfold cmd_chain. cbn [In]. intros H.
  repeat (destruct H as [H|H];
          [inversion H; subst; cbn [handler_case];
           try match goal with
               | Hg : _ = true |- _ => rewrite Hg
               end; discriminate|]).
  contradiction.
Qed.

(** X24.  Called with the length of the command string, [enum_cmd] returns
    a command code exactly for the strings that equal, whole and with
    nothing after them, the text of a command that is compiled in; the
    empty string gives [CBL_ERR_CMD_SHORT] and every other string
    [CBL_ERR_CMD_UNDEF], also the text of a command whose header is not
    included. *)
Theorem X24_enum_cmd_knows_compiled_commands
  (buf : list ascii) (cmdCode0 : cmd_t) :
  chain_ok b ->
  (until_nul buf = [] ->
   enum_cmd b buf (strlen buf) cmdCode0 = (CBL_ERR_CMD_SHORT, cmdCode0))
  /\ (forall txt c,
         In (true, txt, c) (cmd_chain b) ->
         txt <> [] ->
         until_nul buf = txt ->
         enum_cmd b buf (strlen buf) cmdCode0 = (CBL_ERR_OK, c))
  /\ (forall c,
         enum_cmd b buf (strlen buf) cmdCode0 = (CBL_ERR_OK, c) ->
         c <> CMD_UNDEF
         /\ exists txt,
              In (true, txt, c) (cmd_chain b) /\ until_nul buf = txt)
  /\ (until_nul buf <> [] ->
      (forall txt c,
          In (true, txt, c) (cmd_chain b) -> until_nul buf <> txt) ->
      enum_cmd b buf (strlen buf) cmdCode0
      = (CBL_ERR_CMD_UNDEF, CMD_UNDEF)).
Proof.
  intros Hok. split; [apply disp_enum_short|].
  split; [intros txt c; now apply disp_enum_hit|].
  destruct Hok as [Hnul Hnd]. split.
  - intros c H. apply disp_enum_found in H as (txt & Hin & Hk).
    apply disp_is_cmd_iff in Hk; [|exact (Hnul true txt c Hin)].
    split; [|now exists txt].
    intros ->. unfold cmd_chain in Hin. cbn [In] in Hin.
    repeat (destruct Hin as [Hin|Hin]; [discriminate Hin|]).
    contradiction.
  - intros Hne Hnone. rewrite disp_enum_as_find.
    assert ((strlen buf =? 0) = false) as ->.
    { apply Nat.eqb_neq. unfold strlen.
      destruct (until_nul buf); [congruence|discriminate]. }
    destruct (find _ (cmd_chain b)) as [[[g k] c]|] eqn:Ef; [|reflexivity].
    apply find_some in Ef as [Hin Hk]. cbn [fst snd] in Hk.
    apply andb_true_iff in Hk as [-> Hk].
    apply disp_is_cmd_iff in Hk; [|exact (Hnul true k c Hin)].
    exfalso. exact (Hnone k c Hin Hk).
Qed.

(** X26.  The [default] branch of [handle_cmd] is never reached from
    [CBL_process_cmd]: whatever the parser leaves in [parser.cmd], a code
    that [enum_cmd] accepts has its case.  So [CBL_process_cmd] returns
    [CBL_ERR_CMDCD] only when the parser or a handler returned it, and what
    it returns is an error of the parser, [CBL_ERR_CMD_SHORT],
    [CBL_ERR_CMD_UNDEF], an error of the handler, or the status of the
    success text sent after the handler succeeded. *)
Theorem X26_process_cmd_never_reaches_default
  (cmd : list ascii) (len : nat) (w : world) :
  let pr := Ext.parser_run ext cmd len in
  (fst pr <> CBL_ERR_OK /\
   CBL_process_cmd b parser_t ext hal_send_to_host_status cmd len w
   = Ret (fst pr, w))
  \/ (fst pr = CBL_ERR_OK /\
      ((CBL_process_cmd b parser_t ext hal_send_to_host_status cmd len w
        = Ret (CBL_ERR_CMD_SHORT, w))
       \/ (CBL_process_cmd b parser_t ext hal_send_to_host_status cmd len w
           = Ret (CBL_ERR_CMD_UNDEF, w))
       \/ exists c handler,
            c <> CMD_UNDEF
            /\ handler_case b parser_t ext hal_send_to_host_status c
               = Some handler
            /\ CBL_process_cmd b parser_t ext hal_send_to_host_status
                 cmd len w
               = match handler (snd pr) w with
                 | Ret (eCode, w1) =>
                     if is_err eCode then Ret (eCode, w1)
                     else Ret (hal_send_to_host hal_send_to_host_status
                                 (Build.TXT_SUCCESS b) w1)
                 | NoReturn => NoReturn
                 end)).
Proof.
  cbv zeta. unfold CBL_process_cmd.
  destruct (Ext.parser_run ext cmd len) as [e0 p]. cbn [fst snd].
  destruct (is_err e0) eqn:E0.
  { left. split; [now apply is_err_true|reflexivity]. }
  right. split; [now apply is_err_false|].
  destruct (enum_cmd b (Ext.parser_cmd ext p)
              (strlen (Ext.parser_cmd ext p)) CMD_UNDEF) as [e1 c] eqn:Een.
  pose proof Een as Hfind. rewrite disp_enum_as_find in Hfind.
  destruct (strlen (Ext.parser_cmd ext p) =? 0).
  { injection Hfind as <- <-. now left. }
  destruct (find _ (cmd_chain b)) as [[[g k] c']|] eqn:Ef.
  2:{ injection Hfind as <- <-. right. now left. }
  injection Hfind as <- <-. cbn [is_err]. right. right.
  apply disp_enum_found in Een as (txt & Hin & _).
  pose proof (enabled_has_case txt c' Hin) as Hcase.
  destruct (handler_case b parser_t ext hal_send_to_host_status c')
    as [handler|] eqn:Eh; [|congruence].
  exists c', handler. split; [|split; [exact Eh|]].
  - intros ->. discriminate Eh.
  - unfold handle_cmd. now rewrite Eh.
Qed.

(** X25.  The line [version] through the shell.  When the host sends
    [version] and the line end, the parser leaves that word in
    [parser.cmd] and the link works, one pass of the operational state
    sends the prompt, starts nine receptions, sends the first eleven bytes
    of the version text with its line end and then the success text, once;
    the code returned is the status of the success text. *)
Theorem X25_version_line_is_answered
  (hal_recv_from_host_start_status : list hal_call -> cbl_err_code_t)
  (rest : list ascii) (log : list hal_call) (exit_req : bool) :
  free_of [NUL] (Build.CBL_VERSION b) = true ->
  List.length (Build.CBL_VERSION b) <= 11 ->
  (forall cmd,
      until_nul cmd = TXT_CMD_VERSION ->
      exists p,
        Ext.parser_run ext cmd (List.length TXT_CMD_VERSION)
        = (CBL_ERR_OK, p)
        /\ until_nul (Ext.parser_cmd ext p) = TXT_CMD_VERSION) ->
  (forall l, hal_recv_from_host_start_status l = CBL_ERR_OK) ->
  hal_send_to_host_status prompt log = CBL_ERR_OK ->
  let log1 := log ++ SendToHost prompt :: repeat RecvFromHostStart 9 in
  let answer := firstn 11 (Build.CBL_VERSION b ++ CRLF) in
  hal_send_to_host_status answer log1 = CBL_ERR_OK ->
  sys_state_operation hal_send_to_host_status
    hal_recv_from_host_start_status
    (CBL_process_cmd b parser_t ext hal_send_to_host_status)
    (mkWorld (TXT_CMD_VERSION ++ CR :: LF :: rest) log exit_req)
  = Ret (hal_send_to_host_status (Build.TXT_SUCCESS b)
           (log1 ++ [SendToHost answer]),
         mkWorld rest
           (log1 ++ [SendToHost answer; SendToHost (Build.TXT_SUCCESS b)])
           exit_req).
Proof.
  intros Hnul Hlen Hparse Hrecv Hprompt log1 answer Hans.
  unfold sys_state_operation.
  destruct (wait_for_cmd_line hal_send_to_host_status
              hal_recv_from_host_start_status Hrecv CMD_BUF_SZ
              TXT_CMD_VERSION rest log exit_req Hprompt)
    as (cmd & Hwait & Hcmd);
    [unfold CMD_BUF_SZ; simpl; lia|reflexivity|reflexivity|].
  rewrite Hwait. cbn [is_err].
  assert (strlen cmd = List.length TXT_CMD_VERSION) as ->
    by (unfold strlen; now rewrite Hcmd).
  destruct (Hparse cmd Hcmd) as (p & Hrun & Hname).
  unfold CBL_process_cmd. rewrite Hrun. cbn [is_err].
  assert (enum_cmd b (Ext.parser_cmd ext p)
            (strlen (Ext.parser_cmd ext p)) CMD_UNDEF
          = (CBL_ERR_OK, CMD_VERSION)) as ->.
  { rewrite disp_enum_as_find.
    assert (is_cmd (Ext.parser_cmd ext p) (strlen (Ext.parser_cmd ext p))
              TXT_CMD_VERSION = true) as Hv
      by (apply disp_is_cmd_iff; [reflexivity|assumption]).
    unfold strlen at 1. rewrite Hname.
    change (List.length TXT_CMD_VERSION =? 0) with false. cbv iota.
    unfold cmd_chain. cbn [find fst snd andb].
    replace (List.length TXT_CMD_VERSION)
      with (strlen (Ext.parser_cmd ext p))
      by (unfold strlen; now rewrite Hname).
    now rewrite Hv. }
  cbn [is_err]. unfold handle_cmd. cbn [handler_case]. unfold cmd_version.
  rewrite LegacySysFacts.version_text by assumption.
  fold answer. unfold hal_send_to_host. cbn [hal_log host_rx gIsExitReq].
  change (List.length TXT_CMD_VERSION + 2) with 9. fold log1.
  rewrite Hans. cbn [is_err hal_log host_rx gIsExitReq].
  now rewrite <- app_assoc.
Qed.

End DispatchFacts.

(** *** The theorems in concrete builds *)

Lemma full_chain_ok : chain_ok full_build.
Proof.
  split.
  - intros g txt c H. unfold cmd_chain in H. cbn [In] in H.
    repeat (destruct H as [H|H]; [injection H as _ <- _; reflexivity|]).
    contradiction.
  - unfold cmd_chain. cbn.
    repeat (constructor;
            [cbn [In]; intros H;
             repeat (destruct H as [H|H]; [discriminate H|]); exact H|]).
    constructor.
Qed.

Lemma bare_chain_ok : chain_ok bare_build.
Proof.
  split.
  - intros g txt c H. unfold cmd_chain in H. cbn [In] in H.
    repeat (destruct H as [H|H]; [injection H as _ <- _; reflexivity|]).
    contradiction.
  - unfold cmd_chain. cbn.
    repeat (constructor;
            [cbn [In]; intros H;
             repeat (destruct H as [H|H]; [discriminate H|]); exact H|]).
    constructor.
Qed.

(** [flash-erase] is a command when [cbl_cmds_memory.h] is included and
    an undefined one when it is not. *)
Lemma X24_enum_cmd_knows_compiled_commands_witness :
  enum_cmd full_build (chars "flash-erase") (strlen (chars "flash-erase"))
    CMD_UNDEF
  = (CBL_ERR_OK, CMD_FLASH_ERASE)
  /\ enum_cmd bare_build (chars "flash-erase")
       (strlen (chars "flash-erase")) CMD_UNDEF
     = (CBL_ERR_CMD_UNDEF, CMD_UNDEF).
Proof.
  split.
  - assert (In (true, TXT_CMD_FLASH_ERASE, CMD_FLASH_ERASE)
              (cmd_chain full_build)) as Hin
      by (do 10 right; left; reflexivity).
    assert (TXT_CMD_FLASH_ERASE <> []) as Hne by discriminate.
    exact (proj1 (proj2
                    (X24_enum_cmd_knows_compiled_commands full_build
                       (chars "flash-erase") CMD_UNDEF full_chain_ok))
             TXT_CMD_FLASH_ERASE CMD_FLASH_ERASE Hin Hne eq_refl).
  - assert (until_nul (chars "flash-erase") <> []) as Hne by discriminate.
    assert (forall txt c,
               In (true, txt, c) (cmd_chain bare_build) ->
               until_nul (chars "flash-erase") <> txt) as Hno.
    { intros txt c Hin. unfold cmd_chain in Hin. cbn [In] in Hin.
      repeat (destruct Hin as [Hin|Hin];
              [first [discriminate Hin
                     |injection Hin as <- _; discriminate]|]).
      contradiction. }
    exact (proj2 (proj2 (proj2
                    (X24_enum_cmd_knows_compiled_commands bare_build
                       (chars "flash-erase") CMD_UNDEF bare_chain_ok)))
             Hne Hno).
Defined.

(** The host sends [version] and the line end; the version text is
    [v1.0]. *)
Lemma X25_version_line_is_answered_witness :
  sys_state_operation send_ok recv_ok
    (CBL_process_cmd full_build (list ascii) line_ext send_ok)
    (mkWorld (TXT_CMD_VERSION ++ CR :: LF :: []) [] false)
  = Ret (send_ok (Build.TXT_SUCCESS full_build)
           (([] ++ SendToHost prompt :: repeat RecvFromHostStart 9)
            ++ [SendToHost
                  (firstn 11 (Build.CBL_VERSION full_build ++ CRLF))]),
         mkWorld []
           (([] ++ SendToHost prompt :: repeat RecvFromHostStart 9)
            ++ [SendToHost
                  (firstn 11 (Build.CBL_VERSION full_build ++ CRLF));
                SendToHost (Build.TXT_SUCCESS full_build)])
           false).
Proof.
  assert (List.length (Build.CBL_VERSION full_build) <= 11) as Hlen
    by (cbn; lia).
  exact (X25_version_line_is_answered full_build (list ascii) line_ext
           send_ok recv_ok [] [] false eq_refl Hlen
           (fun cmd H =>
              ex_intro _ (until_nul cmd)
                (conj eq_refl (eq_trans (until_nul_idem cmd) H)))
           (fun _ => eq_refl) eq_refl eq_refl).
Defined.

End DispatchFacts.
